(** * Cortex-M memory protection unit configuration

    A shallow embedding of [core/cortex-m/mpu.c]: the region programmer
    [mpu_update_region], the region encoder [mpu_config_region], the
    rollback lock [mpu_lock_rollback] and the boot sequence
    [mpu_pre_init].

    C integers are carried by [Z]; every conversion to a fixed width type
    is written out with [u8], [u16] and [u32].  The memory mapped
    registers of the unit form an explicit state that is threaded through
    the functions, together with the chronological list of stores and
    barriers that were issued. *)

From Stdlib Require Import ZArith List Bool Lia.
Import ListNotations.
Local Open Scope Z_scope.

(** ** Fixed width integers *)

Definition u8 (x : Z) : Z := x mod 2 ^ 8.
Definition u16 (x : Z) : Z := x mod 2 ^ 16.
Definition u32 (x : Z) : Z := x mod 2 ^ 32.

(** ** Helpers that the file takes from its includes *)

Module Util.

(** Modelled from the spec: the macro [BIT] of common.h is not among the
    sources.  [BIT(size_bit)] is the region size [2^size_exponent], the
    unsigned 32 bit value [1U << nr].  C leaves a shift count of 32 or
    more undefined.  The code reaches the count 32 in one place only: the
    first region of a length of more than [2^31] bytes that is not a power
    of two.  Here such a count gives 0, which is what the register
    controlled shift of the Cortex-M does; a statement that would rest on
    that value is made for the other lengths only, and says so. *)
Definition BIT (nr : Z) : Z := u32 (Z.shiftl 1 nr).

(** Modelled from the spec: the macro [POWER_OF_TWO] of util.h is not
    among the sources.  "If [length_bytes] is an exact power of two". *)
Definition POWER_OF_TWO (x : Z) : bool :=
  (0 <? x) && (x =? 2 ^ Z.log2 x).

(** Modelled from the spec: the helper [is_aligned] of util.h is not among
    the sources.  "[base_address] is an exact multiple of
    [2^size_exponent]"; an alignment that is not a power of two is
    refused. *)
Definition is_aligned (addr align : Z) : bool :=
  POWER_OF_TWO align && (addr mod align =? 0).

(** The compiler builtin [__builtin_clz] on a 32 bit operand: the number
    of leading zero bits.  The result for 0 is undefined in C; the code
    never asks for it. *)
Definition __builtin_clz (x : Z) : Z := 31 - Z.log2 x.

End Util.
Import Util.

(** ** Status values *)

(** Modelled from the spec: [enum ec_error_list] of common.h is not among
    the sources.  The four values that mpu.c returns: success,
    [-EC_ERROR_INVAL] (every configuration error: invalid size, misaligned,
    unrepresentable, slot out of range), [EC_ERROR_HW_INTERNAL] (no MPU)
    and [EC_ERROR_UNIMPLEMENTED] (unsupported topology). *)
Inductive status : Set :=
| EC_SUCCESS
| neg_EC_ERROR_INVAL
| EC_ERROR_HW_INTERNAL
| EC_ERROR_UNIMPLEMENTED.

Definition is_success (rv : status) : bool :=
  match rv with EC_SUCCESS => true | _ => false end.

(** ** Constants of mpu.h and of the board configuration *)

(** The header mpu.h and the board configuration are not among the
    sources: their constants are parameters of the development. *)
Record platform : Type := {
  MPU_TYPE_REG_COUNT : Z -> Z;
  MPU_TYPE_UNIFIED_MASK : Z;
  MPU_CTRL_PRIVDEFEN : Z;
  MPU_CTRL_HFNMIENA : Z;
  MPU_CTRL_ENABLE : Z;
  MPU_ATTR_XN : Z;
  MPU_ATTR_NO_NO : Z;
  MPU_ATTR_RW_RW : Z;
  CORTEX_M_SRAM_BASE : Z;
  REGION_STORAGE2 : Z;
  REGION_DATA_RAM_TEXT : Z;
  REGION_CHIP_RESERVED : Z;
  REGION_UNCACHED_RAM : Z;
  REGION_ROLLBACK : Z;
  CONFIG_MAPPED_STORAGE_BASE : Z;
  CONFIG_ROLLBACK_OFF : Z;
  CONFIG_ROLLBACK_SIZE : Z;
  CONFIG_ROLLBACK_MPU_PROTECT : bool;
  CONFIG_ARMV7M_CACHE : bool;
  CONFIG_CHIP_UNCACHED_REGION : option (Z * Z)
}.

(** Modelled from the spec: [MPU_SIZE_BITS_MIN] of mpu.h is not among the
    sources.  "minimum exponent [...] must be >= 5 i.e. >= 32 bytes"; the
    boot sequence calls it "the smallest possible size (32 bytes)". *)
Definition MPU_SIZE_BITS_MIN : Z := 5.

(** ** The registers of the unit *)

(** The base address and the combined size and attribute register are
    banked: one pair per region, selected by the region number register. *)
Record region_regs : Set := {
  RBAR : Z;   (* what a store to MPU_BASE leaves *)
  RASR : Z    (* MPU_SIZE in the low half word, MPU_ATTR in the high one *)
}.

Inductive mmio : Set :=
| ADDR_MPU_CTRL
| ADDR_MPU_NUMBER
| ADDR_MPU_BASE
| ADDR_MPU_SIZE.

(** What the processor was asked to do, in program order. *)
Inductive event : Set :=
| Ev_isb_dsb
| Ev_store (width : Z) (r : mmio) (v : Z)
| Ev_cpu_enable_caches.

Record mpu_state : Type := {
  MPU_TYPE : Z;
  MPU_CTRL : Z;
  MPU_NUMBER : Z;
  regions : Z -> region_regs;
  trace : list event
}.

Definition selected (st : mpu_state) : region_regs :=
  regions st (MPU_NUMBER st).

Definition MPU_BASE (st : mpu_state) : Z := RBAR (selected st).
Definition MPU_SIZE (st : mpu_state) : Z := u16 (RASR (selected st)).
Definition MPU_ATTR (st : mpu_state) : Z := RASR (selected st) / 2 ^ 16.

Definition set_region (i : Z) (r : region_regs) (f : Z -> region_regs)
  : Z -> region_regs :=
  fun j => if j =? i then r else f j.

Definition log (e : event) (st : mpu_state) : mpu_state :=
  {| MPU_TYPE := MPU_TYPE st; MPU_CTRL := MPU_CTRL st;
     MPU_NUMBER := MPU_NUMBER st; regions := regions st;
     trace := trace st ++ [e] |}.

Definition set_selected (r : region_regs) (st : mpu_state) : mpu_state :=
  {| MPU_TYPE := MPU_TYPE st; MPU_CTRL := MPU_CTRL st;
     MPU_NUMBER := MPU_NUMBER st;
     regions := set_region (MPU_NUMBER st) r (regions st);
     trace := trace st |}.

(** ** A state monad for the register accesses *)

Definition M (A : Type) : Type := mpu_state -> A * mpu_state.

Definition ret {A : Type} (a : A) : M A := fun st => (a, st).

Definition bind {A B : Type} (m : M A) (k : A -> M B) : M B :=
  fun st => let (a, st') := m st in k a st'.

Declare Scope mpu_scope.
Delimit Scope mpu_scope with mpu.
Notation "x <- m ;; k" := (bind m (fun x => k))
  (at level 61, m at next level, right associativity) : mpu_scope.
Notation "m ;; k" := (bind m (fun _ => k))
  (at level 61, right associativity) : mpu_scope.
Local Open Scope mpu_scope.

Definition rd {A : Type} (f : mpu_state -> A) : M A := fun st => (f st, st).

(** [asm volatile("isb; dsb;")] *)
Definition isb_dsb : M unit := fun st => (tt, log Ev_isb_dsb st).

Definition store_MPU_CTRL (v : Z) : M unit := fun st =>
  (tt, log (Ev_store 32 ADDR_MPU_CTRL v)
         {| MPU_TYPE := MPU_TYPE st; MPU_CTRL := v;
            MPU_NUMBER := MPU_NUMBER st; regions := regions st;
            trace := trace st |}).

Definition store_MPU_NUMBER (v : Z) : M unit := fun st =>
  (tt, log (Ev_store 32 ADDR_MPU_NUMBER v)
         {| MPU_TYPE := MPU_TYPE st; MPU_CTRL := MPU_CTRL st;
            MPU_NUMBER := v; regions := regions st;
            trace := trace st |}).

(** The store to MPU_BASE is only reached with an address that is a
    multiple of 32 (see [update_region_base_low_bits]): the low five bits,
    which the hardware reads as a valid flag and a region number, are
    zero, and the store goes to the selected region. *)
Definition store_MPU_BASE (v : Z) : M unit := fun st =>
  (tt, log (Ev_store 32 ADDR_MPU_BASE v)
         (set_selected {| RBAR := v; RASR := RASR (selected st) |} st)).

(** A half word store to MPU_SIZE keeps the attribute half word. *)
Definition store_MPU_SIZE (v : Z) : M unit := fun st =>
  (tt, log (Ev_store 16 ADDR_MPU_SIZE v)
         (set_selected {| RBAR := RBAR (selected st);
                          RASR := MPU_ATTR st * 2 ^ 16 + v |} st)).

(** [REG32(&MPU_SIZE) = v]: size and attributes in one word store. *)
Definition store32_MPU_SIZE (v : Z) : M unit := fun st =>
  (tt, log (Ev_store 32 ADDR_MPU_SIZE v)
         (set_selected {| RBAR := RBAR (selected st); RASR := v |} st)).

Definition cpu_enable_caches : M unit := fun st =>
  (tt, log Ev_cpu_enable_caches st).

(** ** The functions of mpu.c *)

Section Mpu.

Variable p : platform.

Definition mpu_get_type : M Z := rd MPU_TYPE.

(** Number of regions supported by the MPU; 0 means there is none. *)
Definition mpu_num_regions : M Z :=
  t <- mpu_get_type ;; ret (MPU_TYPE_REG_COUNT p t).

Definition has_mpu : M bool :=
  n <- mpu_num_regions ;; ret (negb (n =? 0)).

Definition mpu_is_unified : M bool :=
  t <- mpu_get_type ;;
  ret (Z.land t (MPU_TYPE_UNIFIED_MASK p) =? 0).

(** The word that [mpu_update_region] stores for an enabled region:
    [((uint32_t)attr << 16) | (srd << 8) | ((size_bit - 1) << 1) | 1]. *)
Definition rasr_word (attr srd size_bit : Z) : Z :=
  u32 (Z.lor (Z.lor (Z.lor (u32 (Z.shiftl attr 16)) (Z.shiftl srd 8))
                    (Z.shiftl (size_bit - 1) 1)) 1).

(** Update a memory region.  The three validations come first; the
    barrier, select, disable, write, barrier sequence follows. *)
Definition mpu_update_region
    (region addr size_bit attr enable srd : Z) : M status :=
  if negb (is_aligned addr (BIT size_bit)) then ret neg_EC_ERROR_INVAL
  else
    num <- mpu_num_regions ;;
    if region >=? num then ret neg_EC_ERROR_INVAL
    else if size_bit <? MPU_SIZE_BITS_MIN then ret neg_EC_ERROR_INVAL
    else
      isb_dsb ;;
      store_MPU_NUMBER region ;;
      sz <- rd MPU_SIZE ;;
      store_MPU_SIZE (u16 (Z.land sz (Z.lnot 1))) ;;     (* Disable *)
      (if negb (enable =? 0) then
         store_MPU_BASE addr ;;
         store32_MPU_SIZE (rasr_word attr srd size_bit)
       else ret tt) ;;
      isb_dsb ;;
      ret EC_SUCCESS.

(** The locals of [mpu_config_region], each as the code computes it. *)

(** [size_bit = 31 - __builtin_clz(size)]: bit position of the first
    '1' in [size]. *)
Definition config_size_bit (size : Z) : Z := 31 - __builtin_clz size.

(** [blocks = size >> (size_bit - 2)]: the fully occupied eighths of
    the first region. *)
Definition config_blocks (size : Z) : Z :=
  u8 (Z.shiftr size (config_size_bit size - 2)).

(** [srd1 = BIT(blocks) - 1] *)
Definition config_srd1 (size : Z) : Z := u8 (BIT (config_blocks size) - 1).

(** [srd2 = (1 << ((size >> (size_bit - 5)) & 0x7)) - 1] *)
Definition config_srd2 (size : Z) : Z :=
  u8 (Z.shiftl 1 (Z.land (Z.shiftr size (config_size_bit size - 5)) 7) - 1).

(** Configure a region of [size] bytes at [addr], with one hardware
    region or with two. *)
Definition mpu_config_region (region addr size attr enable : Z)
  : M status :=
  if size =? 0 then ret EC_SUCCESS
  else
    let size_bit := config_size_bit size in
    (* Min. region size is 32 bytes *)
    if size_bit <? 5 then ret neg_EC_ERROR_INVAL
    (* If size is a power of 2 then represent it with a single region *)
    else if POWER_OF_TWO size then
      mpu_update_region region addr (u8 size_bit) attr enable 0
    (* Sub-regions are not supported for region <= 128 bytes *)
    else if size_bit <? 7 then ret neg_EC_ERROR_INVAL
    (* Verify we can represent range with <= 2 regions *)
    else if negb (Z.land size (u32 (Z.lnot (Z.shiftl 63 (size_bit - 5))))
                  =? 0)
    then ret neg_EC_ERROR_INVAL
    else
      let blocks := config_blocks size in
      let srd1 := config_srd1 size in
      let srd2 := config_srd2 size in
      (* Second region not supported for DATA_RAM_TEXT, also verify size
         of second region is sufficient to support sub-regions. *)
      if negb (srd2 =? 0) &&
         ((region =? REGION_DATA_RAM_TEXT p) || (size_bit <? 10))
      then ret neg_EC_ERROR_INVAL
      else
        (* Write first region. *)
        rv <- mpu_update_region region addr (u8 (size_bit + 1)) attr
                enable (u8 (Z.lnot srd1)) ;;
        if negb (is_success rv) then ret rv
        else
          (* The second region begins at the first block marked
             unoccupied in the first region. *)
          let addr :=
            u32 (addr + u32 (Z.shiftl 1 (size_bit - 2) * blocks)) in
          if negb (srd2 =? 0) then
            mpu_update_region (u8 (region + 1)) addr (u8 (size_bit - 2))
              attr enable (u8 (Z.lnot srd2))
          else ret rv.

Definition mpu_enable : M unit :=
  c <- rd MPU_CTRL ;;
  store_MPU_CTRL
    (Z.lor c (Z.lor (Z.lor (MPU_CTRL_PRIVDEFEN p) (MPU_CTRL_HFNMIENA p))
                    (MPU_CTRL_ENABLE p))).

Definition mpu_disable : M unit :=
  c <- rd MPU_CTRL ;;
  store_MPU_CTRL
    (Z.land c
       (u32 (Z.lnot (Z.lor (Z.lor (MPU_CTRL_PRIVDEFEN p)
                                  (MPU_CTRL_HFNMIENA p))
                           (MPU_CTRL_ENABLE p))))).

(** The rollback range and its attributes, as [mpu_lock_rollback]
    computes them. *)
Definition rollback_region_start_address : Z :=
  u32 (CONFIG_MAPPED_STORAGE_BASE p + CONFIG_ROLLBACK_OFF p).

Definition rollback_region_total_size : Z := u32 (CONFIG_ROLLBACK_SIZE p).

Definition rollback_mpu_attr : Z :=
  u16 (Z.lor (MPU_ATTR_XN p) (MPU_ATTR_NO_NO p)).

Definition mpu_lock_rollback (lock : Z) : M status :=
  num_mpu_regions <- mpu_num_regions ;;
  let rollback_mpu_region := u8 (REGION_ROLLBACK p) in
  if rollback_mpu_region <? num_mpu_regions then
    mpu_config_region rollback_mpu_region
      rollback_region_start_address rollback_region_total_size
      rollback_mpu_attr (u8 lock)
  else
    let rollback_mpu_region := u8 (REGION_CHIP_RESERVED p) in
    rv <- mpu_config_region rollback_mpu_region
            rollback_region_start_address
            (rollback_region_total_size / 2) rollback_mpu_attr (u8 lock) ;;
    if negb (is_success rv) then ret rv
    else
      let rollback_mpu_region := u8 (REGION_STORAGE2 p) in
      mpu_config_region rollback_mpu_region
        (u32 (rollback_region_start_address
              + rollback_region_total_size / 2))
        (rollback_region_total_size / 2) rollback_mpu_attr (u8 lock).

(** The loop of [mpu_pre_init] that disables every region: [n] rounds
    are left, [i] is the loop counter. *)
Fixpoint disable_all_regions (n : nat) (i : Z) : M status :=
  match n with
  | O => ret EC_SUCCESS
  | S n' =>
      rv <- mpu_update_region (u8 i) (CORTEX_M_SRAM_BASE p)
              MPU_SIZE_BITS_MIN 0 0 0 ;;
      if negb (is_success rv) then ret rv
      else disable_all_regions n' (i + 1)
  end.

Definition mpu_pre_init : M status :=
  mpu <- has_mpu ;;
  if negb mpu then ret EC_ERROR_HW_INTERNAL
  else
    num_mpu_regions <- mpu_num_regions ;;
    (* Supports MPU with 8 or 16 unified regions *)
    unified <- mpu_is_unified ;;
    if negb unified ||
       (negb (num_mpu_regions =? 8) && negb (num_mpu_regions =? 16))
    then ret EC_ERROR_UNIMPLEMENTED
    else
      mpu_disable ;;
      rv <- disable_all_regions (Z.to_nat num_mpu_regions) 0 ;;
      if negb (is_success rv) then ret rv
      else
        rv <- (if CONFIG_ROLLBACK_MPU_PROTECT p then mpu_lock_rollback 1
               else ret rv) ;;
        if negb (is_success rv) then ret rv
        else
          rv <- (if CONFIG_ARMV7M_CACHE p then
                   match CONFIG_CHIP_UNCACHED_REGION p with
                   | Some (region_start, region_size) =>
                       mpu_config_region (u8 (REGION_UNCACHED_RAM p))
                         (u32 region_start) (u32 region_size)
                         (u16 (Z.lor (MPU_ATTR_XN p) (MPU_ATTR_RW_RW p))) 1
                   | None => ret rv
                   end
                 else ret rv) ;;
          if negb (is_success rv) then ret rv
          else
            mpu_enable ;;
            (if CONFIG_ARMV7M_CACHE p then cpu_enable_caches
             else ret tt) ;;
            ret EC_SUCCESS.

End Mpu.

(** A sample platform to run the model on: the field layout of the
    ARMv7-M type and control registers, slot numbers for the named
    regions with the rollback slot beyond the first eight, and a rollback
    range of two 128 KiB flash sectors. *)
Definition sample_platform : platform :=
  {| MPU_TYPE_REG_COUNT := fun t => Z.land (Z.shiftr t 8) 255;
     MPU_TYPE_UNIFIED_MASK := 0x00FF0001;
     MPU_CTRL_PRIVDEFEN := 4;
     MPU_CTRL_HFNMIENA := 2;
     MPU_CTRL_ENABLE := 1;
     MPU_ATTR_XN := 0x1000;
     MPU_ATTR_NO_NO := 0;
     MPU_ATTR_RW_RW := 0x300;
     CORTEX_M_SRAM_BASE := 0x20000000;
     REGION_STORAGE2 := 5;
     REGION_DATA_RAM_TEXT := 6;
     REGION_CHIP_RESERVED := 7;
     REGION_UNCACHED_RAM := 8;
     REGION_ROLLBACK := 10;
     CONFIG_MAPPED_STORAGE_BASE := 0x08000000;
     CONFIG_ROLLBACK_OFF := 0x20000;
     CONFIG_ROLLBACK_SIZE := 0x40000;
     CONFIG_ROLLBACK_MPU_PROTECT := true;
     CONFIG_ARMV7M_CACHE := false;
     CONFIG_CHIP_UNCACHED_REGION := None |}.

(** The unit after reset: [n] regions, everything else zero. *)
Definition reset_state (n : Z) : mpu_state :=
  {| MPU_TYPE := n * 2 ^ 8; MPU_CTRL := 0; MPU_NUMBER := 0;
     regions := fun _ => {| RBAR := 0; RASR := 0 |};
     trace := [] |}.

(** ** What the programmed registers mean *)

(** The encoding that a region slot holds: the arguments of
    [mpu_update_region], read back from the registers.  The size field
    of the size register holds [size_bit - 1]. *)
Record RegionEncoding : Set := {
  slot_index : Z;
  base_address : Z;
  size_exponent : Z;
  subregion_disable_mask : Z;
  attributes : Z;
  enabled : bool
}.

Definition slot_encoding (st : mpu_state) (i : Z) : RegionEncoding :=
  let r := regions st i in
  {| slot_index := i;
     base_address := RBAR r;
     size_exponent := Z.land (Z.shiftr (RASR r) 1) 31 + 1;
     subregion_disable_mask := Z.land (Z.shiftr (RASR r) 8) 255;
     attributes := Z.shiftr (RASR r) 16;
     enabled := Z.testbit (RASR r) 0 |}.

(** The byte at address [a] is under the protection of the encoding: the
    region is enabled, [a] lies in its [2^size_exponent] bytes, and the
    eighth of the region that holds [a] is not disabled (srd bit 0). *)
Definition protects (e : RegionEncoding) (a : Z) : bool :=
  enabled e
  && (base_address e <=? a)
  && (a <? base_address e + 2 ^ size_exponent e)
  && negb (Z.testbit (subregion_disable_mask e)
             ((a - base_address e) / 2 ^ (size_exponent e - 3))).

(** The events that were added between two states. *)
Definition new_events (st st' : mpu_state) : list event :=
  skipn (length (trace st)) (trace st').

(** The region slots that a run of events selected for writing. *)
Fixpoint selected_slots (evs : list event) : list Z :=
  match evs with
  | [] => []
  | Ev_store _ ADDR_MPU_NUMBER v :: evs' => v :: selected_slots evs'
  | _ :: evs' => selected_slots evs'
  end.

(** ** The counts of eighths of an accepted rounded length *)

(** The eighths of the first region that the length occupies in full, and
    the eighths of the second region that the rest occupies; an eighth of
    the second region is [2^(size_bit - 5)] bytes. *)
Definition eighths1 (size : Z) : Z :=
  size / (8 * 2 ^ (config_size_bit size - 5)).

Definition eighths2 (size : Z) : Z :=
  (size / 2 ^ (config_size_bit size - 5)) mod 8.

(** ** The remaining functions of mpu.c *)

(** Modelled from the spec: the macro [__fls] is not among the sources.
    "index of the most-significant set bit", the counterpart of
    [31 - __builtin_clz]; undefined for 0. *)
Definition __fls (v : Z) : Z := 31 - __builtin_clz v.

(** Modelled from the spec: the macro [MIN] of common.h is not among the
    sources; the smaller of its two operands. *)
Definition MIN (a b : Z) : Z := if a <? b then a else b.

(** The constants of mpu.h, of the board configuration and of the linker
    script that the memory map functions use; like those of [platform]
    they are parameters.  [iram_text_start] is the value of
    [(uint32_t)&__iram_text_start], [iram_text_size] the value of
    [(uint32_t)(&__iram_text_end - &__iram_text_start)]. *)
Record memory_map : Type := {
  REGION_DATA_RAM : Z;
  REGION_STORAGE : Z;
  MPU_ATTR_RO_NO : Z;
  MPU_ATTR_INTERNAL_SRAM : Z;
  MPU_ATTR_FLASH_MEMORY : Z;
  CONFIG_RAM_BASE : Z;
  CONFIG_DATA_RAM_SIZE : Z;
  iram_text_start : Z;
  iram_text_size : Z;
  CONFIG_PROGRAM_MEMORY_BASE : Z;
  CONFIG_RO_MEM_OFF : Z;
  CONFIG_CODE_RAM_SIZE : Z;
  CONFIG_RO_SIZE : Z;
  CONFIG_RW_MEM_OFF : Z;
  CONFIG_RW_SIZE : Z
}.

Section MemoryMap.

Variable p : platform.
Variable m : memory_map.

(** Set a region executable and read-write. *)
Definition mpu_unlock_region (region addr size texscb : Z) : M status :=
  mpu_config_region p region addr size
    (u16 (Z.lor (MPU_ATTR_RW_RW p) texscb)) 1.

Definition mpu_protect_data_ram : M status :=
  (* Prevent code execution from data RAM *)
  rv <- mpu_config_region p (u8 (REGION_DATA_RAM m))
          (u32 (CONFIG_RAM_BASE m)) (u32 (CONFIG_DATA_RAM_SIZE m))
          (u16 (Z.lor (Z.lor (MPU_ATTR_XN p) (MPU_ATTR_RW_RW p))
                      (MPU_ATTR_INTERNAL_SRAM m))) 1 ;;
  if negb (is_success rv) then ret rv
  else
    (* Exempt the __iram_text section *)
    mpu_unlock_region (u8 (REGION_DATA_RAM_TEXT p))
      (u32 (iram_text_start m)) (u32 (iram_text_size m))
      (u8 (MPU_ATTR_INTERNAL_SRAM m)).

(** Prevent write access to code RAM. *)
Definition mpu_protect_code_ram : M status :=
  mpu_config_region p (u8 (REGION_STORAGE m))
    (u32 (CONFIG_PROGRAM_MEMORY_BASE m + CONFIG_RO_MEM_OFF m))
    (u32 (CONFIG_CODE_RAM_SIZE m))
    (u16 (Z.lor (MPU_ATTR_RO_NO m) (MPU_ATTR_INTERNAL_SRAM m))) 1.

(** Prevent execution from internal mapped RO flash. *)
Definition mpu_lock_ro_flash : M status :=
  mpu_config_region p (u8 (REGION_STORAGE m))
    (u32 (CONFIG_MAPPED_STORAGE_BASE p + CONFIG_RO_MEM_OFF m))
    (u32 (CONFIG_RO_SIZE m))
    (u16 (Z.lor (Z.lor (MPU_ATTR_XN p) (MPU_ATTR_RW_RW p))
                (MPU_ATTR_FLASH_MEMORY m))) 1.

(** The locals of [mpu_lock_rw_flash]. *)
Definition rw_flash_attr : Z :=
  u16 (Z.lor (Z.lor (MPU_ATTR_XN p) (MPU_ATTR_RW_RW p))
             (MPU_ATTR_FLASH_MEMORY m)).

Definition rw_start_address : Z :=
  u32 (CONFIG_MAPPED_STORAGE_BASE p + CONFIG_RW_MEM_OFF m).

(** Least significant set bit of the address determines the max size of
    the region. *)
Definition aligned_size_bit : Z :=
  __fls (Z.land rw_start_address (u32 (- rw_start_address))).

Definition first_region_size : Z :=
  MIN (BIT aligned_size_bit) (u32 (CONFIG_RW_SIZE m)).

Definition second_region_address : Z :=
  u32 (rw_start_address + first_region_size).

Definition second_region_size : Z :=
  u32 (u32 (CONFIG_RW_SIZE m) - first_region_size).

(** Prevent execution from internal mapped RW flash. *)
Definition mpu_lock_rw_flash : M status :=
  rv <- mpu_config_region p (u8 (REGION_STORAGE m)) rw_start_address
          first_region_size rw_flash_attr 1 ;;
  if negb (is_success rv) || (second_region_size =? 0) then ret rv
  else
    (* If this fails then it's impossible to represent with two regions. *)
    mpu_config_region p (u8 (REGION_STORAGE2 p)) second_region_address
      second_region_size rw_flash_attr 1.

End MemoryMap.

(** A sample memory map: 256 KiB of data RAM, and 384 KiB of RW flash that
    start on a 128 KiB boundary. *)
Definition sample_memory_map : memory_map :=
  {| REGION_DATA_RAM := 0;
     REGION_STORAGE := 4;
     MPU_ATTR_RO_NO := 0x600;
     MPU_ATTR_INTERNAL_SRAM := 6;
     MPU_ATTR_FLASH_MEMORY := 2;
     CONFIG_RAM_BASE := 0x20000000;
     CONFIG_DATA_RAM_SIZE := 0x40000;
     iram_text_start := 0x20000400;
     iram_text_size := 0x300;
     CONFIG_PROGRAM_MEMORY_BASE := 0x10000000;
     CONFIG_RO_MEM_OFF := 0;
     CONFIG_CODE_RAM_SIZE := 0x20000;
     CONFIG_RO_SIZE := 0x20000;
     CONFIG_RW_MEM_OFF := 0x60000;
     CONFIG_RW_SIZE := 0x60000 |}.

(** ** Vocabulary for the further properties *)

(** Two states hold the same registers; their traces may differ. *)
Definition same_registers (s1 s2 : mpu_state) : Prop :=
  MPU_TYPE s1 = MPU_TYPE s2 /\ MPU_CTRL s1 = MPU_CTRL s2
  /\ MPU_NUMBER s1 = MPU_NUMBER s2
  /\ forall i, regions s1 i = regions s2 i.

(** Two states agree on the type and control registers and on every region
    slot outside [S]. *)
Definition agree_except (S : list Z) (s1 s2 : mpu_state) : Prop :=
  MPU_TYPE s1 = MPU_TYPE s2 /\ MPU_CTRL s1 = MPU_CTRL s2
  /\ forall i, ~ In i S -> regions s1 i = regions s2 i.

(** The slots that [mpu_config_region] writes for an accepted length. *)
Definition config_slots (region size : Z) : list Z :=
  if POWER_OF_TWO size || (config_srd2 size =? 0) then [region]
  else [region; u8 (region + 1)].

(** The encodings that [mpu_config_region] hands to the programmer for an
    accepted length, as values: the arguments of its calls of
    [mpu_update_region], in order. *)
Definition encode (region addr size attr : Z) : list RegionEncoding :=
  let size_bit := config_size_bit size in
  if POWER_OF_TWO size then
    [{| slot_index := region; base_address := addr;
        size_exponent := u8 size_bit; subregion_disable_mask := 0;
        attributes := attr; enabled := true |}]
  else
    {| slot_index := region; base_address := addr;
       size_exponent := u8 (size_bit + 1);
       subregion_disable_mask := u8 (Z.lnot (config_srd1 size));
       attributes := attr; enabled := true |}
    :: (if config_srd2 size =? 0 then []
        else
          [{| slot_index := u8 (region + 1);
              base_address :=
                u32 (addr + u32 (Z.shiftl 1 (size_bit - 2)
                                 * config_blocks size));
              size_exponent := u8 (size_bit - 2);
              subregion_disable_mask := u8 (Z.lnot (config_srd2 size));
              attributes := attr; enabled := true |}]).

(** The stores to the control register in a run of events. *)
Fixpoint ctrl_stores (evs : list event) : list Z :=
  match evs with
  | [] => []
  | Ev_store _ ADDR_MPU_CTRL v :: evs' => v :: ctrl_stores evs'
  | _ :: evs' => ctrl_stores evs'
  end.

(** The barrier discipline, as a scan of the events: a barrier opens or
    closes a bracket; a store to a region register (number, base, size)
    is allowed inside a bracket only, a store to the control register and
    the enabling of the caches outside only.  The result is the side on
    which the scan ends, or [None] when the discipline is broken. *)
Fixpoint bracketed (inside : bool) (evs : list event) : option bool :=
  match evs with
  | [] => Some inside
  | Ev_isb_dsb :: evs' => bracketed (negb inside) evs'
  | Ev_store _ ADDR_MPU_CTRL _ :: evs' =>
      if inside then None else bracketed inside evs'
  | Ev_store _ _ _ :: evs' =>
      if inside then bracketed inside evs' else None
  | Ev_cpu_enable_caches :: evs' =>
      if inside then None else bracketed inside evs'
  end.

(** A computation that programs regions only: it leaves the type and
    control registers alone, and what it adds to the trace keeps the
    barrier discipline and has no store to the control register. *)
Definition region_op {A : Type} (c : M A) : Prop :=
  forall st,
    MPU_TYPE (snd (c st)) = MPU_TYPE st
    /\ MPU_CTRL (snd (c st)) = MPU_CTRL st
    /\ exists evs, trace (snd (c st)) = trace st ++ evs
                   /\ bracketed false evs = Some false
                   /\ ctrl_stores evs = [].

(** The slots that an accepted request writes: none for a length of
    zero, which is accepted without a store. *)
Definition request_slots (region size : Z) : list Z :=
  if size =? 0 then [] else config_slots region size.

(** The slots that [mpu_lock_rollback] writes when it succeeds: those of
    the single request, or those of the two halves. *)
Definition rollback_slots (p : platform) (st : mpu_state) : list Z :=
  if u8 (REGION_ROLLBACK p) <? MPU_TYPE_REG_COUNT p (MPU_TYPE st) then
    request_slots (u8 (REGION_ROLLBACK p)) (rollback_region_total_size p)
  else
    request_slots (u8 (REGION_CHIP_RESERVED p))
      (rollback_region_total_size p / 2)
    ++ request_slots (u8 (REGION_STORAGE2 p))
         (rollback_region_total_size p / 2).

(** The slots that [mpu_pre_init] programs after it has disabled them
    all: those of the rollback lock and those of the uncached region,
    each where the configuration has it. *)
Definition pre_init_slots (p : platform) (st : mpu_state) : list Z :=
  (if CONFIG_ROLLBACK_MPU_PROTECT p then rollback_slots p st else [])
  ++ (if CONFIG_ARMV7M_CACHE p then
        match CONFIG_CHIP_UNCACHED_REGION p with
        | Some (_, region_size) =>
            request_slots (u8 (REGION_UNCACHED_RAM p)) (u32 region_size)
        | None => []
        end
      else []).

(** The part of [mpu_pre_init] between [mpu_disable] and [mpu_enable],
    for a region count [n]: the loop, the rollback lock and the uncached
    region. *)
Definition pre_init_regions (p : platform) (n : Z) : M status :=
  rv <- disable_all_regions p (Z.to_nat n) 0 ;;
  if negb (is_success rv) then ret rv
  else
    rv <- (if CONFIG_ROLLBACK_MPU_PROTECT p then mpu_lock_rollback p 1
           else ret rv) ;;
    if negb (is_success rv) then ret rv
    else
      if CONFIG_ARMV7M_CACHE p then
        match CONFIG_CHIP_UNCACHED_REGION p with
        | Some (region_start, region_size) =>
            mpu_config_region p (u8 (REGION_UNCACHED_RAM p))
              (u32 region_start) (u32 region_size)
              (u16 (Z.lor (MPU_ATTR_XN p) (MPU_ATTR_RW_RW p))) 1
        | None => ret rv
        end
      else ret rv.

(** A computation that answers with success or with [-EC_ERROR_INVAL]. *)
Definition two_valued (c : M status) : Prop :=
  forall st,
    fst (c st) = EC_SUCCESS \/ fst (c st) = neg_EC_ERROR_INVAL.

(** A computation that keeps within the region count: it leaves the type
    register alone, and every slot at or above the region count. *)
Definition within_count (p : platform) {A : Type} (c : M A) : Prop :=
  forall st,
    MPU_TYPE (snd (c st)) = MPU_TYPE st
    /\ forall i, MPU_TYPE_REG_COUNT p (MPU_TYPE st) <= i ->
                 regions (snd (c st)) i = regions st i.

(** The slots that [mpu_lock_rw_flash] writes when it succeeds. *)
Definition rw_flash_slots (p : platform) (m : memory_map) : list Z :=
  config_slots (u8 (REGION_STORAGE m)) (first_region_size p m)
  ++ request_slots (u8 (REGION_STORAGE2 p)) (second_region_size p m).

(** The three bits of the control register that [mpu_enable] sets and
    [mpu_disable] clears. *)
Definition ctrl_bits (p : platform) : Z :=
  Z.lor (Z.lor (MPU_CTRL_PRIVDEFEN p) (MPU_CTRL_HFNMIENA p))
        (MPU_CTRL_ENABLE p).

(** A platform with caches: the rollback range starts on a multiple of
    its length, so that one region protects it where the unit has 16, and
    32 KiB of RAM are kept uncached. *)
Definition cached_platform : platform :=
  {| MPU_TYPE_REG_COUNT := MPU_TYPE_REG_COUNT sample_platform;
     MPU_TYPE_UNIFIED_MASK := MPU_TYPE_UNIFIED_MASK sample_platform;
     MPU_CTRL_PRIVDEFEN := MPU_CTRL_PRIVDEFEN sample_platform;
     MPU_CTRL_HFNMIENA := MPU_CTRL_HFNMIENA sample_platform;
     MPU_CTRL_ENABLE := MPU_CTRL_ENABLE sample_platform;
     MPU_ATTR_XN := MPU_ATTR_XN sample_platform;
     MPU_ATTR_NO_NO := MPU_ATTR_NO_NO sample_platform;
     MPU_ATTR_RW_RW := MPU_ATTR_RW_RW sample_platform;
     CORTEX_M_SRAM_BASE := CORTEX_M_SRAM_BASE sample_platform;
     REGION_STORAGE2 := REGION_STORAGE2 sample_platform;
     REGION_DATA_RAM_TEXT := REGION_DATA_RAM_TEXT sample_platform;
     REGION_CHIP_RESERVED := REGION_CHIP_RESERVED sample_platform;
     REGION_UNCACHED_RAM := REGION_UNCACHED_RAM sample_platform;
     REGION_ROLLBACK := REGION_ROLLBACK sample_platform;
     CONFIG_MAPPED_STORAGE_BASE := CONFIG_MAPPED_STORAGE_BASE sample_platform;
     CONFIG_ROLLBACK_OFF := 0x40000;
     CONFIG_ROLLBACK_SIZE := 0x40000;
     CONFIG_ROLLBACK_MPU_PROTECT := true;
     CONFIG_ARMV7M_CACHE := true;
     CONFIG_CHIP_UNCACHED_REGION := Some (0x24030000, 0x8000) |}.

(** * Properties *)

(** ** The model at work *)

(** 192 bytes at 0x100: one region of 256 bytes whose last two eighths
    are disabled; the stores come between two barriers. *)
Example config_region_192_bytes :
  let r := mpu_config_region sample_platform 0 0x100 192 0x1300 1
             (reset_state 8) in
  fst r = EC_SUCCESS
  /\ new_events (reset_state 8) (snd r)
     = [Ev_isb_dsb; Ev_store 32 ADDR_MPU_NUMBER 0;
        Ev_store 16 ADDR_MPU_SIZE 0; Ev_store 32 ADDR_MPU_BASE 0x100;
        Ev_store 32 ADDR_MPU_SIZE 0x1300C00F; Ev_isb_dsb]
  /\ slot_encoding (snd r) 0
     = {| slot_index := 0; base_address := 0x100; size_exponent := 8;
          subregion_disable_mask := 0xC0; attributes := 0x1300;
          enabled := true |}.
Proof. repeat split. Qed.

(** The rollback lock on eight regions: the two halves of the range go to
    the slots 7 and 5. *)
Example lock_rollback_eight_regions :
  let r := mpu_lock_rollback sample_platform 1 (reset_state 8) in
  fst r = EC_SUCCESS
  /\ selected_slots (new_events (reset_state 8) (snd r)) = [7; 5]
  /\ base_address (slot_encoding (snd r) 7) = 0x08020000
  /\ base_address (slot_encoding (snd r) 5) = 0x08040000
  /\ size_exponent (slot_encoding (snd r) 7) = 17
  /\ size_exponent (slot_encoding (snd r) 5) = 17.
Proof. repeat split. Qed.

(** ** Arithmetic of the helpers *)

Lemma pow2_pos (n : Z) : 0 <= n -> 0 < 2 ^ n.
Proof. intros; apply Z.pow_pos_nonneg; lia. Qed.

Lemma u8_small (x : Z) : 0 <= x < 2 ^ 8 -> u8 x = x.
Proof. intros; unfold u8; apply Z.mod_small; assumption. Qed.

Lemma u16_small (x : Z) : 0 <= x < 2 ^ 16 -> u16 x = x.
Proof. intros; unfold u16; apply Z.mod_small; assumption. Qed.

Lemma u32_small (x : Z) : 0 <= x < 2 ^ 32 -> u32 x = x.
Proof. intros; unfold u32; apply Z.mod_small; assumption. Qed.

Lemma BIT_small (n : Z) : 0 <= n < 32 -> BIT n = 2 ^ n.
Proof.
  intros Hn. unfold BIT.
  rewrite Z.shiftl_mul_pow2, Z.mul_1_l by lia.
  apply u32_small. split; [pose proof (pow2_pos n); lia|].
  apply Z.pow_lt_mono_r; lia.
Qed.

Lemma BIT_32 : BIT 32 = 0.
Proof. reflexivity. Qed.

Lemma POWER_OF_TWO_pow2 (n : Z) : 0 <= n -> POWER_OF_TWO (2 ^ n) = true.
Proof.
  intros Hn. unfold POWER_OF_TWO.
  rewrite Z.log2_pow2 by assumption.
  pose proof (pow2_pos n Hn).
  apply andb_true_intro; split; [apply Z.ltb_lt; lia | apply Z.eqb_refl].
Qed.

Lemma POWER_OF_TWO_true (x : Z) :
  POWER_OF_TWO x = true -> 0 < x /\ x = 2 ^ Z.log2 x.
Proof.
  unfold POWER_OF_TWO. intros H.
  apply andb_prop in H. destruct H as [H1 H2].
  apply Z.ltb_lt in H1. apply Z.eqb_eq in H2. auto.
Qed.

Lemma is_aligned_pow2 (a n : Z) :
  0 <= n -> is_aligned a (2 ^ n) = (a mod 2 ^ n =? 0).
Proof.
  intros Hn. unfold is_aligned. now rewrite POWER_OF_TWO_pow2.
Qed.

Lemma config_size_bit_log2 (size : Z) : config_size_bit size = Z.log2 size.
Proof. unfold config_size_bit, __builtin_clz. lia. Qed.

Lemma log2_u32_bound (size : Z) :
  0 < size < 2 ^ 32 -> 0 <= Z.log2 size <= 31.
Proof.
  intros [Hp Hlt]. split; [apply Z.log2_nonneg|].
  apply (Z.log2_lt_pow2 size 32) in Hlt; lia.
Qed.

(** ** The region programmer *)

Section Programmer.

Variable p : platform.


Lemma update_region_cases region addr size_bit attr enable srd st :
  let r := mpu_update_region p region addr size_bit attr enable srd st in
  (r = (neg_EC_ERROR_INVAL, st)
   /\ (is_aligned addr (BIT size_bit) = false
       \/ MPU_TYPE_REG_COUNT p (MPU_TYPE st) <= region
       \/ size_bit < MPU_SIZE_BITS_MIN))
  \/ (fst r = EC_SUCCESS
      /\ is_aligned addr (BIT size_bit) = true
      /\ region < MPU_TYPE_REG_COUNT p (MPU_TYPE st)
      /\ MPU_SIZE_BITS_MIN <= size_bit).
Proof.
  unfold mpu_update_region.
  destruct (is_aligned addr (BIT size_bit)) eqn:Ha; cbn [negb];
    [|left; split; [reflexivity | auto]].
  cbv [bind ret mpu_num_regions mpu_get_type rd].
  destruct (region >=? _) eqn:Hr;
    [left; split; [reflexivity | right; left; lia]|].
  destruct (size_bit <? MPU_SIZE_BITS_MIN) eqn:Hs;
    [left; split; [reflexivity | right; right; lia]|].
  right. cbn. repeat split; try lia.
  destruct (enable =? 0); reflexivity.
Qed.

(** An accepted base address has its low five bits clear. *)
Lemma update_region_base_low_bits region addr size_bit attr enable srd st :
  fst (mpu_update_region p region addr size_bit attr enable srd st)
    = EC_SUCCESS ->
  addr mod 2 ^ 5 = 0.
Proof.
  intros Hok.
  destruct (update_region_cases region addr size_bit attr enable srd st)
    as [[Hbad _] | (_ & Hal & _ & Hmin)];
    [cbv zeta in Hbad; rewrite Hbad in Hok; discriminate|].
  unfold MPU_SIZE_BITS_MIN in Hmin.
  destruct (Z.lt_ge_cases size_bit 32) as [Hlt | Hge].
  - rewrite BIT_small, is_aligned_pow2 in Hal by lia.
    apply Z.eqb_eq in Hal.
    replace size_bit with (5 + (size_bit - 5)) in Hal by lia.
    rewrite Z.pow_add_r in Hal by lia.
    pose proof (pow2_pos (size_bit - 5) ltac:(lia)) as Hp.
    rewrite Z.rem_mul_r in Hal by (change (2 ^ 5) with 32; lia).
    change (2 ^ 5) with 32 in *.
    pose proof (Z.mod_pos_bound addr 32 ltac:(lia)).
    pose proof (Z.mod_pos_bound (addr / 32) (2 ^ (size_bit - 5)) Hp).
    nia.
  - exfalso. unfold is_aligned, BIT in Hal.
    rewrite Z.shiftl_mul_pow2, Z.mul_1_l in Hal by lia.
    replace size_bit with (32 + (size_bit - 32)) in Hal by lia.
    rewrite Z.pow_add_r in Hal by lia.
    unfold u32 in Hal. rewrite Z.mul_comm, Z.mod_mul in Hal by lia.
    discriminate.
Qed.

End Programmer.

(** C10.  Whenever [mpu_update_region] answers with an error, the machine
    is exactly as before: no register was written and no store or barrier
    was issued; the error is one of the three validations (misaligned
    base, region index at or above the region count, size exponent below
    the minimum), all of which precede the write sequence. *)
Theorem update_region_error_leaves_state
    (p : platform) (region addr size_bit attr enable srd : Z)
    (st : mpu_state) :
  fst (mpu_update_region p region addr size_bit attr enable srd st)
    <> EC_SUCCESS ->
  mpu_update_region p region addr size_bit attr enable srd st
    = (neg_EC_ERROR_INVAL, st)
  /\ (is_aligned addr (BIT size_bit) = false
      \/ MPU_TYPE_REG_COUNT p (MPU_TYPE st) <= region
      \/ size_bit < MPU_SIZE_BITS_MIN).
Proof.
  intros Herr.
  destruct (update_region_cases p region addr size_bit attr enable srd st)
    as [Hbad | [Hok _]].
  - exact Hbad.
  - contradiction.
Qed.

Lemma update_region_error_leaves_state_witness :
  fst (mpu_update_region sample_platform 8 32 5 0 1 0 (reset_state 8))
    <> EC_SUCCESS
  /\ mpu_update_region sample_platform 8 32 5 0 1 0 (reset_state 8)
     = (neg_EC_ERROR_INVAL, reset_state 8).
Proof.
  assert (H : fst (mpu_update_region sample_platform 8 32 5 0 1 0
                     (reset_state 8)) <> EC_SUCCESS)
    by (vm_compute; discriminate).
  split; [exact H|].
  exact (proj1 (update_region_error_leaves_state
                  sample_platform 8 32 5 0 1 0 (reset_state 8) H)).
Defined.

(** ** The region encoder: requests that are refused or empty *)

(** C7.  A request of length 0 is answered with success and nothing else
    happens: the state, and with it the trace of stores, is the one that
    came in, whatever the slot, the base address, the attributes and the
    enable flag are. *)
Theorem config_region_zero_length
    (p : platform) (region addr attr enable : Z) (st : mpu_state) :
  mpu_config_region p region addr 0 attr enable st = (EC_SUCCESS, st)
  /\ new_events st (snd (mpu_config_region p region addr 0 attr enable st))
     = [].
Proof.
  split; [reflexivity|].
  cbn. unfold new_events. apply skipn_all.
Qed.

(** C6.  A request whose length is smaller than the minimum region size
    of 32 bytes, so that the position of its leading bit is below
    [MPU_SIZE_BITS_MIN], is refused with [-EC_ERROR_INVAL]; nothing is
    written.  The length has a leading bit: it is not zero, the empty
    request being answered before the size is looked at. *)
Theorem config_region_below_minimum
    (p : platform) (region addr size attr enable : Z) (st : mpu_state) :
  0 < size < 2 ^ MPU_SIZE_BITS_MIN ->
  config_size_bit size < MPU_SIZE_BITS_MIN
  /\ mpu_config_region p region addr size attr enable st
     = (neg_EC_ERROR_INVAL, st).
Proof.
  intros [Hpos Hlt].
  assert (Hsb : config_size_bit size < MPU_SIZE_BITS_MIN).
  { rewrite config_size_bit_log2.
    apply (Z.log2_lt_pow2 size MPU_SIZE_BITS_MIN); assumption. }
  split; [exact Hsb|].
  unfold mpu_config_region.
  destruct (size =? 0) eqn:Hz; [apply Z.eqb_eq in Hz; lia|].
  unfold MPU_SIZE_BITS_MIN in Hsb.
  apply Z.ltb_lt in Hsb. rewrite Hsb. reflexivity.
Qed.

Lemma config_region_below_minimum_witness :
  0 < 16 < 2 ^ MPU_SIZE_BITS_MIN
  /\ mpu_config_region sample_platform 0 0 16 0 1 (reset_state 8)
     = (neg_EC_ERROR_INVAL, reset_state 8).
Proof.
  assert (H : 0 < 16 < 2 ^ MPU_SIZE_BITS_MIN) by (vm_compute; intuition congruence).
  split; [exact H|].
  exact (proj2 (config_region_below_minimum
                  sample_platform 0 0 16 0 1 (reset_state 8) H)).
Defined.

(** C4.  A length that is not a power of two and whose second sub-block
    mask [srd2] is not zero would need a second region.  When the slot is
    [REGION_DATA_RAM_TEXT], or the leading bit of the length is below bit
    10, the request is refused with [-EC_ERROR_INVAL] and no encoding is
    written: the machine is left as it was. *)
Theorem config_region_second_region_refused
    (p : platform) (region addr size attr enable : Z) (st : mpu_state) :
  POWER_OF_TWO size = false ->
  config_srd2 size <> 0 ->
  region = REGION_DATA_RAM_TEXT p \/ config_size_bit size < 10 ->
  mpu_config_region p region addr size attr enable st
  = (neg_EC_ERROR_INVAL, st).
Proof.
  intros Hnp Hsrd Hor.
  unfold mpu_config_region.
  destruct (size =? 0) eqn:Hz.
  { apply Z.eqb_eq in Hz. subst size. exfalso. apply Hsrd. reflexivity. }
  destruct (config_size_bit size <? 5); [reflexivity|].
  rewrite Hnp.
  destruct (config_size_bit size <? 7); [reflexivity|].
  destruct (negb _); [reflexivity|].
  assert (Hs : (config_srd2 size =? 0) = false) by (apply Z.eqb_neq; exact Hsrd).
  rewrite Hs. cbn [negb andb].
  assert (Hc : (region =? REGION_DATA_RAM_TEXT p)
               || (config_size_bit size <? 10) = true).
  { apply orb_true_iff. destruct Hor as [He | Hl].
    - left. apply Z.eqb_eq. exact He.
    - right. apply Z.ltb_lt. exact Hl. }
  rewrite Hc. reflexivity.
Qed.

Lemma config_region_second_region_refused_witness :
  POWER_OF_TWO 1152 = false
  /\ config_srd2 1152 <> 0
  /\ (6 = REGION_DATA_RAM_TEXT sample_platform \/ config_size_bit 1152 < 10)
  /\ mpu_config_region sample_platform 6 2048 1152 0x1300 1 (reset_state 8)
     = (neg_EC_ERROR_INVAL, reset_state 8).
Proof.
  assert (H1 : POWER_OF_TWO 1152 = false) by reflexivity.
  assert (H2 : config_srd2 1152 <> 0) by (vm_compute; discriminate).
  assert (H3 : 6 = REGION_DATA_RAM_TEXT sample_platform
               \/ config_size_bit 1152 < 10) by (left; reflexivity).
  split; [exact H1 | split; [exact H2 | split; [exact H3|]]].
  exact (config_region_second_region_refused
           sample_platform 6 2048 1152 0x1300 1 (reset_state 8) H1 H2 H3).
Defined.



(** ** What a successful update leaves in the registers *)

Lemma new_events_app (st st' : mpu_state) (evs : list event) :
  trace st' = trace st ++ evs -> new_events st st' = evs.
Proof.
  intros H. unfold new_events. rewrite H.
  rewrite skipn_app, skipn_all, Nat.sub_diag. reflexivity.
Qed.

Lemma selected_slots_app (l1 l2 : list event) :
  selected_slots (l1 ++ l2) = selected_slots l1 ++ selected_slots l2.
Proof.
  induction l1 as [|e l1 IH]; [reflexivity|].
  destruct e as [|w r v|]; cbn; try exact IH.
  destruct r; cbn; rewrite ?IH; reflexivity.
Qed.

Lemma set_region_same i r f : set_region i r f i = r.
Proof. unfold set_region. now rewrite Z.eqb_refl. Qed.

Lemma set_region_other i j r f : j <> i -> set_region i r f j = f j.
Proof.
  intros H. unfold set_region.
  destruct (j =? i) eqn:E; [apply Z.eqb_eq in E; contradiction | reflexivity].
Qed.

Lemma disabled_size_bit0 (hi lo : Z) :
  Z.testbit (hi * 2 ^ 16 + u16 (Z.land lo (Z.lnot 1))) 0 = false.
Proof.
  rewrite Z.bit0_odd.
  replace (hi * 2 ^ 16) with (2 * (hi * 2 ^ 15)) by (change (2 ^ 16) with (2 * 2 ^ 15); ring).
  rewrite Z.add_comm, Z.odd_add_mul_2, <- Z.bit0_odd.
  unfold u16. rewrite Z.mod_pow2_bits_low by lia.
  rewrite Z.land_spec. change (Z.testbit (Z.lnot 1) 0) with false.
  apply andb_false_r.
Qed.

Section Programmed.

Variable p : platform.

Lemma update_region_effect region addr size_bit attr enable srd st :
  fst (mpu_update_region p region addr size_bit attr enable srd st)
    = EC_SUCCESS ->
  let st' :=
    snd (mpu_update_region p region addr size_bit attr enable srd st) in
  MPU_TYPE st' = MPU_TYPE st
  /\ (exists evs, trace st' = trace st ++ evs
                  /\ selected_slots evs = [region])
  /\ (forall j, j <> region -> regions st' j = regions st j)
  /\ (enable <> 0 ->
      regions st' region
      = {| RBAR := addr; RASR := rasr_word attr srd size_bit |})
  /\ (enable = 0 ->
      RBAR (regions st' region) = RBAR (regions st region)
      /\ Z.testbit (RASR (regions st' region)) 0 = false).
Proof.
  unfold mpu_update_region.
  destruct (is_aligned addr (BIT size_bit)); cbn [negb];
    [|cbn; discriminate].
  cbv [bind ret mpu_num_regions mpu_get_type rd].
  destruct (region >=? _); [cbn; discriminate|].
  destruct (size_bit <? MPU_SIZE_BITS_MIN); [cbn; discriminate|].
  intros _.
  destruct (enable =? 0) eqn:He; cbn.
  - apply Z.eqb_eq in He.
    split; [reflexivity|]. split.
    { eexists. rewrite <- !app_assoc. split; reflexivity. }
    split.
    { intros j Hj. now rewrite set_region_other. }
    split; [intros Hne; contradiction|]. intros _.
    rewrite set_region_same. cbn. split; [reflexivity|].
    apply disabled_size_bit0.
  - apply Z.eqb_neq in He.
    split; [reflexivity|]. split.
    { eexists. rewrite <- !app_assoc. split; reflexivity. }
    split.
    { intros j Hj. now rewrite !set_region_other. }
    split; [|intros Hz; contradiction]. intros _.
    rewrite !set_region_same. reflexivity.
Qed.

End Programmed.

(** ** Reading an encoding back from the size register *)

Lemma land_shiftl_low (a b n : Z) :
  0 <= n -> 0 <= b < 2 ^ n -> Z.land (Z.shiftl a n) b = 0.
Proof.
  intros Hn Hb. apply Z.bits_inj'. intros i Hi.
  rewrite Z.land_spec, Z.bits_0.
  destruct (Z.lt_ge_cases i n) as [Hlt | Hge].
  - rewrite Z.shiftl_spec_low by assumption. reflexivity.
  - rewrite <- (Z.mod_small b (2 ^ n)) by assumption.
    rewrite Z.mod_pow2_bits_high by lia. apply andb_false_r.
Qed.

Lemma lor_shiftl_low (a b n : Z) :
  0 <= n -> 0 <= b < 2 ^ n -> Z.lor (Z.shiftl a n) b = a * 2 ^ n + b.
Proof.
  intros Hn Hb.
  pose proof (Z.add_lor_land (Z.shiftl a n) b) as H.
  rewrite land_shiftl_low in H by assumption.
  rewrite Z.shiftl_mul_pow2 in * by assumption. lia.
Qed.

Lemma rasr_word_value (attr srd size_bit : Z) :
  0 <= attr < 2 ^ 16 -> 0 <= srd < 2 ^ 8 -> 1 <= size_bit <= 32 ->
  rasr_word attr srd size_bit
  = attr * 2 ^ 16 + srd * 2 ^ 8 + (size_bit - 1) * 2 + 1.
Proof.
  intros Ha Hs Hb. unfold rasr_word.
  assert (E1 : Z.lor (Z.shiftl (size_bit - 1) 1) 1 = (size_bit - 1) * 2 + 1).
  { rewrite lor_shiftl_low; lia. }
  assert (E2 : Z.lor (Z.shiftl srd 8) ((size_bit - 1) * 2 + 1)
               = srd * 2 ^ 8 + ((size_bit - 1) * 2 + 1)).
  { rewrite lor_shiftl_low; lia. }
  assert (E3 : Z.lor (Z.shiftl attr 16) (srd * 2 ^ 8 + ((size_bit - 1) * 2 + 1))
               = attr * 2 ^ 16 + (srd * 2 ^ 8 + ((size_bit - 1) * 2 + 1))).
  { rewrite lor_shiftl_low; lia. }
  assert (E0 : u32 (Z.shiftl attr 16) = Z.shiftl attr 16).
  { rewrite Z.shiftl_mul_pow2 by lia. apply u32_small. lia. }
  rewrite E0, <- !Z.lor_assoc, E1, E2, E3.
  rewrite u32_small by lia. ring.
Qed.

Lemma slot_encoding_programmed st i addr attr srd size_bit :
  0 <= attr < 2 ^ 16 -> 0 <= srd < 2 ^ 8 -> 1 <= size_bit <= 32 ->
  regions st i = {| RBAR := addr; RASR := rasr_word attr srd size_bit |} ->
  slot_encoding st i
  = {| slot_index := i; base_address := addr; size_exponent := size_bit;
       subregion_disable_mask := srd; attributes := attr;
       enabled := true |}.
Proof.
  intros Ha Hs Hb Hr. unfold slot_encoding. rewrite Hr. cbn [RBAR RASR].
  rewrite rasr_word_value by assumption.
  set (w := attr * 2 ^ 16 + srd * 2 ^ 8 + (size_bit - 1) * 2 + 1).
  assert (E1 : Z.land (Z.shiftr w 1) 31 + 1 = size_bit).
  { change 31 with (Z.ones 5).
    rewrite Z.land_ones, Z.shiftr_div_pow2 by lia.
    subst w. change (2 ^ 1) with 2. change (2 ^ 5) with 32.
    change (2 ^ 16) with 65536. change (2 ^ 8) with 256.
    Z.div_mod_to_equations. lia. }
  assert (E2 : Z.land (Z.shiftr w 8) 255 = srd).
  { change 255 with (Z.ones 8).
    rewrite Z.land_ones, Z.shiftr_div_pow2 by lia.
    subst w. change (2 ^ 16) with 65536 in *. change (2 ^ 8) with 256 in *.
    Z.div_mod_to_equations. lia. }
  assert (E3 : Z.shiftr w 16 = attr).
  { rewrite Z.shiftr_div_pow2 by lia.
    subst w. change (2 ^ 16) with 65536 in *. change (2 ^ 8) with 256 in *.
    Z.div_mod_to_equations. lia. }
  assert (E4 : Z.testbit w 0 = true).
  { rewrite Z.bit0_odd. subst w.
    replace (attr * 2 ^ 16 + srd * 2 ^ 8 + (size_bit - 1) * 2 + 1)
      with (1 + 2 * (attr * 2 ^ 15 + srd * 2 ^ 7 + (size_bit - 1)))
      by (change (2 ^ 16) with (2 * 2 ^ 15); change (2 ^ 8) with (2 * 2 ^ 7);
          ring).
    rewrite Z.odd_add_mul_2. reflexivity. }
  rewrite E1, E2, E3, E4. reflexivity.
Qed.

(** ** Sub-block masks *)

Lemma u8_lnot (x : Z) : 0 <= x < 2 ^ 8 -> u8 (Z.lnot x) = 255 - x.
Proof.
  intros Hx. unfold u8, Z.lnot.
  replace (Z.pred (- x)) with ((255 - x) + (-1) * 2 ^ 8)
    by (change (2 ^ 8) with 256; lia).
  rewrite Z.mod_add by (change (2 ^ 8) with 256; lia).
  apply Z.mod_small. change (2 ^ 8) with 256 in *. lia.
Qed.

(** The mask that disables the eighths from [n] on. *)
Lemma prefix_mask_testbit (n i : Z) :
  0 <= n <= 8 -> 0 <= i < 8 ->
  Z.testbit (256 - 2 ^ n) i = (n <=? i).
Proof.
  intros Hn Hi.
  assert (Hn' : n = 0 \/ n = 1 \/ n = 2 \/ n = 3 \/ n = 4 \/ n = 5
                \/ n = 6 \/ n = 7 \/ n = 8) by lia.
  assert (Hi' : i = 0 \/ i = 1 \/ i = 2 \/ i = 3 \/ i = 4 \/ i = 5
                \/ i = 6 \/ i = 7) by lia.
  repeat (destruct Hn' as [-> | Hn']; [clear Hn |]); try subst n;
    repeat (destruct Hi' as [-> | Hi']; [reflexivity |]); subst i;
    reflexivity.
Qed.

(** An enabled encoding whose mask disables the eighths from [n] on
    protects the first [n] eighths of its region, and nothing else. *)
Lemma protects_prefix (i base x attr n a : Z) :
  3 <= x -> 0 <= n <= 8 ->
  protects {| slot_index := i; base_address := base; size_exponent := x;
              subregion_disable_mask := 256 - 2 ^ n; attributes := attr;
              enabled := true |} a = true
  <-> base <= a < base + n * 2 ^ (x - 3).
Proof.
  intros Hx Hn. unfold protects.
  cbn [enabled base_address size_exponent subregion_disable_mask andb].
  pose proof (pow2_pos (x - 3) ltac:(lia)) as HU.
  assert (E : 2 ^ x = 8 * 2 ^ (x - 3)).
  { replace x with (3 + (x - 3)) at 1 by lia.
    rewrite Z.pow_add_r by lia. reflexivity. }
  rewrite E. set (U := 2 ^ (x - 3)) in *.
  rewrite !andb_true_iff, Z.leb_le, Z.ltb_lt, negb_true_iff.
  split.
  - intros [[Hlo Hhi] Hbit].
    assert (Hq : 0 <= (a - base) / U < 8).
    { split; [apply Z.div_pos; lia | apply Z.div_lt_upper_bound; lia]. }
    rewrite prefix_mask_testbit in Hbit by assumption.
    apply Z.leb_gt in Hbit.
    pose proof (Z.div_mod (a - base) U ltac:(lia)) as Hdm.
    pose proof (Z.mod_pos_bound (a - base) U HU) as Hm.
    nia.
  - intros [Hlo Hhi].
    assert (Hq : 0 <= (a - base) / U < n).
    { split; [apply Z.div_pos; lia | apply Z.div_lt_upper_bound; lia]. }
    split; [split; [lia | nia]|].
    rewrite prefix_mask_testbit by lia.
    apply Z.leb_gt. lia.
Qed.

(** ** Arithmetic of the decomposition *)

(** The verification that the range fits two regions: a length that
    passes it has no bit below bit [n]. *)
Lemma residual_zero_mod (size n : Z) :
  0 <= n <= 32 ->
  Z.land size (u32 (Z.lnot (Z.shiftl 63 n))) = 0 ->
  size mod 2 ^ n = 0.
Proof.
  intros Hn H.
  rewrite <- Z.land_ones by lia.
  apply Z.bits_inj'. intros i Hi.
  rewrite Z.land_spec, Z.bits_0.
  destruct (Z.lt_ge_cases i n) as [Hlt | Hge].
  - assert (Hb : Z.testbit (Z.land size (u32 (Z.lnot (Z.shiftl 63 n)))) i
                 = false) by (rewrite H; apply Z.bits_0).
    rewrite Z.land_spec in Hb. unfold u32 in Hb.
    rewrite Z.mod_pow2_bits_low, Z.lnot_spec, Z.shiftl_spec_low in Hb by lia.
    cbn [negb] in Hb. rewrite andb_true_r in Hb.
    rewrite Hb. reflexivity.
  - rewrite Z.ones_spec_high by lia. apply andb_false_r.
Qed.

Section Decomposition.

Variable size : Z.
Hypothesis size_range : 0 < size < 2 ^ 32.
Hypothesis size_bit_min : 7 <= config_size_bit size.
Hypothesis residual :
  Z.land size (u32 (Z.lnot (Z.shiftl 63 (config_size_bit size - 5)))) = 0.

Let sb := config_size_bit size.
Let T := 2 ^ (sb - 5).

Lemma decomp_size_bit : 7 <= sb <= 31.
Proof.
  subst sb. pose proof (log2_u32_bound size size_range).
  rewrite config_size_bit_log2 in *. lia.
Qed.

Lemma decomp_T_pos : 0 < T.
Proof. pose proof decomp_size_bit. apply pow2_pos. lia. Qed.

Lemma decomp_pow_sb : 2 ^ sb = 32 * T /\ 2 ^ (sb - 2) = 8 * T
                      /\ 2 ^ (sb + 1) = 64 * T.
Proof.
  pose proof decomp_size_bit. subst T.
  replace sb with (5 + (sb - 5)) at 1 by lia.
  replace (sb - 2) with (3 + (sb - 5)) by lia.
  replace (sb + 1) with (6 + (sb - 5)) by lia.
  rewrite !Z.pow_add_r by lia. auto.
Qed.

Lemma decomp_bounds : 32 * T <= size < 64 * T.
Proof.
  destruct decomp_pow_sb as (E1 & _ & E3).
  pose proof (Z.log2_spec size ltac:(lia)) as Hl.
  fold sb in E1. rewrite <- E1, <- E3.
  subst sb. rewrite config_size_bit_log2 in *.
  unfold Z.succ in Hl. exact Hl.
Qed.

Lemma decomp_multiple : size mod T = 0.
Proof.
  pose proof decomp_size_bit.
  apply residual_zero_mod; [lia | exact residual].
Qed.

Lemma decomp_sum :
  4 <= eighths1 size <= 7 /\ 0 <= eighths2 size <= 7
  /\ size = eighths1 size * (8 * T) + eighths2 size * T.
Proof.
  pose proof decomp_T_pos as HT.
  pose proof decomp_bounds as Hb.
  pose proof decomp_multiple as Hm.
  unfold eighths1, eighths2.
  change (2 ^ (config_size_bit size - 5)) with T.
  pose proof (Z.div_mod size T ltac:(lia)) as Hq.
  rewrite Hm, Z.add_0_r in Hq.
  set (q := size / T) in *.
  assert (Hq8 : size / (8 * T) = q / 8).
  { rewrite (Z.mul_comm 8 T), <- Z.div_div by lia. reflexivity. }
  rewrite Hq8.
  assert (32 <= q < 64) by nia.
  pose proof (Z.div_mod q 8 ltac:(lia)).
  pose proof (Z.mod_pos_bound q 8 ltac:(lia)).
  assert (4 <= q / 8 <= 7).
  { split; [apply Z.div_le_lower_bound; lia
           | apply Z.lt_succ_r, Z.div_lt_upper_bound; lia]. }
  split; [lia|]. split; [lia|]. nia.
Qed.

Lemma decomp_blocks : config_blocks size = eighths1 size.
Proof.
  pose proof decomp_size_bit. destruct decomp_pow_sb as (_ & E2 & _).
  unfold config_blocks. fold sb.
  rewrite Z.shiftr_div_pow2, E2 by lia.
  pose proof decomp_sum as Hs.
  unfold eighths1 in *. change (2 ^ (config_size_bit size - 5)) with T in *.
  apply u8_small. change (2 ^ 8) with 256. lia.
Qed.

Lemma decomp_srd1 :
  u8 (Z.lnot (config_srd1 size)) = 256 - 2 ^ eighths1 size.
Proof.
  destruct decomp_sum as (H1 & _).
  unfold config_srd1. rewrite decomp_blocks.
  rewrite BIT_small by lia.
  assert (Hp : 2 ^ 4 <= 2 ^ eighths1 size <= 2 ^ 7)
    by (split; apply Z.pow_le_mono_r; lia).
  change (2 ^ 4) with 16 in Hp. change (2 ^ 7) with 128 in Hp.
  rewrite (u8_small (2 ^ eighths1 size - 1)) by (change (2 ^ 8) with 256; lia).
  rewrite u8_lnot by (change (2 ^ 8) with 256; lia). lia.
Qed.

Lemma decomp_srd2_value : config_srd2 size = 2 ^ eighths2 size - 1.
Proof.
  pose proof decomp_size_bit. destruct decomp_sum as (_ & H2 & _).
  unfold config_srd2. fold sb.
  change 7 with (Z.ones 3).
  rewrite Z.land_ones, Z.shiftr_div_pow2 by lia.
  change (2 ^ 3) with 8.
  change ((size / 2 ^ (sb - 5)) mod 8) with (eighths2 size).
  rewrite Z.shiftl_mul_pow2, Z.mul_1_l by lia.
  assert (Hp : 2 ^ 0 <= 2 ^ eighths2 size <= 2 ^ 7)
    by (split; apply Z.pow_le_mono_r; lia).
  change (2 ^ 0) with 1 in Hp. change (2 ^ 7) with 128 in Hp.
  apply u8_small. change (2 ^ 8) with 256. lia.
Qed.

Lemma decomp_srd2_zero : config_srd2 size = 0 <-> eighths2 size = 0.
Proof.
  rewrite decomp_srd2_value. destruct decomp_sum as (_ & H2 & _).
  split.
  - intros H. destruct (Z.eq_dec (eighths2 size) 0) as [E | E]; [exact E|].
    assert (2 ^ 1 <= 2 ^ eighths2 size) by (apply Z.pow_le_mono_r; lia).
    change (2 ^ 1) with 2 in *. lia.
  - intros ->. reflexivity.
Qed.

Lemma decomp_srd2 :
  u8 (Z.lnot (config_srd2 size)) = 256 - 2 ^ eighths2 size.
Proof.
  destruct decomp_sum as (_ & H2 & _).
  rewrite decomp_srd2_value.
  assert (Hp : 2 ^ 0 <= 2 ^ eighths2 size <= 2 ^ 7)
    by (split; apply Z.pow_le_mono_r; lia).
  change (2 ^ 0) with 1 in Hp. change (2 ^ 7) with 128 in Hp.
  rewrite u8_lnot by (change (2 ^ 8) with 256; lia). lia.
Qed.

(** The base of the second region, for a first region that is aligned. *)
Lemma decomp_second_base (addr : Z) :
  0 <= addr < 2 ^ 32 -> addr mod 2 ^ (sb + 1) = 0 -> sb + 1 < 32 ->
  u32 (addr + u32 (Z.shiftl 1 (sb - 2) * config_blocks size))
  = addr + eighths1 size * (8 * T).
Proof.
  intros Ha Hal Hsb.
  pose proof decomp_size_bit. destruct decomp_pow_sb as (_ & E2 & E3).
  destruct decomp_sum as (H1 & _). pose proof decomp_T_pos as HT.
  rewrite decomp_blocks.
  rewrite Z.shiftl_mul_pow2, Z.mul_1_l, E2 by lia.
  rewrite E3 in Hal.
  assert (Hle : 2 ^ (sb + 1) <= 2 ^ 31) by (apply Z.pow_le_mono_r; lia).
  rewrite E3 in Hle.
  pose proof (Z.div_mod addr (64 * T) ltac:(lia)) as Hq.
  rewrite Hal, Z.add_0_r in Hq.
  assert (Hfit : addr + 64 * T <= 2 ^ 32).
  { set (q := addr / (64 * T)) in *.
    assert (Hm : 2 ^ 32 mod (64 * T) = 0).
    { rewrite <- E3. replace 32 with ((sb + 1) + (32 - (sb + 1))) by lia.
      rewrite Z.pow_add_r by lia.
      rewrite Z.mul_comm. apply Z.mod_mul.
      pose proof (pow2_pos (sb + 1) ltac:(lia)). lia. }
    pose proof (Z.div_mod (2 ^ 32) (64 * T) ltac:(lia)) as Hq2.
    rewrite Hm, Z.add_0_r in Hq2.
    set (q2 := 2 ^ 32 / (64 * T)) in *.
    assert (q < q2) by nia. nia. }
  rewrite (u32_small (8 * T * eighths1 size)) by nia.
  rewrite u32_small by nia. ring.
Qed.

End Decomposition.

(** ** The region encoder: requests that are accepted *)

Lemma is_aligned_BIT_true (a n : Z) :
  0 <= n <= 32 -> is_aligned a (BIT n) = true -> n < 32 /\ a mod 2 ^ n = 0.
Proof.
  intros Hn H.
  destruct (Z.eq_dec n 32) as [-> | Hne].
  - rewrite BIT_32 in H. discriminate.
  - rewrite BIT_small, is_aligned_pow2 in H by lia.
    apply Z.eqb_eq in H. split; [lia | exact H].
Qed.

Section Encoder.

Variable p : platform.
Variables region addr size attr enable : Z.
Variable st : mpu_state.
Hypothesis size_range : 0 < size < 2 ^ 32.

Let sb := config_size_bit size.

(** The calls of the programmer that an accepted request comes down to:
    one for a power of two, one for a rounded region that needs no
    second mask, two otherwise. *)
Lemma config_region_shapes :
  fst (mpu_config_region p region addr size attr enable st) = EC_SUCCESS ->
  (POWER_OF_TWO size = true /\ 5 <= sb <= 31
   /\ mpu_config_region p region addr size attr enable st
      = mpu_update_region p region addr sb attr enable 0 st)
  \/ (POWER_OF_TWO size = false /\ 7 <= sb <= 31
      /\ Z.land size (u32 (Z.lnot (Z.shiftl 63 (sb - 5)))) = 0
      /\ config_srd2 size = 0
      /\ mpu_config_region p region addr size attr enable st
         = mpu_update_region p region addr (sb + 1) attr enable
             (u8 (Z.lnot (config_srd1 size))) st)
  \/ (POWER_OF_TWO size = false /\ 10 <= sb <= 31
      /\ Z.land size (u32 (Z.lnot (Z.shiftl 63 (sb - 5)))) = 0
      /\ config_srd2 size <> 0
      /\ region <> REGION_DATA_RAM_TEXT p
      /\ fst (mpu_update_region p region addr (sb + 1) attr enable
                (u8 (Z.lnot (config_srd1 size))) st) = EC_SUCCESS
      /\ mpu_config_region p region addr size attr enable st
         = mpu_update_region p (u8 (region + 1))
             (u32 (addr + u32 (Z.shiftl 1 (sb - 2) * config_blocks size)))
             (sb - 2) attr enable (u8 (Z.lnot (config_srd2 size)))
             (snd (mpu_update_region p region addr (sb + 1) attr enable
                     (u8 (Z.lnot (config_srd1 size))) st))).
Proof.
  pose proof (log2_u32_bound size size_range) as Hlog.
  rewrite <- config_size_bit_log2 in Hlog. fold sb in Hlog.
  unfold mpu_config_region. fold sb.
  destruct (size =? 0) eqn:Hz; [apply Z.eqb_eq in Hz; lia|].
  destruct (sb <? 5) eqn:H5; [cbn; discriminate|].
  apply Z.ltb_ge in H5.
  destruct (POWER_OF_TWO size).
  { intros _. left. rewrite u8_small by lia. auto with zarith. }
  destruct (sb <? 7) eqn:H7; [cbn; discriminate|].
  apply Z.ltb_ge in H7.
  destruct (Z.land size _ =? 0) eqn:Hres; cbn [negb]; [|cbn; discriminate].
  apply Z.eqb_eq in Hres.
  rewrite (u8_small (sb + 1)), (u8_small (sb - 2)) by lia.
  destruct (config_srd2 size =? 0) eqn:Hs2; cbn [negb andb].
  - apply Z.eqb_eq in Hs2.
    intros _. right. left.
    repeat (split; [auto with zarith; fail|]).
    unfold bind, ret.
    destruct (mpu_update_region p region addr (sb + 1) attr enable _ st)
      as [rv st1].
    destruct rv; reflexivity.
  - apply Z.eqb_neq in Hs2.
    destruct ((region =? REGION_DATA_RAM_TEXT p) || (sb <? 10)) eqn:Hor;
      [cbn; discriminate|].
    apply orb_false_iff in Hor. destruct Hor as [Hr H10].
    apply Z.eqb_neq in Hr. apply Z.ltb_ge in H10.
    unfold bind, ret.
    destruct (mpu_update_region p region addr (sb + 1) attr enable _ st)
      as [rv st1] eqn:E1.
    cbn [fst snd].
    destruct rv; cbn [is_success negb]; try (cbn; discriminate).
    intros _. right. right.
    repeat (split; [auto with zarith; fail|]).
    reflexivity.
Qed.

End Encoder.

Lemma prefix_mask_range (n : Z) : 0 <= n <= 8 -> 0 <= 256 - 2 ^ n < 2 ^ 8.
Proof.
  intros Hn.
  assert (Hp : 2 ^ 0 <= 2 ^ n <= 2 ^ 8) by (split; apply Z.pow_le_mono_r; lia).
  change (2 ^ 0) with 1 in Hp. lia.
Qed.

(** One accepted call of the programmer with a prefix mask: the slot then
    protects the first [n] eighths of the region at [addr]. *)
Lemma update_region_protects p region addr x attr enable n st st' a :
  0 <= attr < 2 ^ 16 -> 0 <= n <= 8 -> 3 <= x <= 32 -> enable <> 0 ->
  regions st' region
  = regions (snd (mpu_update_region p region addr x attr enable
                    (256 - 2 ^ n) st)) region ->
  fst (mpu_update_region p region addr x attr enable (256 - 2 ^ n) st)
    = EC_SUCCESS ->
  protects (slot_encoding st' region) a = true
  <-> addr <= a < addr + n * 2 ^ (x - 3).
Proof.
  intros Ha Hn Hx He Hreg Hok.
  destruct (update_region_effect p _ _ _ _ _ _ _ Hok) as (_ & _ & _ & Hset & _).
  specialize (Hset He). cbv zeta in Hset. rewrite <- Hreg in Hset.
  rewrite (slot_encoding_programmed st' region addr attr (256 - 2 ^ n) x);
    try assumption; try lia; [|apply prefix_mask_range; assumption].
  apply protects_prefix; lia.
Qed.

(** C1.  Every request of non-zero length with the enable flag set that
    [mpu_config_region] accepts selects at most two region slots and leaves
    every other slot as it was; a byte is protected by one of the
    encodings that the selected slots then hold exactly when it lies in
    the requested range [addr, addr + size). *)
Theorem config_region_exact_cover
    (p : platform) (region addr size attr enable : Z) (st : mpu_state) :
  0 <= region < 2 ^ 8 -> 0 <= addr < 2 ^ 32 -> 0 < size < 2 ^ 32 ->
  0 <= attr < 2 ^ 16 -> enable <> 0 ->
  fst (mpu_config_region p region addr size attr enable st) = EC_SUCCESS ->
  let st' := snd (mpu_config_region p region addr size attr enable st) in
  let slots := selected_slots (new_events st st') in
  (length slots <= 2)%nat
  /\ (forall j, ~ In j slots -> regions st' j = regions st j)
  /\ (forall a,
        (exists i, In i slots /\ protects (slot_encoding st' i) a = true)
        <-> addr <= a < addr + size).
Proof.
  intros Hregion Haddr Hsize Hattr Hen Hok st' slots.
  destruct (config_region_shapes p region addr size attr enable st Hsize Hok)
    as [(Hpow & Hsb & Heq) | [(Hpow & Hsb & Hres & Hs2 & Heq)
                             | (Hpow & Hsb & Hres & Hs2 & Hnot & Hok1 & Heq)]].
  - (* a power of two: one region, no eighth disabled *)
    subst slots st'. rewrite Heq in *.
    destruct (update_region_effect p _ _ _ _ _ _ _ Hok)
      as (_ & (evs & Htr & Hsel) & Hoth & _).
    rewrite (new_events_app _ _ _ Htr), Hsel.
    split; [cbn; lia|]. split.
    { intros j Hj. apply Hoth. cbn in Hj. intuition. }
    intros a.
    apply POWER_OF_TWO_true in Hpow. destruct Hpow as [_ Hpow].
    rewrite <- config_size_bit_log2 in Hpow.
    assert (E : 2 ^ config_size_bit size = 8 * 2 ^ (config_size_bit size - 3)).
    { replace (config_size_bit size) with (3 + (config_size_bit size - 3))
        at 1 by lia.
      rewrite Z.pow_add_r by lia. reflexivity. }
    pose proof (update_region_protects p region addr (config_size_bit size)
                  attr enable 8 st _ a Hattr ltac:(lia) ltac:(lia) Hen
                  eq_refl Hok) as P1.
    rewrite <- E, <- Hpow in P1.
    split.
    + intros (i & [<- | []] & Hi). apply P1. exact Hi.
    + intros Hi. exists region. split; [left; reflexivity | apply P1, Hi].
  - (* a rounded region that the first mask represents completely *)
    subst slots st'. rewrite Heq in *.
    destruct (update_region_effect p _ _ _ _ _ _ _ Hok)
      as (_ & (evs & Htr & Hsel) & Hoth & _).
    rewrite (new_events_app _ _ _ Htr), Hsel.
    split; [cbn; lia|]. split.
    { intros j Hj. apply Hoth. cbn in Hj. intuition. }
    intros a.
    assert (H7 : 7 <= config_size_bit size) by lia.
    rewrite (decomp_srd1 size Hsize H7 Hres) in *.
    destruct (decomp_sum size Hsize H7 Hres) as (He1 & He2 & Hsum).
    destruct (decomp_pow_sb size Hsize H7 Hres) as (_ & E2 & _).
    apply (decomp_srd2_zero size Hsize H7 Hres) in Hs2.
    rewrite Hs2 in Hsum.
    pose proof (update_region_protects p region addr
                  (config_size_bit size + 1) attr enable (eighths1 size)
                  st _ a Hattr ltac:(lia) ltac:(lia) Hen eq_refl Hok) as P1.
    replace (config_size_bit size + 1 - 3) with (config_size_bit size - 2)
      in P1 by lia.
    rewrite E2 in P1.
    replace (addr + eighths1 size * (8 * 2 ^ (config_size_bit size - 5)))
      with (addr + size) in P1 by lia.
    split.
    + intros (i & [<- | []] & Hi). apply P1. exact Hi.
    + intros Hi. exists region. split; [left; reflexivity | apply P1, Hi].
  - (* two regions *)
    assert (H7 : 7 <= config_size_bit size) by lia.
    destruct (decomp_sum size Hsize H7 Hres) as (He1 & He2 & Hsum).
    destruct (decomp_pow_sb size Hsize H7 Hres) as (_ & E2 & _).
    pose proof (proj1 (decomp_srd2_zero size Hsize H7 Hres)) as Hnz.
    assert (Hk : 1 <= eighths2 size).
    { destruct (Z.eq_dec (eighths2 size) 0) as [E | E]; [|lia].
      exfalso. apply Hs2. apply (decomp_srd2_zero size Hsize H7 Hres), E. }
    clear Hnz.
    destruct (update_region_cases p region addr (config_size_bit size + 1)
                attr enable (u8 (Z.lnot (config_srd1 size))) st)
      as [[Hbad _] | (_ & Hal & _)];
      [cbv zeta in Hbad; rewrite Hbad in Hok1; discriminate|].
    apply is_aligned_BIT_true in Hal; [|lia]. destruct Hal as [Hlt Hal].
    rewrite (decomp_second_base size Hsize H7 Hres addr Haddr Hal Hlt) in Heq.
    rewrite (decomp_srd1 size Hsize H7 Hres) in *.
    rewrite (decomp_srd2 size Hsize H7 Hres) in *.
    set (st1 := snd (mpu_update_region p region addr (config_size_bit size + 1)
                       attr enable (256 - 2 ^ eighths1 size) st)) in *.
    set (T := 2 ^ (config_size_bit size - 5)) in *.
    subst slots st'. rewrite Heq in *.
    destruct (update_region_effect p _ _ _ _ _ _ _ Hok1)
      as (_ & (evs1 & Htr1 & Hsel1) & Hoth1 & _).
    destruct (update_region_effect p _ _ _ _ _ _ _ Hok)
      as (_ & (evs2 & Htr2 & Hsel2) & Hoth2 & _).
    cbv zeta in Htr1, Hoth1, Htr2, Hoth2. fold st1 in Htr1, Hoth1.
    set (st2 := snd (mpu_update_region p (u8 (region + 1))
                       (addr + eighths1 size * (8 * T))
                       (config_size_bit size - 2) attr enable
                       (256 - 2 ^ eighths2 size) st1)) in *.
    assert (Htr : trace st2 = trace st ++ (evs1 ++ evs2))
      by (rewrite Htr2, Htr1, app_assoc; reflexivity).
    rewrite (new_events_app _ _ _ Htr), selected_slots_app, Hsel1, Hsel2.
    assert (Hne : region <> u8 (region + 1)).
    { unfold u8. change (2 ^ 8) with 256 in *.
      intros E. revert E. Z.div_mod_to_equations. lia. }
    split; [cbn; lia|]. split.
    { intros j Hj. cbn in Hj.
      rewrite Hoth2, Hoth1 by intuition. reflexivity. }
    intros a.
    pose proof (update_region_protects p region addr (config_size_bit size + 1)
                  attr enable (eighths1 size) st st2 a Hattr
                  ltac:(lia) ltac:(lia) Hen
                  ltac:(fold st1; apply Hoth2; exact Hne) Hok1) as P1.
    pose proof (update_region_protects p (u8 (region + 1))
                  (addr + eighths1 size * (8 * T))
                  (config_size_bit size - 2)
                  attr enable (eighths2 size) st1 st2 a Hattr
                  ltac:(lia) ltac:(lia) Hen eq_refl Hok) as P2.
    replace (config_size_bit size + 1 - 3) with (config_size_bit size - 2)
      in P1 by lia.
    replace (config_size_bit size - 2 - 3) with (config_size_bit size - 5)
      in P2 by lia.
    rewrite E2 in P1. fold T in P1, P2.
    pose proof (pow2_pos (config_size_bit size - 5) ltac:(lia)) as HT.
    fold T in HT.
    split.
    + intros (i & Hin & Hi). cbn in Hin.
      destruct Hin as [<- | [<- | []]].
      * apply P1 in Hi. nia.
      * apply P2 in Hi. nia.
    + intros Ha.
      destruct (Z.lt_ge_cases a (addr + eighths1 size * (8 * T))) as [Hl | Hg].
      * exists region. split; [left; reflexivity|]. apply P1. lia.
      * exists (u8 (region + 1)).
        split; [right; left; reflexivity|]. apply P2. nia.
Qed.

Lemma config_region_exact_cover_witness :
  (0 <= 0 < 2 ^ 8 /\ 0 <= 2048 < 2 ^ 32 /\ 0 < 1152 < 2 ^ 32
   /\ 0 <= 0x1300 < 2 ^ 16 /\ 1 <> 0
   /\ fst (mpu_config_region sample_platform 0 2048 1152 0x1300 1
             (reset_state 8)) = EC_SUCCESS)
  /\ ((exists i,
         In i (selected_slots
                 (new_events (reset_state 8)
                    (snd (mpu_config_region sample_platform 0 2048 1152
                            0x1300 1 (reset_state 8)))))
         /\ protects
              (slot_encoding
                 (snd (mpu_config_region sample_platform 0 2048 1152
                         0x1300 1 (reset_state 8))) i) 3100 = true)
      <-> 2048 <= 3100 < 2048 + 1152).
Proof.
  assert (H1 : 0 <= 0 < 2 ^ 8) by (vm_compute; intuition congruence).
  assert (H2 : 0 <= 2048 < 2 ^ 32) by (vm_compute; intuition congruence).
  assert (H3 : 0 < 1152 < 2 ^ 32) by (vm_compute; intuition congruence).
  assert (H4 : 0 <= 0x1300 < 2 ^ 16) by (vm_compute; intuition congruence).
  assert (H5 : 1 <> 0) by discriminate.
  assert (H6 : fst (mpu_config_region sample_platform 0 2048 1152 0x1300 1
                      (reset_state 8)) = EC_SUCCESS) by reflexivity.
  split; [repeat split; assumption || apply H1 || apply H2 || apply H3
                        || apply H4|].
  exact (proj2 (proj2 (config_region_exact_cover sample_platform 0 2048 1152
                         0x1300 1 (reset_state 8) H1 H2 H3 H4 H5 H6)) 3100).
Defined.

Section Accepting.

Variable p : platform.

Lemma update_region_accepts region addr size_bit attr enable srd st :
  is_aligned addr (BIT size_bit) = true ->
  region < MPU_TYPE_REG_COUNT p (MPU_TYPE st) ->
  MPU_SIZE_BITS_MIN <= size_bit ->
  fst (mpu_update_region p region addr size_bit attr enable srd st)
  = EC_SUCCESS.
Proof.
  intros Ha Hr Hs.
  destruct (update_region_cases p region addr size_bit attr enable srd st)
    as [(_ & [Hb | [Hb | Hb]]) | (Hok & _)]; try exact Hok.
  - rewrite Ha in Hb. discriminate.
  - lia.
  - lia.
Qed.

End Accepting.

(** C2.  For a length that is an exact power of two, at least the minimum
    region size of 32 bytes, and a base that is a multiple of the length,
    the encoder does not fail: [mpu_config_region] hands exactly one
    encoding to the programmer, with the size exponent [log2 size] and no
    eighth disabled, and the base passes the alignment test.  What is
    left is the programmer's own test of the slot index.  With a slot
    index below the region count the call succeeds, selects that slot
    alone and leaves the others as they were; with the enable flag set
    the slot then holds that encoding, with the flag clear the slot is
    disabled.  With a slot index at or beyond the region count the
    programmer refuses the encoding and nothing is written. *)
Theorem config_region_power_of_two
    (p : platform) (region addr size attr enable : Z) (st : mpu_state) :
  POWER_OF_TWO size = true ->
  2 ^ MPU_SIZE_BITS_MIN <= size < 2 ^ 32 ->
  addr mod size = 0 ->
  0 <= attr < 2 ^ 16 ->
  let r := mpu_config_region p region addr size attr enable st in
  r = mpu_update_region p region addr (Z.log2 size) attr enable 0 st
  /\ is_aligned addr (BIT (Z.log2 size)) = true
  /\ (region < MPU_TYPE_REG_COUNT p (MPU_TYPE st) ->
      fst r = EC_SUCCESS
      /\ selected_slots (new_events st (snd r)) = [region]
      /\ (forall j, j <> region -> regions (snd r) j = regions st j)
      /\ (enable <> 0 ->
          slot_encoding (snd r) region
          = {| slot_index := region; base_address := addr;
               size_exponent := Z.log2 size; subregion_disable_mask := 0;
               attributes := attr; enabled := true |})
      /\ (enable = 0 -> enabled (slot_encoding (snd r) region) = false))
  /\ (MPU_TYPE_REG_COUNT p (MPU_TYPE st) <= region ->
      r = (neg_EC_ERROR_INVAL, st)).
Proof.
  intros Hpow Hsize Hal Hattr r.
  pose proof Hpow as Hp2. apply POWER_OF_TWO_true in Hp2.
  destruct Hp2 as [Hpos Hp2].
  pose proof (log2_u32_bound size ltac:(lia)) as Hlog.
  assert (H5 : MPU_SIZE_BITS_MIN <= Z.log2 size).
  { apply Z.log2_le_pow2; lia. }
  assert (H5' : 5 <= Z.log2 size) by exact H5.
  assert (Heq : r = mpu_update_region p region addr (Z.log2 size) attr
                      enable 0 st).
  { subst r. unfold mpu_config_region.
    destruct (size =? 0) eqn:Hz; [apply Z.eqb_eq in Hz; lia|].
    rewrite config_size_bit_log2.
    destruct (Z.log2 size <? 5) eqn:Hlt; [apply Z.ltb_lt in Hlt; lia|].
    rewrite Hpow, u8_small by lia. reflexivity. }
  assert (Haligned : is_aligned addr (BIT (Z.log2 size)) = true).
  { rewrite BIT_small, is_aligned_pow2 by lia.
    rewrite <- Hp2. apply Z.eqb_eq. exact Hal. }
  rewrite Heq.
  split; [reflexivity|]. split; [exact Haligned|]. split.
  - intros Hslot.
    assert (Hok : fst (mpu_update_region p region addr (Z.log2 size) attr
                         enable 0 st) = EC_SUCCESS)
      by (apply update_region_accepts; assumption).
    destruct (update_region_effect p _ _ _ _ _ _ _ Hok)
      as (_ & (evs & Htr & Hsel) & Hoth & Hset & Hclr).
    split; [exact Hok|].
    split; [rewrite (new_events_app _ _ _ Htr); exact Hsel|].
    split; [exact Hoth|].
    split.
    + intros Hen. apply slot_encoding_programmed; try assumption; try lia.
      apply Hset, Hen.
    + intros Hen. unfold slot_encoding. cbn [enabled].
      apply Hclr, Hen.
  - intros Hslot.
    destruct (update_region_cases p region addr (Z.log2 size) attr enable 0
                st) as [(Hbad & _) | (_ & _ & Hlt & _)].
    + exact Hbad.
    + lia.
Qed.

Lemma config_region_power_of_two_witness :
  (POWER_OF_TWO 64 = true /\ 2 ^ MPU_SIZE_BITS_MIN <= 64 < 2 ^ 32
   /\ 192 mod 64 = 0 /\ 0 <= 0x1300 < 2 ^ 16)
  /\ mpu_config_region sample_platform 3 192 64 0x1300 1 (reset_state 8)
     = mpu_update_region sample_platform 3 192 (Z.log2 64) 0x1300 1 0
         (reset_state 8)
  /\ slot_encoding
       (snd (mpu_config_region sample_platform 3 192 64 0x1300 1
               (reset_state 8))) 3
     = {| slot_index := 3; base_address := 192;
          size_exponent := Z.log2 64; subregion_disable_mask := 0;
          attributes := 0x1300; enabled := true |}.
Proof.
  assert (H1 : POWER_OF_TWO 64 = true) by reflexivity.
  assert (H2 : 2 ^ MPU_SIZE_BITS_MIN <= 64 < 2 ^ 32)
    by (vm_compute; intuition congruence).
  assert (H3 : 192 mod 64 = 0) by reflexivity.
  assert (H4 : 0 <= 0x1300 < 2 ^ 16) by (vm_compute; intuition congruence).
  assert (H5 : 3 < MPU_TYPE_REG_COUNT sample_platform
                     (MPU_TYPE (reset_state 8))) by reflexivity.
  assert (H6 : 1 <> 0) by discriminate.
  split; [split; [exact H1 | split; [exact H2 | split;
                                     [exact H3 | exact H4]]]|].
  split.
  - exact (proj1 (config_region_power_of_two sample_platform 3 192 64
                    0x1300 1 (reset_state 8) H1 H2 H3 H4)).
  - exact (proj1 (proj2 (proj2 (proj2
             (proj1 (proj2 (proj2
                (config_region_power_of_two sample_platform 3 192 64
                   0x1300 1 (reset_state 8) H1 H2 H3 H4))) H5)))) H6).
Defined.

(** ** Two worked lengths: 96 bytes and 1152 bytes *)

(** The steps that [mpu_config_region] takes for 1152 bytes: bit 10 leads,
    four eighths of a 2 KiB region and four eighths of a 256 byte region. *)
Lemma config_region_1152_steps p region base attr enable st :
  region <> REGION_DATA_RAM_TEXT p ->
  mpu_config_region p region base 1152 attr enable st
  = (rv <- mpu_update_region p region base 11 attr enable 240 ;;
     if negb (is_success rv) then ret rv
     else mpu_update_region p (u8 (region + 1)) (u32 (base + 1024)) 8
            attr enable 240) st.
Proof.
  intros H. apply Z.eqb_neq in H.
  unfold mpu_config_region. rewrite H. reflexivity.
Qed.

(** C3, as the code has it.  A request of 96 bytes is refused with
    [-EC_ERROR_INVAL] at every base, a base aligned to 128 bytes included,
    and nothing is written: 96 is not a power of two and its leading bit,
    bit 6, is below bit 7, the least for which eighths are used.  The
    decomposition into two encodings is seen at 1152 bytes: at a base
    aligned to 2048 bytes, in a slot other than [REGION_DATA_RAM_TEXT] that
    is, like its successor, below the region count, with the enable
    flag set, the request succeeds; the slot holds a 2 KiB region at the
    base with its upper four eighths disabled, the next slot a 256 byte
    region at base + 1024 with its upper four eighths disabled, and the
    bytes that the two protect are exactly those of
    [base, base + 1152). *)
Theorem config_region_two_region_example
    (p : platform) (region base attr enable : Z) (st : mpu_state) :
  mpu_config_region p region base 96 attr enable st
  = (neg_EC_ERROR_INVAL, st)
  /\ (0 <= region < 2 ^ 8 -> 0 <= base < 2 ^ 32 -> base mod 2048 = 0 ->
      0 <= attr < 2 ^ 16 -> enable <> 0 ->
      region <> REGION_DATA_RAM_TEXT p ->
      region < MPU_TYPE_REG_COUNT p (MPU_TYPE st) ->
      u8 (region + 1) < MPU_TYPE_REG_COUNT p (MPU_TYPE st) ->
      let r := mpu_config_region p region base 1152 attr enable st in
      fst r = EC_SUCCESS
      /\ selected_slots (new_events st (snd r)) = [region; u8 (region + 1)]
      /\ slot_encoding (snd r) region
         = {| slot_index := region; base_address := base;
              size_exponent := 11; subregion_disable_mask := 0xF0;
              attributes := attr; enabled := true |}
      /\ slot_encoding (snd r) (u8 (region + 1))
         = {| slot_index := u8 (region + 1); base_address := base + 1024;
              size_exponent := 8; subregion_disable_mask := 0xF0;
              attributes := attr; enabled := true |}
      /\ forall a,
           protects (slot_encoding (snd r) region) a
           || protects (slot_encoding (snd r) (u8 (region + 1))) a = true
           <-> base <= a < base + 1152).
Proof.
  split; [reflexivity|].
  intros Hregion Hbase Hal Hattr Hen Hnot Hslot Hslot' r.
  assert (Hb2 : u32 (base + 1024) = base + 1024).
  { apply u32_small. change (2 ^ 32) with 4294967296 in *.
    revert Hal. Z.div_mod_to_equations. lia. }
  assert (Hne : region <> u8 (region + 1)).
  { unfold u8. change (2 ^ 8) with 256 in *.
    intros E. revert E. Z.div_mod_to_equations. lia. }
  assert (Hok1 : fst (mpu_update_region p region base 11 attr enable 240 st)
                 = EC_SUCCESS).
  { apply update_region_accepts; try assumption; [|unfold MPU_SIZE_BITS_MIN; lia].
    rewrite BIT_small, is_aligned_pow2 by lia.
    apply Z.eqb_eq. exact Hal. }
  destruct (update_region_effect p _ _ _ _ _ _ _ Hok1)
    as (Hty1 & (evs1 & Htr1 & Hsel1) & Hoth1 & Hset1 & _).
  specialize (Hset1 Hen). cbv zeta in Hty1, Htr1, Hoth1, Hset1.
  set (st1 := snd (mpu_update_region p region base 11 attr enable 240 st)) in *.
  assert (Hok2 : fst (mpu_update_region p (u8 (region + 1)) (base + 1024) 8
                        attr enable 240 st1) = EC_SUCCESS).
  { apply update_region_accepts;
      [|rewrite Hty1; assumption | unfold MPU_SIZE_BITS_MIN; lia].
    rewrite BIT_small, is_aligned_pow2 by lia.
    apply Z.eqb_eq. change (2 ^ 8) with 256.
    revert Hal. Z.div_mod_to_equations. lia. }
  destruct (update_region_effect p _ _ _ _ _ _ _ Hok2)
    as (_ & (evs2 & Htr2 & Hsel2) & Hoth2 & Hset2 & _).
  specialize (Hset2 Hen). cbv zeta in Htr2, Hoth2, Hset2.
  assert (Hr : r = mpu_update_region p (u8 (region + 1)) (base + 1024) 8
                     attr enable 240 st1).
  { subst r. rewrite config_region_1152_steps by exact Hnot.
    rewrite Hb2. subst st1. unfold bind.
    destruct (mpu_update_region p region base 11 attr enable 240 st)
      as [rv s1].
    cbn [fst] in Hok1. subst rv. reflexivity. }
  rewrite Hr.
  set (st2 := snd (mpu_update_region p (u8 (region + 1)) (base + 1024) 8
                     attr enable 240 st1)) in *.
  assert (Htr : trace st2 = trace st ++ (evs1 ++ evs2))
    by (rewrite Htr2, Htr1, app_assoc; reflexivity).
  assert (Henc1 : slot_encoding st2 region
                  = {| slot_index := region; base_address := base;
                       size_exponent := 11; subregion_disable_mask := 0xF0;
                       attributes := attr; enabled := true |}).
  { apply slot_encoding_programmed; try assumption; try lia.
    rewrite Hoth2 by exact Hne. exact Hset1. }
  assert (Henc2 : slot_encoding st2 (u8 (region + 1))
                  = {| slot_index := u8 (region + 1);
                       base_address := base + 1024;
                       size_exponent := 8; subregion_disable_mask := 0xF0;
                       attributes := attr; enabled := true |}).
  { apply slot_encoding_programmed; try assumption; try lia. }
  split; [exact Hok2|].
  split; [rewrite (new_events_app _ _ _ Htr), selected_slots_app, Hsel1, Hsel2;
          reflexivity|].
  split; [exact Henc1|]. split; [exact Henc2|].
  intros a. rewrite Henc1, Henc2, orb_true_iff.
  pose proof (protects_prefix region base 11 attr 4 a ltac:(lia) ltac:(lia))
    as P1.
  pose proof (protects_prefix (u8 (region + 1)) (base + 1024) 8 attr 4 a
                ltac:(lia) ltac:(lia)) as P2.
  change (256 - 2 ^ 4) with 240 in P1, P2.
  change (2 ^ (11 - 3)) with 256 in P1. change (2 ^ (8 - 3)) with 32 in P2.
  rewrite P1, P2. lia.
Qed.

Lemma config_region_two_region_example_witness :
  (0 <= 0 < 2 ^ 8 /\ 0 <= 2048 < 2 ^ 32 /\ 2048 mod 2048 = 0
   /\ 0 <= 0x1300 < 2 ^ 16 /\ 1 <> 0
   /\ 0 <> REGION_DATA_RAM_TEXT sample_platform
   /\ 0 < MPU_TYPE_REG_COUNT sample_platform (MPU_TYPE (reset_state 8))
   /\ u8 (0 + 1)
      < MPU_TYPE_REG_COUNT sample_platform (MPU_TYPE (reset_state 8)))
  /\ selected_slots
       (new_events (reset_state 8)
          (snd (mpu_config_region sample_platform 0 2048 1152 0x1300 1
                  (reset_state 8))))
     = [0; u8 (0 + 1)].
Proof.
  assert (H1 : 0 <= 0 < 2 ^ 8) by (vm_compute; intuition congruence).
  assert (H2 : 0 <= 2048 < 2 ^ 32) by (vm_compute; intuition congruence).
  assert (H3 : 2048 mod 2048 = 0) by reflexivity.
  assert (H4 : 0 <= 0x1300 < 2 ^ 16) by (vm_compute; intuition congruence).
  assert (H5 : 1 <> 0) by discriminate.
  assert (H6 : 0 <> REGION_DATA_RAM_TEXT sample_platform) by discriminate.
  assert (H7 : 0 < MPU_TYPE_REG_COUNT sample_platform
                     (MPU_TYPE (reset_state 8))) by reflexivity.
  assert (H8 : u8 (0 + 1) < MPU_TYPE_REG_COUNT sample_platform
                              (MPU_TYPE (reset_state 8))) by reflexivity.
  split; [repeat split; assumption || apply H1 || apply H2 || apply H4|].
  exact (proj1 (proj2 (proj2 (config_region_two_region_example
                  sample_platform 0 2048 0x1300 1 (reset_state 8))
                  H1 H2 H3 H4 H5 H6 H7 H8))).
Defined.

(** The worked example of the specification: 96 bytes at a base aligned
    to 128 bytes.  The request is refused, and no slot is selected. *)
Lemma config_region_96_bytes_refused :
  128 mod 128 = 0
  /\ mpu_config_region sample_platform 0 128 96 0x1300 1 (reset_state 8)
     = (neg_EC_ERROR_INVAL, reset_state 8)
  /\ fst (mpu_config_region sample_platform 0 128 96 0x1300 1
            (reset_state 8)) <> EC_SUCCESS
  /\ selected_slots
       (new_events (reset_state 8)
          (snd (mpu_config_region sample_platform 0 128 96 0x1300 1
                  (reset_state 8)))) = [].
Proof.
  split; [reflexivity|].
  split; [reflexivity|].
  split; [discriminate | reflexivity].
Qed.

(** ** The rollback lock *)



(** ** The boot sequence *)

(** C9.  When the type register reports no region, [mpu_pre_init] returns
    [EC_ERROR_HW_INTERNAL]; when it reports regions and the map is not
    unified, or their number is neither 8 nor 16, it returns
    [EC_ERROR_UNIMPLEMENTED].  Either way it returns in the state it was
    called in: no store and no barrier was issued. *)
Theorem pre_init_rejects_before_writing (p : platform) (st : mpu_state) :
  (MPU_TYPE_REG_COUNT p (MPU_TYPE st) = 0 ->
   mpu_pre_init p st = (EC_ERROR_HW_INTERNAL, st)
   /\ new_events st (snd (mpu_pre_init p st)) = [])
  /\ (MPU_TYPE_REG_COUNT p (MPU_TYPE st) <> 0 ->
      Z.land (MPU_TYPE st) (MPU_TYPE_UNIFIED_MASK p) <> 0
      \/ (MPU_TYPE_REG_COUNT p (MPU_TYPE st) <> 8
          /\ MPU_TYPE_REG_COUNT p (MPU_TYPE st) <> 16) ->
      mpu_pre_init p st = (EC_ERROR_UNIMPLEMENTED, st)
      /\ new_events st (snd (mpu_pre_init p st)) = []).
Proof.
  assert (Hnil : new_events st st = [])
    by (unfold new_events; apply skipn_all).
  unfold mpu_pre_init.
  cbv [bind ret has_mpu mpu_is_unified mpu_num_regions mpu_get_type rd].
  split.
  - intros H0. rewrite H0. cbn. auto.
  - intros Hn Hbad.
    destruct (MPU_TYPE_REG_COUNT p (MPU_TYPE st) =? 0) eqn:E0;
      [apply Z.eqb_eq in E0; contradiction|].
    cbn [negb].
    destruct Hbad as [Hu | [H8 H16]].
    + apply Z.eqb_neq in Hu. rewrite Hu. cbn. auto.
    + apply Z.eqb_neq in H8. apply Z.eqb_neq in H16.
      rewrite H8, H16. cbn [negb andb]. rewrite orb_true_r. cbn. auto.
Qed.

Lemma pre_init_rejects_before_writing_witness :
  (MPU_TYPE_REG_COUNT sample_platform (MPU_TYPE (reset_state 12)) <> 0
   /\ (Z.land (MPU_TYPE (reset_state 12))
         (MPU_TYPE_UNIFIED_MASK sample_platform) <> 0
       \/ (MPU_TYPE_REG_COUNT sample_platform (MPU_TYPE (reset_state 12)) <> 8
           /\ MPU_TYPE_REG_COUNT sample_platform (MPU_TYPE (reset_state 12))
              <> 16)))
  /\ mpu_pre_init sample_platform (reset_state 12)
     = (EC_ERROR_UNIMPLEMENTED, reset_state 12).
Proof.
  assert (H1 : MPU_TYPE_REG_COUNT sample_platform (MPU_TYPE (reset_state 12))
               <> 0) by (vm_compute; discriminate).
  assert (H2 : Z.land (MPU_TYPE (reset_state 12))
                 (MPU_TYPE_UNIFIED_MASK sample_platform) <> 0
               \/ (MPU_TYPE_REG_COUNT sample_platform
                     (MPU_TYPE (reset_state 12)) <> 8
                   /\ MPU_TYPE_REG_COUNT sample_platform
                        (MPU_TYPE (reset_state 12)) <> 16))
    by (right; split; vm_compute; discriminate).
  split; [split; assumption|].
  exact (proj1 (proj2 (pre_init_rejects_before_writing sample_platform
                         (reset_state 12)) H1 H2)).
Defined.

(** * Further properties of the functions of mpu.c *)

(** ** The programmer, one slot at a time *)

Lemma land_lnot_1 (x : Z) : Z.land x (Z.lnot 1) = x - x mod 2.
Proof.
  pose proof (Z.sub_landn_rlandn x 1) as H.
  change 1 with (Z.ones 1) in H at 2.
  rewrite Z.land_ones in H by lia.
  change (2 ^ 1) with 2 in H. unfold Z.lnot in H at 2.
  revert H. Z.div_mod_to_equations. lia.
Qed.

(** What the half word store that disables a region leaves in the size
    and attribute word: the word with its bit 0 cleared. *)
Lemma disabled_rasr_value (r : Z) :
  r / 2 ^ 16 * 2 ^ 16 + u16 (Z.land (u16 r) (Z.lnot 1)) = r - r mod 2.
Proof.
  rewrite land_lnot_1. unfold u16. change (2 ^ 16) with 65536.
  assert (H : (r mod 65536 - (r mod 65536) mod 2) mod 65536
              = r mod 65536 - (r mod 65536) mod 2).
  { apply Z.mod_small. Z.div_mod_to_equations. lia. }
  rewrite H. Z.div_mod_to_equations. lia.
Qed.

Section Slot.

Variable p : platform.

(** Whatever the outcome, a call of the programmer leaves the type and
    control registers and every other slot alone; when it succeeds, the
    region number register holds the slot. *)
Lemma update_region_frame region addr size_bit attr enable srd st :
  let st' :=
    snd (mpu_update_region p region addr size_bit attr enable srd st) in
  MPU_TYPE st' = MPU_TYPE st
  /\ MPU_CTRL st' = MPU_CTRL st
  /\ (forall j, j <> region -> regions st' j = regions st j)
  /\ (fst (mpu_update_region p region addr size_bit attr enable srd st)
        = EC_SUCCESS -> MPU_NUMBER st' = region).
Proof.
  unfold mpu_update_region.
  destruct (is_aligned addr (BIT size_bit)); cbn [negb];
    [|cbn; repeat split; auto; discriminate].
  cbv [bind ret mpu_num_regions mpu_get_type rd].
  destruct (region >=? _); [cbn; repeat split; auto; discriminate|].
  destruct (size_bit <? MPU_SIZE_BITS_MIN);
    [cbn; repeat split; auto; discriminate|].
  destruct (enable =? 0); cbn; repeat split; auto;
    intros j Hj; now rewrite ?set_region_other.
Qed.

(** The outcome of a call depends on the slot, the base, the size exponent
    and the region count, and on nothing else. *)
Lemma update_region_status region addr size_bit attr enable srd st
      attr' enable' srd' st' :
  MPU_TYPE st' = MPU_TYPE st ->
  fst (mpu_update_region p region addr size_bit attr' enable' srd' st')
  = fst (mpu_update_region p region addr size_bit attr enable srd st).
Proof.
  intros Hty. unfold mpu_update_region.
  destruct (is_aligned addr (BIT size_bit)); cbn [negb]; [|reflexivity].
  cbv [bind ret mpu_num_regions mpu_get_type rd]. rewrite Hty.
  destruct (region >=? _); [reflexivity|].
  destruct (size_bit <? MPU_SIZE_BITS_MIN); [reflexivity|].
  destruct (enable =? 0), (enable' =? 0); reflexivity.
Qed.

(** What a successful call with the enable flag clear leaves in the slot. *)
Lemma update_region_disabled region addr size_bit attr srd st :
  fst (mpu_update_region p region addr size_bit attr 0 srd st) = EC_SUCCESS ->
  regions (snd (mpu_update_region p region addr size_bit attr 0 srd st))
    region
  = {| RBAR := RBAR (regions st region);
       RASR := RASR (regions st region) - RASR (regions st region) mod 2 |}.
Proof.
  unfold mpu_update_region.
  destruct (is_aligned addr (BIT size_bit)); cbn [negb];
    [|cbn; discriminate].
  cbv [bind ret mpu_num_regions mpu_get_type rd].
  destruct (region >=? _); [cbn; discriminate|].
  destruct (size_bit <? MPU_SIZE_BITS_MIN); [cbn; discriminate|].
  intros _. cbn. rewrite set_region_same.
  unfold MPU_ATTR, MPU_SIZE, selected. cbn.
  rewrite disabled_rasr_value. reflexivity.
Qed.

End Slot.

(** X1.  Programming a slot twice with the same arguments leaves the
    registers as programming it once does, with the enable flag set or
    clear, accepted or refused; the answer is the same both times. *)
Theorem update_region_idempotent
    (p : platform) (region addr size_bit attr enable srd : Z)
    (st : mpu_state) :
  let once := mpu_update_region p region addr size_bit attr enable srd st in
  let twice :=
    mpu_update_region p region addr size_bit attr enable srd (snd once) in
  fst twice = fst once /\ same_registers (snd twice) (snd once).
Proof.
  intros once twice.
  destruct (update_region_frame p region addr size_bit attr enable srd st)
    as (Hty & _ & _ & _). fold once in Hty.
  assert (Hst : fst twice = fst once)
    by (apply update_region_status; exact Hty).
  split; [exact Hst|].
  destruct (update_region_cases p region addr size_bit attr enable srd st)
    as [[Hbad _] | (Hok & _)]; fold once in Hbad || fold once in Hok.
  - (* refused: nothing happened, twice *)
    assert (Hs : snd once = st) by (rewrite Hbad; reflexivity).
    subst twice. rewrite Hs. fold once. rewrite Hs.
    repeat split; reflexivity.
  - assert (Hok2 : fst twice = EC_SUCCESS) by (rewrite Hst; exact Hok).
    destruct (update_region_frame p region addr size_bit attr enable srd
                (snd once)) as (Hty2 & Hc2 & Hoth2 & Hn2).
    destruct (update_region_frame p region addr size_bit attr enable srd st)
      as (_ & _ & _ & Hn1).
    fold twice in Hty2, Hc2, Hoth2, Hn2. fold once in Hn1.
    split; [exact Hty2|]. split; [exact Hc2|].
    split; [rewrite (Hn2 Hok2), (Hn1 Hok); reflexivity|].
    intros i. destruct (Z.eq_dec i region) as [-> | Hne];
      [|apply Hoth2; exact Hne].
    destruct (Z.eq_dec enable 0) as [-> | Hen].
    + subst twice. rewrite update_region_disabled by exact Hok2.
      subst once. rewrite update_region_disabled by exact Hok.
      cbn [RBAR RASR]. f_equal.
      set (r := RASR (regions st region)).
      Z.div_mod_to_equations. lia.
    + destruct (update_region_effect p _ _ _ _ _ _ _ Hok2)
        as (_ & _ & _ & Hset2 & _).
      destruct (update_region_effect p _ _ _ _ _ _ _ Hok)
        as (_ & _ & _ & Hset1 & _).
      cbv zeta in Hset1, Hset2. fold once in Hset1. fold twice in Hset2.
      rewrite (Hset2 Hen), (Hset1 Hen). reflexivity.
Qed.

(** X2.  A successful call with the enable flag clear changes nothing of
    the slot but its enable bit: base, size exponent, sub-block mask and
    attributes read back as before, the region reads back disabled and
    protects no byte. *)
Theorem update_region_disable_keeps_fields
    (p : platform) (region addr size_bit attr srd : Z) (st : mpu_state) :
  fst (mpu_update_region p region addr size_bit attr 0 srd st) = EC_SUCCESS ->
  let st' := snd (mpu_update_region p region addr size_bit attr 0 srd st) in
  slot_encoding st' region
  = {| slot_index := region;
       base_address := base_address (slot_encoding st region);
       size_exponent := size_exponent (slot_encoding st region);
       subregion_disable_mask :=
         subregion_disable_mask (slot_encoding st region);
       attributes := attributes (slot_encoding st region);
       enabled := false |}
  /\ forall a, protects (slot_encoding st' region) a = false.
Proof.
  intros Hok st'.
  assert (E : slot_encoding st' region
              = {| slot_index := region;
                   base_address := base_address (slot_encoding st region);
                   size_exponent := size_exponent (slot_encoding st region);
                   subregion_disable_mask :=
                     subregion_disable_mask (slot_encoding st region);
                   attributes := attributes (slot_encoding st region);
                   enabled := false |}).
  { unfold slot_encoding. subst st'.
    rewrite update_region_disabled by exact Hok.
    cbn [RBAR RASR base_address size_exponent subregion_disable_mask
         attributes].
    set (r := RASR (regions st region)).
    assert (E1 : Z.shiftr (r - r mod 2) 1 = Z.shiftr r 1).
    { rewrite !Z.shiftr_div_pow2 by lia. change (2 ^ 1) with 2.
      Z.div_mod_to_equations. lia. }
    assert (E8 : Z.shiftr (r - r mod 2) 8 = Z.shiftr r 8).
    { rewrite !Z.shiftr_div_pow2 by lia. change (2 ^ 8) with 256.
      Z.div_mod_to_equations. lia. }
    assert (E16 : Z.shiftr (r - r mod 2) 16 = Z.shiftr r 16).
    { rewrite !Z.shiftr_div_pow2 by lia. change (2 ^ 16) with 65536.
      Z.div_mod_to_equations. lia. }
    assert (E0 : Z.testbit (r - r mod 2) 0 = false).
    { rewrite Z.bit0_odd.
      replace (r - r mod 2) with (0 + 2 * (r / 2))
        by (Z.div_mod_to_equations; lia).
      rewrite Z.odd_add_mul_2. reflexivity. }
    rewrite E1, E8, E16, E0. reflexivity. }
  split; [exact E|].
  intros a. rewrite E. reflexivity.
Qed.

Lemma update_region_disable_keeps_fields_witness :
  fst (mpu_update_region sample_platform 3 0 5 0 0 0
         (snd (mpu_update_region sample_platform 3 192 6 0x1300 1 0
                 (reset_state 8)))) = EC_SUCCESS
  /\ slot_encoding
       (snd (mpu_update_region sample_platform 3 0 5 0 0 0
               (snd (mpu_update_region sample_platform 3 192 6 0x1300 1 0
                       (reset_state 8))))) 3
     = {| slot_index := 3; base_address := 192; size_exponent := 6;
          subregion_disable_mask := 0; attributes := 0x1300;
          enabled := false |}.
Proof.
  assert (H : fst (mpu_update_region sample_platform 3 0 5 0 0 0
                     (snd (mpu_update_region sample_platform 3 192 6 0x1300
                             1 0 (reset_state 8)))) = EC_SUCCESS)
    by reflexivity.
  split; [exact H|].
  exact (proj1 (update_region_disable_keeps_fields sample_platform 3 0 5 0 0
                  (snd (mpu_update_region sample_platform 3 192 6 0x1300
                          1 0 (reset_state 8))) H)).
Defined.

(** ** Computations that program regions only *)

Lemma bracketed_app (b b' : bool) (l1 l2 : list event) :
  bracketed b l1 = Some b' -> bracketed b (l1 ++ l2) = bracketed b' l2.
Proof.
  revert b. induction l1 as [|e l1 IH]; intros b H.
  - cbn in H. injection H as ->. reflexivity.
  - destruct e as [|w r v|]; cbn in *.
    + apply IH. exact H.
    + destruct r, b; try discriminate; apply IH; exact H.
    + destruct b; try discriminate. apply IH. exact H.
Qed.

Lemma ctrl_stores_app (l1 l2 : list event) :
  ctrl_stores (l1 ++ l2) = ctrl_stores l1 ++ ctrl_stores l2.
Proof.
  induction l1 as [|e l1 IH]; [reflexivity|].
  destruct e as [|w r v|]; cbn; try exact IH.
  destruct r; cbn; rewrite ?IH; reflexivity.
Qed.

Lemma region_op_ret {A : Type} (a : A) : region_op (ret a).
Proof.
  intros st. cbn. repeat split.
  exists []. rewrite app_nil_r. repeat split.
Qed.

Lemma region_op_bind {A B : Type} (c : M A) (k : A -> M B) :
  region_op c -> (forall a, region_op (k a)) -> region_op (bind c k).
Proof.
  intros Hc Hk st. unfold bind.
  specialize (Hc st). destruct (c st) as [a st1]. cbn [snd] in Hc.
  destruct Hc as (Hty1 & Hct1 & evs1 & Htr1 & Hbr1 & Hcs1).
  destruct (Hk a st1) as (Hty2 & Hct2 & evs2 & Htr2 & Hbr2 & Hcs2).
  split; [congruence|]. split; [congruence|].
  exists (evs1 ++ evs2).
  split; [rewrite Htr2, Htr1, app_assoc; reflexivity|].
  split; [rewrite (bracketed_app _ _ _ _ Hbr1); exact Hbr2|].
  rewrite ctrl_stores_app, Hcs1, Hcs2. reflexivity.
Qed.

Lemma region_op_if {A : Type} (b : bool) (c1 c2 : M A) :
  region_op c1 -> region_op c2 -> region_op (if b then c1 else c2).
Proof. destruct b; auto. Qed.

Section RegionOps.

Variable p : platform.

Lemma region_op_update region addr size_bit attr enable srd :
  region_op (mpu_update_region p region addr size_bit attr enable srd).
Proof.
  intros st.
  destruct (update_region_frame p region addr size_bit attr enable srd st)
    as (Hty & Hct & _ & _).
  split; [exact Hty|]. split; [exact Hct|]. clear Hty Hct.
  unfold mpu_update_region.
  destruct (is_aligned addr (BIT size_bit)); cbn [negb];
    [|exists []; cbn; rewrite app_nil_r; repeat split].
  cbv [bind ret mpu_num_regions mpu_get_type rd].
  destruct (region >=? _);
    [exists []; cbn; rewrite app_nil_r; repeat split|].
  destruct (size_bit <? MPU_SIZE_BITS_MIN);
    [exists []; cbn; rewrite app_nil_r; repeat split|].
  destruct (enable =? 0); cbn; eexists; rewrite <- !app_assoc;
    (split; [reflexivity|]); split; reflexivity.
Qed.

Lemma region_op_config region addr size attr enable :
  region_op (mpu_config_region p region addr size attr enable).
Proof.
  unfold mpu_config_region.
  repeat (apply region_op_if; [apply region_op_ret|]).
  apply region_op_if; [apply region_op_update|].
  repeat (apply region_op_if; [apply region_op_ret|]).
  apply region_op_bind; [apply region_op_update|].
  intros rv. apply region_op_if; [apply region_op_ret|].
  apply region_op_if; [apply region_op_update | apply region_op_ret].
Qed.

Lemma region_op_lock_rollback lock : region_op (mpu_lock_rollback p lock).
Proof.
  unfold mpu_lock_rollback, mpu_num_regions, mpu_get_type.
  intros st. cbv [bind ret rd].
  destruct (_ <? _).
  - apply region_op_config.
  - apply (region_op_bind
             (mpu_config_region p (u8 (REGION_CHIP_RESERVED p))
                (rollback_region_start_address p)
                (rollback_region_total_size p / 2) (rollback_mpu_attr p)
                (u8 lock))); [apply region_op_config|].
    intros rv. apply region_op_if;
      [apply region_op_ret | apply region_op_config].
Qed.

Lemma region_op_disable_all n i : region_op (disable_all_regions p n i).
Proof.
  revert i. induction n as [|n IH]; intros i; cbn [disable_all_regions].
  - apply region_op_ret.
  - apply region_op_bind; [apply region_op_update|].
    intros rv. apply region_op_if; [apply region_op_ret | apply IH].
Qed.

End RegionOps.

(** X3.  Whatever its arguments and whatever it answers,
    [mpu_config_region] leaves the type and control registers alone, and
    the events it adds keep the barrier discipline: every store to a
    region register comes between an opening and a closing barrier, and
    no store goes to the control register. *)
Theorem config_region_barrier_discipline
    (p : platform) (region addr size attr enable : Z) (st : mpu_state) :
  let st' := snd (mpu_config_region p region addr size attr enable st) in
  MPU_TYPE st' = MPU_TYPE st
  /\ MPU_CTRL st' = MPU_CTRL st
  /\ bracketed false (new_events st st') = Some false
  /\ ctrl_stores (new_events st st') = [].
Proof.
  intros st'.
  destruct (region_op_config p region addr size attr enable st)
    as (Hty & Hct & evs & Htr & Hbr & Hcs).
  fold st' in Hty, Hct, Htr.
  rewrite (new_events_app _ _ _ Htr). auto.
Qed.

(** ** The encoder: what decides the answer, and what a refusal leaves *)

Section Outcome.

Variable p : platform.

(** The answer of [mpu_config_region] depends on the slot, the base, the
    length and the region count; attributes, enable flag and the contents
    of the region registers have no part in it. *)
Lemma config_region_status region addr size attr enable st
      attr' enable' st' :
  MPU_TYPE st' = MPU_TYPE st ->
  fst (mpu_config_region p region addr size attr' enable' st')
  = fst (mpu_config_region p region addr size attr enable st).
Proof.
  intros Hty. unfold mpu_config_region.
  destruct (size =? 0); [reflexivity|].
  destruct (config_size_bit size <? 5); [reflexivity|].
  destruct (POWER_OF_TWO size); [apply update_region_status; exact Hty|].
  destruct (config_size_bit size <? 7); [reflexivity|].
  destruct (negb _); [reflexivity|].
  destruct (negb _ && _); [reflexivity|].
  unfold bind, ret.
  pose proof (update_region_status p region addr
                (u8 (config_size_bit size + 1)) attr enable
                (u8 (Z.lnot (config_srd1 size))) st attr' enable'
                (u8 (Z.lnot (config_srd1 size))) st' Hty) as H1.
  pose proof (update_region_frame p region addr
                (u8 (config_size_bit size + 1)) attr enable
                (u8 (Z.lnot (config_srd1 size))) st) as (T1 & _).
  pose proof (update_region_frame p region addr
                (u8 (config_size_bit size + 1)) attr' enable'
                (u8 (Z.lnot (config_srd1 size))) st') as (T1' & _).
  destruct (mpu_update_region p region addr _ attr enable _ st)
    as [rv1 s1].
  destruct (mpu_update_region p region addr _ attr' enable' _ st')
    as [rv1' s1'].
  cbn [fst snd] in *. subst rv1'.
  destruct (negb (is_success rv1)); [reflexivity|].
  destruct (negb (config_srd2 size =? 0)); [|reflexivity].
  apply update_region_status. congruence.
Qed.

End Outcome.

(** X4.  [mpu_config_region] answers with success or with
    [-EC_ERROR_INVAL], never with another value.  A refusal leaves the
    machine as it was, with one exception: a length that needs two
    regions, whose first region has been programmed, is refused for want
    of the second slot ([region + 1] is not below the region count), and
    the first region stays programmed. *)
Theorem config_region_refusal
    (p : platform) (region addr size attr enable : Z) (st : mpu_state) :
  0 <= addr < 2 ^ 32 -> 0 <= size < 2 ^ 32 ->
  fst (mpu_config_region p region addr size attr enable st) <> EC_SUCCESS ->
  let r := mpu_config_region p region addr size attr enable st in
  let first :=
    mpu_update_region p region addr (config_size_bit size + 1) attr enable
      (u8 (Z.lnot (config_srd1 size))) st in
  fst r = neg_EC_ERROR_INVAL
  /\ (snd r = st
      \/ (POWER_OF_TWO size = false /\ config_srd2 size <> 0
          /\ fst first = EC_SUCCESS
          /\ MPU_TYPE_REG_COUNT p (MPU_TYPE st) <= u8 (region + 1)
          /\ snd r = snd first)).
Proof.
  intros Haddr Hsize. cbv zeta. unfold mpu_config_region.
  destruct (size =? 0) eqn:Hz; [cbn; intros H; contradiction|].
  apply Z.eqb_neq in Hz.
  assert (Hsz : 0 < size < 2 ^ 32) by lia.
  pose proof (log2_u32_bound size Hsz) as Hlog.
  rewrite <- config_size_bit_log2 in Hlog.
  destruct (config_size_bit size <? 5) eqn:H5; [cbn; auto|].
  destruct (POWER_OF_TWO size).
  { intros Hne.
    destruct (update_region_cases p region addr (u8 (config_size_bit size))
                attr enable 0 st) as [[Hbad _] | (Hok & _)];
      [|contradiction].
    cbv zeta in Hbad. rewrite Hbad. cbn. auto. }
  destruct (config_size_bit size <? 7) eqn:H7; [cbn; auto|].
  apply Z.ltb_ge in H7.
  destruct (Z.land size _ =? 0) eqn:Hres; cbn [negb]; [|cbn; auto].
  apply Z.eqb_eq in Hres.
  destruct (negb (config_srd2 size =? 0) && _) eqn:Hgate; [cbn; auto|].
  rewrite (u8_small (config_size_bit size + 1)) by lia.
  unfold bind, ret.
  destruct (update_region_cases p region addr (config_size_bit size + 1)
              attr enable (u8 (Z.lnot (config_srd1 size))) st)
    as [[Hbad _] | (Hok1 & Hal & _)]; cbv zeta in *.
  { rewrite Hbad. cbn. auto. }
  pose proof (update_region_frame p region addr (config_size_bit size + 1)
                attr enable (u8 (Z.lnot (config_srd1 size))) st)
    as (Hty1 & _).
  destruct (mpu_update_region p region addr (config_size_bit size + 1)
              attr enable (u8 (Z.lnot (config_srd1 size))) st)
    as [rv1 s1].
  cbn [fst snd] in *. subst rv1. cbn [is_success negb].
  destruct (config_srd2 size =? 0) eqn:Hs2; cbn [negb];
    [cbn; intros H; contradiction|].
  apply Z.eqb_neq in Hs2. cbn [negb andb] in Hgate.
  apply orb_false_iff in Hgate. destruct Hgate as [_ H10].
  apply Z.ltb_ge in H10.
  rewrite (u8_small (config_size_bit size - 2)) by lia.
  apply is_aligned_BIT_true in Hal; [|lia]. destruct Hal as [Hlt Hal].
  rewrite (decomp_second_base size Hsz H7 Hres addr Haddr Hal Hlt).
  intros Hne.
  destruct (update_region_cases p (u8 (region + 1))
              (addr + eighths1 size * (8 * 2 ^ (config_size_bit size - 5)))
              (config_size_bit size - 2) attr enable
              (u8 (Z.lnot (config_srd2 size))) s1)
    as [[Hbad [Hb | [Hb | Hb]]] | (Hok2 & _)]; cbv zeta in *;
    [| | |contradiction].
  - (* the base of the second region is aligned *)
    exfalso.
    destruct (decomp_pow_sb size Hsz H7 Hres) as (_ & E2 & E3).
    rewrite BIT_small, is_aligned_pow2 in Hb by lia.
    apply Z.eqb_neq in Hb. apply Hb.
    rewrite E2. rewrite E3 in Hal.
    set (T := 2 ^ (config_size_bit size - 5)) in *.
    assert (HT : 0 < T) by (apply pow2_pos; lia).
    rewrite Z.mod_add by lia.
    pose proof (Z.div_mod addr (64 * T) ltac:(lia)) as Hq.
    rewrite Hal, Z.add_0_r in Hq.
    rewrite Hq.
    replace (64 * T * (addr / (64 * T)))
      with (8 * (addr / (64 * T)) * (8 * T)) by ring.
    apply Z.mod_mul. lia.
  - rewrite Hbad. cbn [fst snd]. split; [reflexivity|].
    right. repeat split; try assumption. rewrite Hty1 in Hb. exact Hb.
  - exfalso. unfold MPU_SIZE_BITS_MIN in Hb. lia.
Qed.

Lemma config_region_refusal_witness :
  (0 <= 2048 < 2 ^ 32 /\ 0 <= 1152 < 2 ^ 32
   /\ fst (mpu_config_region sample_platform 7 2048 1152 0x1300 1
             (reset_state 8)) <> EC_SUCCESS)
  /\ fst (mpu_config_region sample_platform 7 2048 1152 0x1300 1
            (reset_state 8)) = neg_EC_ERROR_INVAL.
Proof.
  assert (H1 : 0 <= 2048 < 2 ^ 32) by (vm_compute; intuition congruence).
  assert (H2 : 0 <= 1152 < 2 ^ 32) by (vm_compute; intuition congruence).
  assert (H3 : fst (mpu_config_region sample_platform 7 2048 1152 0x1300 1
                      (reset_state 8)) <> EC_SUCCESS)
    by (vm_compute; discriminate).
  split; [split; [exact H1 | split; [exact H2 | exact H3]]|].
  exact (proj1 (config_region_refusal sample_platform 7 2048 1152 0x1300 1
                  (reset_state 8) H1 H2 H3)).
Defined.

(** ** The encoder as a function, and the registers read back *)

Lemma successor_slot_differs (region : Z) :
  0 <= region < 2 ^ 8 -> region <> u8 (region + 1).
Proof.
  intros H. unfold u8. change (2 ^ 8) with 256 in *.
  intros E. revert E. Z.div_mod_to_equations. lia.
Qed.

Section Accepted.

Variable p : platform.
Variables region addr size attr enable : Z.
Variable st : mpu_state.
Hypothesis region_range : 0 <= region < 2 ^ 8.
Hypothesis addr_range : 0 <= addr < 2 ^ 32.
Hypothesis size_range : 0 < size < 2 ^ 32.
Hypothesis accepted :
  fst (mpu_config_region p region addr size attr enable st) = EC_SUCCESS.

Let st' := snd (mpu_config_region p region addr size attr enable st).

(** The encodings of an accepted request, with their masks in the form
    "the eighths from [n] on are disabled". *)
Lemma accepted_encodings :
  (POWER_OF_TWO size = true /\ 5 <= (config_size_bit size) <= 31 /\ size = 2 ^ (config_size_bit size)
   /\ addr mod 2 ^ (config_size_bit size) = 0
   /\ config_slots region size = [region]
   /\ encode region addr size attr
      = [{| slot_index := region; base_address := addr;
            size_exponent := (config_size_bit size); subregion_disable_mask := 256 - 2 ^ 8;
            attributes := attr; enabled := true |}])
  \/ (POWER_OF_TWO size = false /\ 7 <= (config_size_bit size) <= 30
      /\ addr mod 2 ^ ((config_size_bit size) + 1) = 0
      /\ 4 <= eighths1 size <= 7
      /\ size = eighths1 size * 2 ^ ((config_size_bit size) - 2)
      /\ config_slots region size = [region]
      /\ encode region addr size attr
         = [{| slot_index := region; base_address := addr;
               size_exponent := (config_size_bit size) + 1;
               subregion_disable_mask := 256 - 2 ^ eighths1 size;
               attributes := attr; enabled := true |}])
  \/ (POWER_OF_TWO size = false /\ 10 <= (config_size_bit size) <= 30
      /\ addr mod 2 ^ ((config_size_bit size) + 1) = 0
      /\ 4 <= eighths1 size <= 7 /\ 1 <= eighths2 size <= 7
      /\ size = eighths1 size * 2 ^ ((config_size_bit size) - 2) + eighths2 size * 2 ^ ((config_size_bit size) - 5)
      /\ region <> REGION_DATA_RAM_TEXT p
      /\ config_slots region size = [region; u8 (region + 1)]
      /\ encode region addr size attr
         = [{| slot_index := region; base_address := addr;
               size_exponent := (config_size_bit size) + 1;
               subregion_disable_mask := 256 - 2 ^ eighths1 size;
               attributes := attr; enabled := true |};
            {| slot_index := u8 (region + 1);
               base_address := addr + eighths1 size * 2 ^ ((config_size_bit size) - 2);
               size_exponent := (config_size_bit size) - 2;
               subregion_disable_mask := 256 - 2 ^ eighths2 size;
               attributes := attr; enabled := true |}]).
Proof.
  destruct (config_region_shapes p region addr size attr enable st
              size_range accepted)
    as [(Hpow & Hsb & Heq) | [(Hpow & Hsb & Hres & Hs2 & Heq)
                             | (Hpow & Hsb & Hres & Hs2 & Hnot & Hok1 & Heq)]].
  - left.
    pose proof accepted as Hok. rewrite Heq in Hok.
    destruct (update_region_cases p region addr (config_size_bit size) attr enable 0 st)
      as [[Hbad _] | (_ & Hal & _)];
      [cbv zeta in Hbad; rewrite Hbad in Hok; discriminate|].
    apply is_aligned_BIT_true in Hal; [|lia].
    pose proof (POWER_OF_TWO_true size Hpow) as [_ Hp2].
    rewrite <- config_size_bit_log2 in Hp2.
    unfold config_slots, encode. rewrite Hpow. cbn [orb].
    rewrite u8_small by lia. tauto.
  - right. left.
    assert (H7 : 7 <= config_size_bit size) by lia.
    pose proof accepted as Hok. rewrite Heq in Hok.
    destruct (update_region_cases p region addr ((config_size_bit size) + 1) attr enable
                (u8 (Z.lnot (config_srd1 size))) st)
      as [[Hbad _] | (_ & Hal & _)];
      [cbv zeta in Hbad; rewrite Hbad in Hok; discriminate|].
    apply is_aligned_BIT_true in Hal; [|lia]. destruct Hal as [Hlt Hal].
    destruct (decomp_sum size size_range H7 Hres) as (He1 & He2 & Hsum).
    destruct (decomp_pow_sb size size_range H7 Hres) as (_ & E2 & _).
    pose proof (proj1 (decomp_srd2_zero size size_range H7 Hres) Hs2) as Hz.
    rewrite Hz in Hsum.
    unfold config_slots, encode. rewrite Hpow, Hs2.
    cbn [orb Z.eqb].
    rewrite (decomp_srd1 size size_range H7 Hres).
    rewrite u8_small by lia.
    repeat split; try lia; try reflexivity.
  - right. right.
    assert (H7 : 7 <= config_size_bit size) by lia.
    destruct (update_region_cases p region addr ((config_size_bit size) + 1) attr enable
                (u8 (Z.lnot (config_srd1 size))) st)
      as [[Hbad _] | (_ & Hal & _)];
      [cbv zeta in Hbad; rewrite Hbad in Hok1; discriminate|].
    apply is_aligned_BIT_true in Hal; [|lia]. destruct Hal as [Hlt Hal].
    destruct (decomp_sum size size_range H7 Hres) as (He1 & He2 & Hsum).
    destruct (decomp_pow_sb size size_range H7 Hres) as (_ & E2 & _).
    assert (Hk : 1 <= eighths2 size).
    { destruct (Z.eq_dec (eighths2 size) 0) as [E | E]; [|lia].
      exfalso. apply Hs2.
      apply (decomp_srd2_zero size size_range H7 Hres), E. }
    unfold config_slots, encode. rewrite Hpow.
    apply Z.eqb_neq in Hs2. rewrite Hs2. cbn [orb].
    rewrite (decomp_second_base size size_range H7 Hres addr addr_range
               Hal Hlt).
    rewrite (decomp_srd1 size size_range H7 Hres).
    rewrite (decomp_srd2 size size_range H7 Hres).
    rewrite (u8_small (config_size_bit size + 1)),
      (u8_small (config_size_bit size - 2)) by lia.
    rewrite E2.
    repeat split; try lia; try reflexivity; try assumption.
Qed.

(** The slots that an accepted request selects, and what else it leaves
    alone. *)
Lemma accepted_slots :
  selected_slots (new_events st st') = config_slots region size
  /\ agree_except (config_slots region size) st st'
  /\ MPU_NUMBER st' = last (config_slots region size) region.
Proof.
  pose proof (successor_slot_differs region region_range) as Hne.
  destruct (region_op_config p region addr size attr enable st)
    as (Hty & Hct & _). fold st' in Hty, Hct.
  destruct (config_region_shapes p region addr size attr enable st
              size_range accepted)
    as [(Hpow & Hsb & Heq) | [(Hpow & Hsb & Hres & Hs2 & Heq)
                             | (Hpow & Hsb & Hres & Hs2 & Hnot & Hok1 & Heq)]].
  - pose proof accepted as Hok. rewrite Heq in Hok.
    destruct (update_region_effect p _ _ _ _ _ _ _ Hok)
      as (_ & (evs & Htr & Hsel) & Hoth & _).
    destruct (update_region_frame p region addr (config_size_bit size) attr enable 0 st)
      as (_ & _ & _ & Hn).
    unfold config_slots. rewrite Hpow. cbn [orb last].
    subst st'. rewrite Heq in *.
    rewrite (new_events_app _ _ _ Htr).
    split; [exact Hsel|]. split; [|exact (Hn Hok)].
    split; [symmetry; exact Hty|]. split; [symmetry; exact Hct|].
    intros i Hi. symmetry. apply Hoth. cbn in Hi. intuition.
  - pose proof accepted as Hok. rewrite Heq in Hok.
    destruct (update_region_effect p _ _ _ _ _ _ _ Hok)
      as (_ & (evs & Htr & Hsel) & Hoth & _).
    destruct (update_region_frame p region addr ((config_size_bit size) + 1) attr enable
                (u8 (Z.lnot (config_srd1 size))) st) as (_ & _ & _ & Hn).
    unfold config_slots. rewrite Hpow, Hs2. cbn [orb Z.eqb last].
    subst st'. rewrite Heq in *.
    rewrite (new_events_app _ _ _ Htr).
    split; [exact Hsel|]. split; [|exact (Hn Hok)].
    split; [symmetry; exact Hty|]. split; [symmetry; exact Hct|].
    intros i Hi. symmetry. apply Hoth. cbn in Hi. intuition.
  - pose proof accepted as Hok. rewrite Heq in Hok.
    destruct (update_region_effect p _ _ _ _ _ _ _ Hok1)
      as (_ & (evs1 & Htr1 & Hsel1) & Hoth1 & _).
    destruct (update_region_effect p _ _ _ _ _ _ _ Hok)
      as (_ & (evs2 & Htr2 & Hsel2) & Hoth2 & _).
    destruct (update_region_frame p (u8 (region + 1))
                (u32 (addr + u32 (Z.shiftl 1 ((config_size_bit size) - 2) * config_blocks size)))
                ((config_size_bit size) - 2) attr enable (u8 (Z.lnot (config_srd2 size)))
                (snd (mpu_update_region p region addr ((config_size_bit size) + 1) attr enable
                        (u8 (Z.lnot (config_srd1 size))) st)))
      as (_ & _ & _ & Hn).
    cbv zeta in Htr1, Hoth1, Htr2, Hoth2.
    unfold config_slots. rewrite Hpow.
    apply Z.eqb_neq in Hs2. rewrite Hs2. cbn [orb last].
    subst st'. rewrite Heq in *.
    assert (Htr : trace (snd (mpu_update_region p (u8 (region + 1))
                    (u32 (addr + u32 (Z.shiftl 1 ((config_size_bit size) - 2)
                                      * config_blocks size)))
                    ((config_size_bit size) - 2) attr enable (u8 (Z.lnot (config_srd2 size)))
                    (snd (mpu_update_region p region addr ((config_size_bit size) + 1) attr
                            enable (u8 (Z.lnot (config_srd1 size))) st))))
                  = trace st ++ (evs1 ++ evs2))
      by (rewrite Htr2, Htr1, app_assoc; reflexivity).
    rewrite (new_events_app _ _ _ Htr), selected_slots_app, Hsel1, Hsel2.
    split; [reflexivity|]. split; [|exact (Hn Hok)].
    split; [symmetry; exact Hty|]. split; [symmetry; exact Hct|].
    intros i Hi. cbn in Hi.
    rewrite Hoth2, Hoth1 by intuition. reflexivity.
Qed.

End Accepted.

Lemma u8_range (x : Z) : 0 <= u8 x < 2 ^ 8.
Proof. unfold u8. apply Z.mod_pos_bound. reflexivity. Qed.

(** The encoding that a slot holds after an accepted call with the enable
    flag set. *)
Lemma slot_after_update p i addr x attr enable srd st st' :
  0 <= attr < 2 ^ 16 -> 0 <= srd < 2 ^ 8 -> 1 <= x <= 32 -> enable <> 0 ->
  regions st' i
  = regions (snd (mpu_update_region p i addr x attr enable srd st)) i ->
  fst (mpu_update_region p i addr x attr enable srd st) = EC_SUCCESS ->
  slot_encoding st' i
  = {| slot_index := i; base_address := addr; size_exponent := x;
       subregion_disable_mask := srd; attributes := attr;
       enabled := true |}.
Proof.
  intros Ha Hs Hx He Hreg Hok.
  destruct (update_region_effect p _ _ _ _ _ _ _ Hok) as (_ & _ & _ & Hset & _).
  specialize (Hset He). cbv zeta in Hset. rewrite <- Hreg in Hset.
  apply slot_encoding_programmed; assumption.
Qed.

(** What the slots of an accepted request read back. *)
Lemma accepted_readback
    (p : platform) (region addr size attr enable : Z) (st : mpu_state) :
  0 <= region < 2 ^ 8 -> 0 < size < 2 ^ 32 -> 0 <= attr < 2 ^ 16 ->
  enable <> 0 ->
  fst (mpu_config_region p region addr size attr enable st) = EC_SUCCESS ->
  map (slot_encoding
         (snd (mpu_config_region p region addr size attr enable st)))
      (config_slots region size)
  = encode region addr size attr.
Proof.
  intros Hregion Hsize Hattr Hen Hok.
  pose proof (successor_slot_differs region Hregion) as Hne.
  destruct (config_region_shapes p region addr size attr enable st Hsize Hok)
    as [(Hpow & Hsb & Heq) | [(Hpow & Hsb & Hres & Hs2 & Heq)
                             | (Hpow & Hsb & Hres & Hs2 & Hnot & Hok1 & Heq)]].
  - unfold config_slots, encode. rewrite Hpow. cbn [orb map].
    rewrite u8_small by lia. rewrite Heq in *.
    f_equal. apply (slot_after_update p region addr (config_size_bit size)
                      attr enable 0 st); try assumption; try lia;
      reflexivity.
  - unfold config_slots, encode. rewrite Hpow, Hs2. cbn [orb Z.eqb map].
    rewrite u8_small by lia. rewrite Heq in *.
    f_equal. apply (slot_after_update p region addr
                      (config_size_bit size + 1) attr enable
                      (u8 (Z.lnot (config_srd1 size))) st);
      try assumption; try lia; try reflexivity.
    apply u8_range.
  - unfold config_slots, encode. rewrite Hpow.
    apply Z.eqb_neq in Hs2. rewrite Hs2. cbn [orb map].
    rewrite (u8_small (config_size_bit size + 1)),
      (u8_small (config_size_bit size - 2)) by lia.
    rewrite Heq in *.
    destruct (update_region_effect p _ _ _ _ _ _ _ Hok)
      as (_ & _ & Hoth2 & _). cbv zeta in Hoth2.
    f_equal; [|f_equal].
    + apply (slot_after_update p region addr (config_size_bit size + 1)
               attr enable (u8 (Z.lnot (config_srd1 size))) st);
        try assumption; try lia; [apply u8_range|].
      apply Hoth2. exact Hne.
    + apply (slot_after_update p (u8 (region + 1)) _
               (config_size_bit size - 2) attr enable
               (u8 (Z.lnot (config_srd2 size)))
               (snd (mpu_update_region p region addr
                       (config_size_bit size + 1) attr enable
                       (u8 (Z.lnot (config_srd1 size))) st)));
        try assumption; try lia; try reflexivity.
      apply u8_range.
Qed.

(** X5.  After an accepted request with the enable flag set, the
    encodings read back from the slots that the request writes are the
    encodings that the function [encode] computes from slot, base, length
    and attributes alone. *)
Theorem config_region_readback
    (p : platform) (region addr size attr enable : Z) (st : mpu_state) :
  0 <= region < 2 ^ 8 -> 0 < size < 2 ^ 32 -> 0 <= attr < 2 ^ 16 ->
  enable <> 0 ->
  fst (mpu_config_region p region addr size attr enable st) = EC_SUCCESS ->
  map (slot_encoding
         (snd (mpu_config_region p region addr size attr enable st)))
      (config_slots region size)
  = encode region addr size attr.
Proof.
  intros Hregion Hsize Hattr Hen Hok.
  exact (accepted_readback p region addr size attr enable st Hregion Hsize
           Hattr Hen Hok).
Qed.

Lemma config_region_readback_witness :
  (0 <= 0 < 2 ^ 8 /\ 0 < 1152 < 2 ^ 32 /\ 0 <= 0x1300 < 2 ^ 16 /\ 1 <> 0
   /\ fst (mpu_config_region sample_platform 0 2048 1152 0x1300 1
             (reset_state 8)) = EC_SUCCESS)
  /\ map (slot_encoding
            (snd (mpu_config_region sample_platform 0 2048 1152 0x1300 1
                    (reset_state 8))))
         (config_slots 0 1152)
     = encode 0 2048 1152 0x1300.
Proof.
  assert (H1 : 0 <= 0 < 2 ^ 8) by (vm_compute; intuition congruence).
  assert (H2 : 0 < 1152 < 2 ^ 32) by (vm_compute; intuition congruence).
  assert (H3 : 0 <= 0x1300 < 2 ^ 16) by (vm_compute; intuition congruence).
  assert (H4 : 1 <> 0) by discriminate.
  assert (H5 : fst (mpu_config_region sample_platform 0 2048 1152 0x1300 1
                      (reset_state 8)) = EC_SUCCESS) by reflexivity.
  split; [split; [exact H1 | split; [exact H2 | split; [exact H3
          | split; [exact H4 | exact H5]]]]|].
  exact (config_region_readback sample_platform 0 2048 1152 0x1300 1
           (reset_state 8) H1 H2 H3 H4 H5).
Defined.

Section EncodeFacts.

Variable p : platform.
Variables region addr size attr enable : Z.
Variable st : mpu_state.
Hypothesis region_range : 0 <= region < 2 ^ 8.
Hypothesis addr_range : 0 <= addr < 2 ^ 32.
Hypothesis size_range : 0 < size < 2 ^ 32.
Hypothesis accepted :
  fst (mpu_config_region p region addr size attr enable st) = EC_SUCCESS.

(** The encodings of an accepted request protect the requested range and
    nothing else. *)
Lemma encode_cover (a : Z) :
  existsb (fun e => protects e a) (encode region addr size attr) = true
  <-> addr <= a < addr + size.
Proof.
  destruct (accepted_encodings p region addr size attr enable st
              region_range addr_range size_range accepted)
    as [(_ & Hsb & Hsz & _ & _ & ->)
       | [(_ & Hsb & _ & He1 & Hsz & _ & ->)
         | (_ & Hsb & _ & He1 & He2 & Hsz & _ & _ & ->)]];
    cbn [existsb]; rewrite ?orb_false_r, ?orb_true_iff.
  - rewrite protects_prefix by lia.
    replace (8 * 2 ^ (config_size_bit size - 3)) with size; [tauto|].
    rewrite Hsz at 1.
    replace (config_size_bit size) with (3 + (config_size_bit size - 3))
      at 1 by lia.
    rewrite Z.pow_add_r by lia. reflexivity.
  - rewrite protects_prefix by lia.
    replace (config_size_bit size + 1 - 3) with (config_size_bit size - 2)
      by lia.
    rewrite <- Hsz. tauto.
  - rewrite !protects_prefix by lia.
    replace (config_size_bit size + 1 - 3) with (config_size_bit size - 2)
      by lia.
    replace (config_size_bit size - 2 - 3) with (config_size_bit size - 5)
      by lia.
    pose proof (pow2_pos (config_size_bit size - 5) ltac:(lia)).
    pose proof (pow2_pos (config_size_bit size - 2) ltac:(lia)).
    nia.
Qed.

End EncodeFacts.

(** ** Which requests are accepted *)

(** The converse of [residual_zero_mod]: a length below [2^(n+6)] that is
    a multiple of [2^n] passes the verification. *)
Lemma mod_zero_residual (size n : Z) :
  0 <= n -> n + 6 <= 32 -> 0 <= size < 2 ^ (n + 6) -> size mod 2 ^ n = 0 ->
  Z.land size (u32 (Z.lnot (Z.shiftl 63 n))) = 0.
Proof.
  intros Hn Hn6 Hsize Hmod.
  apply Z.bits_inj'. intros i Hi.
  rewrite Z.land_spec, Z.bits_0.
  destruct (Z.lt_ge_cases i n) as [Hlt | Hge].
  - rewrite <- Z.land_ones in Hmod by lia.
    assert (Hb : Z.testbit (Z.land size (Z.ones n)) i = false)
      by (rewrite Hmod; apply Z.bits_0).
    rewrite Z.land_spec, Z.ones_spec_low, andb_true_r in Hb by lia.
    rewrite Hb. reflexivity.
  - destruct (Z.lt_ge_cases i (n + 6)) as [Hlt6 | Hge6].
    + unfold u32.
      rewrite Z.mod_pow2_bits_low, Z.lnot_spec, Z.shiftl_spec by lia.
      change 63 with (Z.ones 6). rewrite Z.ones_spec_low by lia.
      apply andb_false_r.
    + rewrite <- (Z.mod_small size (2 ^ (n + 6))) by assumption.
      rewrite Z.mod_pow2_bits_high by lia. reflexivity.
Qed.

Lemma aligned_fits (a n : Z) :
  0 <= a < 2 ^ 32 -> 0 <= n <= 32 -> a mod 2 ^ n = 0 -> a + 2 ^ n <= 2 ^ 32.
Proof.
  intros Ha Hn Hmod.
  pose proof (pow2_pos n ltac:(lia)) as Hp.
  assert (Hm : 2 ^ 32 mod 2 ^ n = 0).
  { replace 32 with (n + (32 - n)) by lia.
    rewrite Z.pow_add_r by lia. rewrite Z.mul_comm. apply Z.mod_mul. lia. }
  pose proof (Z.div_mod a (2 ^ n) ltac:(lia)) as Hq.
  pose proof (Z.div_mod (2 ^ 32) (2 ^ n) ltac:(lia)) as Hq2.
  rewrite Hmod, Z.add_0_r in Hq. rewrite Hm, Z.add_0_r in Hq2.
  set (P := 2 ^ n) in *. set (q := a / P) in *. set (q2 := 2 ^ 32 / P) in *.
  assert (q < q2) by nia. nia.
Qed.

(** A multiple of the region size, moved by whole eighths, is a multiple
    of the eighth. *)
Lemma eighth_aligned (addr k x : Z) :
  3 <= x -> addr mod 2 ^ x = 0 -> (addr + k * 2 ^ (x - 3)) mod 2 ^ (x - 3) = 0.
Proof.
  intros Hx Hal.
  pose proof (pow2_pos (x - 3) ltac:(lia)) as Hp.
  assert (E : 2 ^ x = 8 * 2 ^ (x - 3)).
  { replace x with (3 + (x - 3)) at 1 by lia.
    rewrite Z.pow_add_r by lia. reflexivity. }
  rewrite E in Hal. set (U := 2 ^ (x - 3)) in *.
  rewrite Z.mod_add by lia.
  pose proof (Z.div_mod addr (8 * U) ltac:(lia)) as Hq.
  rewrite Hal, Z.add_0_r in Hq. rewrite Hq.
  replace (8 * U * (addr / (8 * U))) with (8 * (addr / (8 * U)) * U) by ring.
  apply Z.mod_mul. lia.
Qed.

Section InRange.

Variable p : platform.
Variables region addr size attr enable : Z.
Variable st : mpu_state.
Hypothesis size_range : 0 < size < 2 ^ 32.
Hypothesis accepted :
  fst (mpu_config_region p region addr size attr enable st) = EC_SUCCESS.

(** The slots of an accepted request are below the region count. *)
Lemma accepted_slots_in_range :
  Forall (fun i => i < MPU_TYPE_REG_COUNT p (MPU_TYPE st))
         (config_slots region size).
Proof.
  destruct (config_region_shapes p region addr size attr enable st
              size_range accepted)
    as [(Hpow & Hsb & Heq) | [(Hpow & Hsb & Hres & Hs2 & Heq)
                             | (Hpow & Hsb & Hres & Hs2 & Hnot & Hok1 & Heq)]];
    pose proof accepted as Hok; rewrite Heq in Hok.
  - unfold config_slots. rewrite Hpow. cbn [orb].
    destruct (update_region_cases p region addr (config_size_bit size)
                attr enable 0 st) as [[Hbad _] | (_ & _ & Hr & _)];
      [cbv zeta in Hbad; rewrite Hbad in Hok; discriminate|].
    repeat constructor. exact Hr.
  - unfold config_slots. rewrite Hpow, Hs2. cbn [orb Z.eqb].
    destruct (update_region_cases p region addr (config_size_bit size + 1)
                attr enable (u8 (Z.lnot (config_srd1 size))) st)
      as [[Hbad _] | (_ & _ & Hr & _)];
      [cbv zeta in Hbad; rewrite Hbad in Hok; discriminate|].
    repeat constructor. exact Hr.
  - unfold config_slots. rewrite Hpow.
    apply Z.eqb_neq in Hs2. rewrite Hs2. cbn [orb].
    destruct (update_region_cases p region addr (config_size_bit size + 1)
                attr enable (u8 (Z.lnot (config_srd1 size))) st)
      as [[Hbad _] | (_ & _ & Hr & _)];
      [cbv zeta in Hbad; rewrite Hbad in Hok1; discriminate|].
    destruct (update_region_frame p region addr (config_size_bit size + 1)
                attr enable (u8 (Z.lnot (config_srd1 size))) st)
      as (Hty & _).
    match type of Hok with
    | fst (mpu_update_region p ?r ?a ?x ?at' ?en ?sr ?s) = _ =>
        destruct (update_region_cases p r a x at' en sr s)
          as [[Hbad _] | (_ & _ & Hr2 & _)];
          [cbv zeta in Hbad; rewrite Hbad in Hok; discriminate|]
    end.
    cbv zeta in Hty. rewrite Hty in Hr2.
    repeat constructor; assumption.
Qed.

End InRange.

(** X6.  Exactly which requests of non-zero length are accepted, for the
    lengths whose region has at most [2^31] bytes: a power of two, or a
    length below [2^31].  (For the other lengths the alignment test
    shifts by 32, which C leaves undefined.)  The slot must be below the
    region count, and either the length is a power of two of at least 32
    bytes and the base a multiple of it; or
    the length, with leading bit [size_bit] from 7 to 30, is a multiple
    of [2^(size_bit-5)] and the base a multiple of [2^(size_bit+1)], and
    then either the length is a whole number of eighths [2^(size_bit-2)]
    of that region, or [size_bit] is at least 10, the slot is not
    [REGION_DATA_RAM_TEXT] and the next slot is below the region count
    too. *)
Theorem config_region_accepts_iff
    (p : platform) (region addr size attr enable : Z) (st : mpu_state) :
  0 <= region < 2 ^ 8 -> 0 <= addr < 2 ^ 32 -> 0 < size < 2 ^ 32 ->
  POWER_OF_TWO size = true \/ size < 2 ^ 31 ->
  let size_bit := config_size_bit size in
  let count := MPU_TYPE_REG_COUNT p (MPU_TYPE st) in
  fst (mpu_config_region p region addr size attr enable st) = EC_SUCCESS
  <-> region < count
      /\ ((POWER_OF_TWO size = true /\ 5 <= size_bit
           /\ addr mod 2 ^ size_bit = 0)
          \/ (POWER_OF_TWO size = false /\ 7 <= size_bit <= 30
              /\ size mod 2 ^ (size_bit - 5) = 0
              /\ addr mod 2 ^ (size_bit + 1) = 0
              /\ (size mod 2 ^ (size_bit - 2) = 0
                  \/ (10 <= size_bit
                      /\ region <> REGION_DATA_RAM_TEXT p
                      /\ u8 (region + 1) < count)))).
Proof.
  intros Hregion Haddr Hsize _ size_bit count.
  pose proof (log2_u32_bound size Hsize) as Hlog.
  rewrite <- config_size_bit_log2 in Hlog. fold size_bit in Hlog.
  split.
  - intros Hok.
    pose proof (accepted_slots_in_range p region addr size attr enable st
                  Hsize Hok) as Hin.
    destruct (accepted_encodings p region addr size attr enable st
                Hregion Haddr Hsize Hok)
      as [(Hpow & Hsb & Hsz & Hal & Hsl & _)
         | [(Hpow & Hsb & Hal & He1 & Hsz & Hsl & _)
           | (Hpow & Hsb & Hal & He1 & He2 & Hsz & Hnot & Hsl & _)]];
      fold size_bit in Hsb, Hsz, Hal; rewrite Hsl in Hin.
    + split; [exact (Forall_inv Hin)|]. left.
      repeat split; try assumption; lia.
    + split; [exact (Forall_inv Hin)|]. right.
      pose proof (pow2_pos (size_bit - 5) ltac:(lia)) as HT.
      assert (E : 2 ^ (size_bit - 2) = 8 * 2 ^ (size_bit - 5)).
      { replace (size_bit - 2) with (3 + (size_bit - 5)) by lia.
        rewrite Z.pow_add_r by lia. reflexivity. }
      repeat split; try assumption; try lia.
      * rewrite Hsz, E.
        replace (eighths1 size * (8 * 2 ^ (size_bit - 5)))
          with (eighths1 size * 8 * 2 ^ (size_bit - 5)) by ring.
        apply Z.mod_mul. lia.
      * left. rewrite Hsz. apply Z.mod_mul.
        pose proof (pow2_pos (size_bit - 2) ltac:(lia)). lia.
    + pose proof (Forall_inv (Forall_inv_tail Hin)) as Hr2. cbv beta in Hr2.
      split; [exact (Forall_inv Hin)|]. right.
      pose proof (pow2_pos (size_bit - 5) ltac:(lia)) as HT.
      assert (E : 2 ^ (size_bit - 2) = 8 * 2 ^ (size_bit - 5)).
      { replace (size_bit - 2) with (3 + (size_bit - 5)) by lia.
        rewrite Z.pow_add_r by lia. reflexivity. }
      repeat split; try assumption; try lia.
      * rewrite Hsz, E.
        replace (eighths1 size * (8 * 2 ^ (size_bit - 5))
                 + eighths2 size * 2 ^ (size_bit - 5))
          with ((eighths1 size * 8 + eighths2 size) * 2 ^ (size_bit - 5))
          by ring.
        apply Z.mod_mul. lia.
  - intros (Hr & [(Hpow & H5 & Hal) | (Hpow & Hsb & Hmod & Hal & Hsecond)]).
    + unfold mpu_config_region. fold size_bit.
      destruct (size =? 0) eqn:Hz; [apply Z.eqb_eq in Hz; lia|].
      destruct (size_bit <? 5) eqn:Hlt; [apply Z.ltb_lt in Hlt; lia|].
      rewrite Hpow, u8_small by lia.
      apply update_region_accepts;
        [|exact Hr | unfold MPU_SIZE_BITS_MIN; lia].
      rewrite BIT_small, is_aligned_pow2 by lia.
      apply Z.eqb_eq. exact Hal.
    + assert (H7 : 7 <= config_size_bit size) by (fold size_bit; lia).
      pose proof (pow2_pos (size_bit - 5) ltac:(lia)) as HT.
      assert (Hlt64 : size < 2 ^ (size_bit - 5 + 6)).
      { pose proof (Z.log2_spec size ltac:(lia)) as Hl.
        rewrite <- config_size_bit_log2 in Hl. fold size_bit in Hl.
        replace (size_bit - 5 + 6) with (Z.succ size_bit) by lia. lia. }
      assert (Hres : Z.land size
                       (u32 (Z.lnot (Z.shiftl 63 (config_size_bit size - 5))))
                     = 0).
      { fold size_bit. apply mod_zero_residual; lia. }
      destruct (decomp_sum size Hsize H7 Hres) as (He1 & He2 & Hsum).
      destruct (decomp_pow_sb size Hsize H7 Hres) as (_ & E2 & _).
      fold size_bit in Hsum, E2.
      assert (Hal' : is_aligned addr (BIT (size_bit + 1)) = true).
      { rewrite BIT_small, is_aligned_pow2 by lia.
        apply Z.eqb_eq. exact Hal. }
      assert (Hok1 : forall srd,
                 fst (mpu_update_region p region addr (size_bit + 1) attr
                        enable srd st) = EC_SUCCESS).
      { intros srd. apply update_region_accepts;
          [exact Hal' | exact Hr | unfold MPU_SIZE_BITS_MIN; lia]. }
      unfold mpu_config_region. fold size_bit.
      destruct (size =? 0) eqn:Hz; [apply Z.eqb_eq in Hz; lia|].
      destruct (size_bit <? 5) eqn:Hlt5; [apply Z.ltb_lt in Hlt5; lia|].
      rewrite Hpow.
      destruct (size_bit <? 7) eqn:Hlt7; [apply Z.ltb_lt in Hlt7; lia|].
      fold size_bit in Hres. rewrite Hres. cbn [Z.eqb negb].
      rewrite (u8_small (size_bit + 1)) by lia.
      unfold bind, ret.
      specialize (Hok1 (u8 (Z.lnot (config_srd1 size)))).
      pose proof (update_region_frame p region addr (size_bit + 1) attr
                    enable (u8 (Z.lnot (config_srd1 size))) st)
        as (Hty1 & _).
      destruct (config_srd2 size =? 0) eqn:Hs2; cbn [negb andb].
      * destruct (mpu_update_region p region addr (size_bit + 1) attr enable
                    (u8 (Z.lnot (config_srd1 size))) st) as [rv1 s1].
        cbn [fst] in Hok1. subst rv1. reflexivity.
      * apply Z.eqb_neq in Hs2.
        assert (Hk : eighths2 size <> 0).
        { intros E. apply Hs2.
          apply (decomp_srd2_zero size Hsize H7 Hres), E. }
        destruct Hsecond as [Hwhole | (H10 & Hnot & Hr2)].
        { exfalso. apply Hk.
          rewrite Hsum, E2 in Hwhole.
          rewrite Z.add_comm, Z.mod_add in Hwhole by lia.
          rewrite Z.mod_small in Hwhole by nia. nia. }
        apply Z.eqb_neq in Hnot. rewrite Hnot.
        destruct (size_bit <? 10) eqn:Hlt10; [apply Z.ltb_lt in Hlt10; lia|].
        cbn [orb].
        destruct (mpu_update_region p region addr (size_bit + 1) attr enable
                    (u8 (Z.lnot (config_srd1 size))) st) as [rv1 s1].
        cbn [fst snd] in Hok1, Hty1. subst rv1. cbn [is_success negb].
        rewrite (u8_small (size_bit - 2)) by lia.
        apply update_region_accepts;
          [|rewrite Hty1; exact Hr2 | unfold MPU_SIZE_BITS_MIN; lia].
        unfold size_bit.
        rewrite (decomp_second_base size Hsize H7 Hres addr Haddr Hal
                   ltac:(fold size_bit; lia)).
        fold size_bit. rewrite <- E2.
        rewrite BIT_small, is_aligned_pow2 by lia.
        apply Z.eqb_eq.
        replace (size_bit - 2) with (size_bit + 1 - 3) by lia.
        apply eighth_aligned; [lia | exact Hal].
Qed.

Lemma config_region_accepts_iff_witness :
  (0 <= 0 < 2 ^ 8 /\ 0 <= 2048 < 2 ^ 32 /\ 0 < 1152 < 2 ^ 32
   /\ (POWER_OF_TWO 1152 = true \/ 1152 < 2 ^ 31))
  /\ (fst (mpu_config_region sample_platform 0 2048 1152 0x1300 1
             (reset_state 8)) = EC_SUCCESS
      <-> 0 < MPU_TYPE_REG_COUNT sample_platform (MPU_TYPE (reset_state 8))
          /\ ((POWER_OF_TWO 1152 = true /\ 5 <= config_size_bit 1152
               /\ 2048 mod 2 ^ config_size_bit 1152 = 0)
              \/ (POWER_OF_TWO 1152 = false /\ 7 <= config_size_bit 1152 <= 30
                  /\ 1152 mod 2 ^ (config_size_bit 1152 - 5) = 0
                  /\ 2048 mod 2 ^ (config_size_bit 1152 + 1) = 0
                  /\ (1152 mod 2 ^ (config_size_bit 1152 - 2) = 0
                      \/ (10 <= config_size_bit 1152
                          /\ 0 <> REGION_DATA_RAM_TEXT sample_platform
                          /\ u8 (0 + 1)
                             < MPU_TYPE_REG_COUNT sample_platform
                                 (MPU_TYPE (reset_state 8))))))).
Proof.
  assert (H1 : 0 <= 0 < 2 ^ 8) by (vm_compute; intuition congruence).
  assert (H2 : 0 <= 2048 < 2 ^ 32) by (vm_compute; intuition congruence).
  assert (H3 : 0 < 1152 < 2 ^ 32) by (vm_compute; intuition congruence).
  assert (H4 : POWER_OF_TWO 1152 = true \/ 1152 < 2 ^ 31)
    by (right; reflexivity).
  split; [split; [exact H1 | split; [exact H2 | split;
                                     [exact H3 | exact H4]]]|].
  exact (config_region_accepts_iff sample_platform 0 2048 1152 0x1300 1
           (reset_state 8) H1 H2 H3 H4).
Defined.

(** X7.  After an accepted request with the enable flag set, for a length
    whose region has at most [2^31] bytes -- a power of two, or a length
    below [2^31], the lengths for which every shift of the alignment
    test is defined -- every slot that the request writes holds a well
    formed encoding: enabled, with
    the attributes of the request, a size exponent from 5 to 31, a base
    that is a multiple of the region size, the region inside the 32 bit
    address space and starting at or after the requested base, and
    eighths disabled only in regions of 256 bytes or more. *)
Theorem config_region_encodings_well_formed
    (p : platform) (region addr size attr enable : Z) (st : mpu_state) :
  0 <= region < 2 ^ 8 -> 0 <= addr < 2 ^ 32 -> 0 < size < 2 ^ 32 ->
  POWER_OF_TWO size = true \/ size < 2 ^ 31 ->
  0 <= attr < 2 ^ 16 -> enable <> 0 ->
  fst (mpu_config_region p region addr size attr enable st) = EC_SUCCESS ->
  Forall
    (fun i =>
       let e := slot_encoding
                  (snd (mpu_config_region p region addr size attr enable st))
                  i in
       enabled e = true
       /\ attributes e = attr
       /\ MPU_SIZE_BITS_MIN <= size_exponent e <= 31
       /\ base_address e mod 2 ^ size_exponent e = 0
       /\ addr <= base_address e
       /\ base_address e + 2 ^ size_exponent e <= 2 ^ 32
       /\ (subregion_disable_mask e <> 0 -> 8 <= size_exponent e))
    (config_slots region size).
Proof.
  intros Hregion Haddr Hsize _ Hattr Hen Hok.
  pose proof (accepted_readback p region addr size attr enable st
                Hregion Hsize Hattr Hen Hok) as Hrb.
  apply (Forall_map
           (slot_encoding
              (snd (mpu_config_region p region addr size attr enable st)))
           (fun e =>
              enabled e = true
              /\ attributes e = attr
              /\ MPU_SIZE_BITS_MIN <= size_exponent e <= 31
              /\ base_address e mod 2 ^ size_exponent e = 0
              /\ addr <= base_address e
              /\ base_address e + 2 ^ size_exponent e <= 2 ^ 32
              /\ (subregion_disable_mask e <> 0 -> 8 <= size_exponent e))).
  rewrite Hrb. unfold MPU_SIZE_BITS_MIN.
  destruct (accepted_encodings p region addr size attr enable st
              Hregion Haddr Hsize Hok)
    as [(_ & Hsb & _ & Hal & _ & ->)
       | [(_ & Hsb & Hal & He1 & _ & _ & ->)
         | (_ & Hsb & Hal & He1 & He2 & _ & _ & _ & ->)]].
  - repeat constructor; cbn [base_address size_exponent]; try lia;
      try assumption;
      try solve [apply aligned_fits; try assumption; lia];
      try solve [cbn; intros H; contradiction].
  - repeat constructor; cbn [base_address size_exponent]; try lia;
      try assumption;
      try solve [apply aligned_fits; try assumption; lia].
  - pose proof (aligned_fits addr (config_size_bit size + 1) Haddr
                  ltac:(lia) Hal) as Hfit.
    pose proof (pow2_pos (config_size_bit size - 2) ltac:(lia)) as HU.
    assert (E : 2 ^ (config_size_bit size + 1)
                = 8 * 2 ^ (config_size_bit size - 2)).
    { replace (config_size_bit size + 1)
        with (3 + (config_size_bit size - 2)) by lia.
      rewrite Z.pow_add_r by lia. reflexivity. }
    assert (Hal2 : (addr + eighths1 size * 2 ^ (config_size_bit size - 2))
                   mod 2 ^ (config_size_bit size - 2) = 0).
    { replace (config_size_bit size - 2)
        with (config_size_bit size + 1 - 3) by lia.
      apply eighth_aligned; [lia | exact Hal]. }
    repeat constructor; cbn [base_address size_exponent]; try lia;
      try assumption; try nia.
Qed.

Lemma config_region_encodings_well_formed_witness :
  (0 <= 0 < 2 ^ 8 /\ 0 <= 2048 < 2 ^ 32 /\ 0 < 1152 < 2 ^ 32
   /\ (POWER_OF_TWO 1152 = true \/ 1152 < 2 ^ 31)
   /\ 0 <= 0x1300 < 2 ^ 16 /\ 1 <> 0
   /\ fst (mpu_config_region sample_platform 0 2048 1152 0x1300 1
             (reset_state 8)) = EC_SUCCESS)
  /\ base_address
       (slot_encoding
          (snd (mpu_config_region sample_platform 0 2048 1152 0x1300 1
                  (reset_state 8))) 0)
     mod 2 ^ size_exponent
               (slot_encoding
                  (snd (mpu_config_region sample_platform 0 2048 1152
                          0x1300 1 (reset_state 8))) 0) = 0.
Proof.
  assert (H1 : 0 <= 0 < 2 ^ 8) by (vm_compute; intuition congruence).
  assert (H2 : 0 <= 2048 < 2 ^ 32) by (vm_compute; intuition congruence).
  assert (H3 : 0 < 1152 < 2 ^ 32) by (vm_compute; intuition congruence).
  assert (H4 : 0 <= 0x1300 < 2 ^ 16) by (vm_compute; intuition congruence).
  assert (H5 : 1 <> 0) by discriminate.
  assert (H6 : fst (mpu_config_region sample_platform 0 2048 1152 0x1300 1
                      (reset_state 8)) = EC_SUCCESS) by reflexivity.
  assert (H7 : POWER_OF_TWO 1152 = true \/ 1152 < 2 ^ 31)
    by (right; reflexivity).
  split; [split; [exact H1 | split; [exact H2 | split; [exact H3
          | split; [exact H7 | split; [exact H4 | split;
                                       [exact H5 | exact H6]]]]]]|].
  exact (proj1 (proj2 (proj2 (proj2
           (Forall_inv
              (config_region_encodings_well_formed sample_platform 0 2048
                 1152 0x1300 1 (reset_state 8) H1 H2 H3 H7 H4 H5 H6)))))).
Defined.

(** ** Requests repeated: what is written does not depend on what was
    there *)

Lemma agree_except_refl S st : agree_except S st st.
Proof. repeat split. Qed.

Lemma agree_except_sym S s1 s2 : agree_except S s1 s2 -> agree_except S s2 s1.
Proof.
  intros (H1 & H2 & H3).
  split; [congruence|]. split; [congruence|].
  intros i Hi. symmetry. apply H3, Hi.
Qed.

Lemma agree_except_trans S s1 s2 s3 :
  agree_except S s1 s2 -> agree_except S s2 s3 -> agree_except S s1 s3.
Proof.
  intros (H1 & H2 & H3) (K1 & K2 & K3).
  split; [congruence|]. split; [congruence|].
  intros i Hi. rewrite H3, K3 by exact Hi. reflexivity.
Qed.

Lemma agree_except_weaken S S' s1 s2 :
  incl S S' -> agree_except S s1 s2 -> agree_except S' s1 s2.
Proof.
  intros Hinc (H1 & H2 & H3).
  split; [assumption|]. split; [assumption|].
  intros i Hi. apply H3. intros Hin. apply Hi, Hinc, Hin.
Qed.

Lemma same_registers_of_agree s1 s2 :
  agree_except [] s1 s2 -> MPU_NUMBER s1 = MPU_NUMBER s2 ->
  same_registers s1 s2.
Proof.
  intros (H1 & H2 & H3) Hn.
  split; [assumption|]. split; [assumption|]. split; [assumption|].
  intros i. apply H3. intros [].
Qed.

Lemma same_registers_trans s1 s2 s3 :
  same_registers s1 s2 -> same_registers s2 s3 -> same_registers s1 s3.
Proof.
  intros (H1 & H2 & H3 & H4) (K1 & K2 & K3 & K4).
  split; [congruence|]. split; [congruence|]. split; [congruence|].
  intros i. rewrite H4. apply K4.
Qed.

Lemma same_registers_sym s1 s2 : same_registers s1 s2 -> same_registers s2 s1.
Proof.
  intros (H1 & H2 & H3 & H4).
  split; [congruence|]. split; [congruence|]. split; [congruence|].
  intros i. symmetry. apply H4.
Qed.

Section Absorb.

Variable p : platform.

(** An accepted call with the enable flag set makes two states agree on
    the slot it writes. *)
Lemma update_region_absorb S region addr size_bit attr enable srd s1 s2 :
  agree_except (region :: S) s1 s2 -> enable <> 0 ->
  fst (mpu_update_region p region addr size_bit attr enable srd s1)
    = EC_SUCCESS ->
  fst (mpu_update_region p region addr size_bit attr enable srd s2)
    = EC_SUCCESS
  /\ agree_except S
       (snd (mpu_update_region p region addr size_bit attr enable srd s1))
       (snd (mpu_update_region p region addr size_bit attr enable srd s2))
  /\ MPU_NUMBER
       (snd (mpu_update_region p region addr size_bit attr enable srd s1))
     = MPU_NUMBER
         (snd (mpu_update_region p region addr size_bit attr enable srd s2)).
Proof.
  intros (Hty & Hct & Hag) Hen Hok1.
  assert (Hok2 : fst (mpu_update_region p region addr size_bit attr enable
                        srd s2) = EC_SUCCESS).
  { rewrite <- Hok1. apply update_region_status. symmetry. exact Hty. }
  split; [exact Hok2|].
  destruct (update_region_frame p region addr size_bit attr enable srd s1)
    as (T1 & C1 & O1 & N1).
  destruct (update_region_frame p region addr size_bit attr enable srd s2)
    as (T2 & C2 & O2 & N2).
  destruct (update_region_effect p _ _ _ _ _ _ _ Hok1)
    as (_ & _ & _ & Hset1 & _).
  destruct (update_region_effect p _ _ _ _ _ _ _ Hok2)
    as (_ & _ & _ & Hset2 & _).
  cbv zeta in *.
  split; [|rewrite (N1 Hok1), (N2 Hok2); reflexivity].
  split; [congruence|]. split; [congruence|].
  intros i Hi. destruct (Z.eq_dec i region) as [-> | Hne].
  - rewrite (Hset1 Hen), (Hset2 Hen). reflexivity.
  - rewrite O1, O2 by exact Hne. apply Hag.
    intros [E | Hin]; [congruence | contradiction].
Qed.

(** The same for a request: after it, two states that differed on its
    slots at most agree there too. *)
Lemma config_region_absorb S region addr size attr enable s1 s2 :
  0 <= region < 2 ^ 8 -> 0 < size < 2 ^ 32 -> enable <> 0 ->
  agree_except (config_slots region size ++ S) s1 s2 ->
  fst (mpu_config_region p region addr size attr enable s1) = EC_SUCCESS ->
  fst (mpu_config_region p region addr size attr enable s2) = EC_SUCCESS
  /\ agree_except S
       (snd (mpu_config_region p region addr size attr enable s1))
       (snd (mpu_config_region p region addr size attr enable s2))
  /\ MPU_NUMBER (snd (mpu_config_region p region addr size attr enable s1))
     = MPU_NUMBER (snd (mpu_config_region p region addr size attr enable s2)).
Proof.
  intros Hregion Hsize Hen Hag Hok1.
  assert (Hok2 : fst (mpu_config_region p region addr size attr enable s2)
                 = EC_SUCCESS).
  { rewrite <- Hok1. apply config_region_status.
    destruct Hag as (Hty & _). symmetry. exact Hty. }
  split; [exact Hok2|].
  unfold config_slots in Hag.
  destruct (config_region_shapes p region addr size attr enable s1 Hsize Hok1)
    as [(Hpow & Hsb & Heq1) | [(Hpow & Hsb & Hres & Hs2 & Heq1)
                              | (Hpow & Hsb & Hres & Hs2 & Hnot & Hf1 & Heq1)]];
    destruct (config_region_shapes p region addr size attr enable s2 Hsize
                Hok2)
      as [(Hpow' & _ & Heq2) | [(Hpow' & _ & _ & Hs2' & Heq2)
                               | (Hpow' & _ & _ & Hs2' & _ & Hf2 & Heq2)]];
    try congruence; try contradiction;
    rewrite Heq1 in *; rewrite Heq2 in *.
  - rewrite Hpow in Hag. cbn [orb app] in Hag.
    destruct (update_region_absorb S _ _ _ _ _ _ _ _ Hag Hen Hok1)
      as (_ & H & Hn). auto.
  - rewrite Hpow, Hs2 in Hag. cbn [orb Z.eqb app] in Hag.
    destruct (update_region_absorb S _ _ _ _ _ _ _ _ Hag Hen Hok1)
      as (_ & H & Hn). auto.
  - apply Z.eqb_neq in Hs2. rewrite Hpow, Hs2 in Hag. cbn [orb app] in Hag.
    destruct (update_region_absorb (u8 (region + 1) :: S) _ _ _ _ _ _ _ _
                Hag Hen Hf1) as (_ & Hag1 & _).
    destruct (update_region_absorb S _ _ _ _ _ _ _ _ Hag1 Hen Hok1)
      as (_ & H & Hn). auto.
Qed.

End Absorb.

(** A request, any request for the same slot, base and length, and the
    first request again: the registers are those after the first. *)
Lemma reenable_registers
    (p : platform) (region addr size attr enable attr2 enable2 : Z)
    (st : mpu_state) :
  0 <= region < 2 ^ 8 -> 0 <= addr < 2 ^ 32 -> 0 < size < 2 ^ 32 ->
  enable <> 0 ->
  fst (mpu_config_region p region addr size attr enable st) = EC_SUCCESS ->
  let s1 := snd (mpu_config_region p region addr size attr enable st) in
  let r2 := mpu_config_region p region addr size attr2 enable2 s1 in
  let r3 := mpu_config_region p region addr size attr enable (snd r2) in
  fst r2 = EC_SUCCESS /\ fst r3 = EC_SUCCESS
  /\ same_registers (snd r3) s1.
Proof.
  intros Hregion Haddr Hsize Hen Hok s1 r2 r3.
  destruct (accepted_slots p region addr size attr enable st
              Hregion Haddr Hsize Hok) as (_ & Hag1 & _).
  fold s1 in Hag1.
  assert (Hok2 : fst r2 = EC_SUCCESS).
  { subst r2. rewrite <- Hok. apply config_region_status.
    destruct Hag1 as (Hty & _). symmetry. exact Hty. }
  destruct (accepted_slots p region addr size attr2 enable2 s1
              Hregion Haddr Hsize Hok2) as (_ & Hag2 & _).
  fold r2 in Hag2.
  (* the first request, repeated at once, changes nothing *)
  assert (Hag1' : agree_except (config_slots region size ++ []) st s1)
    by (rewrite app_nil_r; exact Hag1).
  destruct (config_region_absorb p [] region addr size attr enable st s1
              Hregion Hsize Hen Hag1' Hok) as (Hok1' & Hsame1 & Hn1).
  fold s1 in Hsame1, Hn1.
  (* and it ends in the same registers from the changed state *)
  assert (Hag2' : agree_except (config_slots region size ++ []) s1 (snd r2))
    by (rewrite app_nil_r; exact Hag2).
  destruct (config_region_absorb p [] region addr size attr enable s1
              (snd r2) Hregion Hsize Hen Hag2' Hok1')
    as (Hok3 & Hsame2 & Hn2).
  fold r3 in Hok3, Hsame2, Hn2.
  split; [exact Hok2|]. split; [exact Hok3|].
  apply same_registers_sym.
  apply (same_registers_trans _
           (snd (mpu_config_region p region addr size attr enable s1))).
  - apply same_registers_of_agree; assumption.
  - apply same_registers_of_agree; assumption.
Qed.

(** X8.  Lock, change, lock again.  After an accepted request with the
    enable flag set, a second request for the same slot, base and length
    with any attributes and any enable flag (clear, for an unlock),
    followed by the first request once more, leaves the registers exactly
    as the first request left them; all three are accepted. *)
Theorem config_region_reenable
    (p : platform) (region addr size attr enable attr2 enable2 : Z)
    (st : mpu_state) :
  0 <= region < 2 ^ 8 -> 0 <= addr < 2 ^ 32 -> 0 < size < 2 ^ 32 ->
  enable <> 0 ->
  fst (mpu_config_region p region addr size attr enable st) = EC_SUCCESS ->
  let s1 := snd (mpu_config_region p region addr size attr enable st) in
  let r2 := mpu_config_region p region addr size attr2 enable2 s1 in
  let r3 := mpu_config_region p region addr size attr enable (snd r2) in
  fst r2 = EC_SUCCESS /\ fst r3 = EC_SUCCESS
  /\ same_registers (snd r3) s1.
Proof.
  intros Hregion Haddr Hsize Hen Hok.
  exact (reenable_registers p region addr size attr enable attr2 enable2 st
           Hregion Haddr Hsize Hen Hok).
Qed.

Lemma config_region_reenable_witness :
  (0 <= 0 < 2 ^ 8 /\ 0 <= 2048 < 2 ^ 32 /\ 0 < 1152 < 2 ^ 32 /\ 1 <> 0
   /\ fst (mpu_config_region sample_platform 0 2048 1152 0x1300 1
             (reset_state 8)) = EC_SUCCESS)
  /\ same_registers
       (snd (mpu_config_region sample_platform 0 2048 1152 0x1300 1
               (snd (mpu_config_region sample_platform 0 2048 1152 0x1300 0
                       (snd (mpu_config_region sample_platform 0 2048 1152
                               0x1300 1 (reset_state 8)))))))
       (snd (mpu_config_region sample_platform 0 2048 1152 0x1300 1
               (reset_state 8))).
Proof.
  assert (H1 : 0 <= 0 < 2 ^ 8) by (vm_compute; intuition congruence).
  assert (H2 : 0 <= 2048 < 2 ^ 32) by (vm_compute; intuition congruence).
  assert (H3 : 0 < 1152 < 2 ^ 32) by (vm_compute; intuition congruence).
  assert (H4 : 1 <> 0) by discriminate.
  assert (H5 : fst (mpu_config_region sample_platform 0 2048 1152 0x1300 1
                      (reset_state 8)) = EC_SUCCESS) by reflexivity.
  split; [split; [exact H1 | split; [exact H2 | split; [exact H3
          | split; [exact H4 | exact H5]]]]|].
  exact (proj2 (proj2 (config_region_reenable sample_platform 0 2048 1152
                         0x1300 1 0x1300 0 (reset_state 8)
                         H1 H2 H3 H4 H5))).
Defined.

Lemma disabled_slot_protects_nothing st i :
  Z.testbit (RASR (regions st i)) 0 = false ->
  forall a, protects (slot_encoding st i) a = false.
Proof.
  intros H a. unfold protects, slot_encoding. cbn [enabled].
  rewrite H. reflexivity.
Qed.

(** X9.  An unlock unlocks.  After an accepted request of non-zero length
    with the enable flag clear, no slot that the request writes protects
    any byte. *)
Theorem config_region_disable_unprotects
    (p : platform) (region addr size attr : Z) (st : mpu_state) :
  0 <= region < 2 ^ 8 -> 0 < size < 2 ^ 32 ->
  fst (mpu_config_region p region addr size attr 0 st) = EC_SUCCESS ->
  Forall
    (fun i =>
       forall a,
         protects
           (slot_encoding
              (snd (mpu_config_region p region addr size attr 0 st)) i) a
         = false)
    (config_slots region size).
Proof.
  intros Hregion Hsize Hok.
  pose proof (successor_slot_differs region Hregion) as Hne.
  destruct (config_region_shapes p region addr size attr 0 st Hsize Hok)
    as [(Hpow & Hsb & Heq) | [(Hpow & Hsb & Hres & Hs2 & Heq)
                             | (Hpow & Hsb & Hres & Hs2 & Hnot & Hok1 & Heq)]].
  - unfold config_slots. rewrite Hpow. cbn [orb]. rewrite Heq in *.
    destruct (update_region_effect p _ _ _ _ _ _ _ Hok)
      as (_ & _ & _ & _ & Hclr).
    repeat constructor. apply disabled_slot_protects_nothing.
    apply Hclr. reflexivity.
  - unfold config_slots. rewrite Hpow, Hs2. cbn [orb Z.eqb]. rewrite Heq in *.
    destruct (update_region_effect p _ _ _ _ _ _ _ Hok)
      as (_ & _ & _ & _ & Hclr).
    repeat constructor. apply disabled_slot_protects_nothing.
    apply Hclr. reflexivity.
  - unfold config_slots. rewrite Hpow.
    apply Z.eqb_neq in Hs2. rewrite Hs2. cbn [orb]. rewrite Heq in *.
    destruct (update_region_effect p _ _ _ _ _ _ _ Hok1)
      as (_ & _ & _ & _ & Hclr1).
    destruct (update_region_effect p _ _ _ _ _ _ _ Hok)
      as (_ & _ & Hoth2 & _ & Hclr2).
    cbv zeta in Hoth2.
    repeat constructor; apply disabled_slot_protects_nothing.
    + rewrite Hoth2 by exact Hne. apply Hclr1. reflexivity.
    + apply Hclr2. reflexivity.
Qed.

Lemma config_region_disable_unprotects_witness :
  (0 <= 0 < 2 ^ 8 /\ 0 < 1152 < 2 ^ 32
   /\ fst (mpu_config_region sample_platform 0 2048 1152 0x1300 0
             (snd (mpu_config_region sample_platform 0 2048 1152 0x1300 1
                     (reset_state 8)))) = EC_SUCCESS)
  /\ protects
       (slot_encoding
          (snd (mpu_config_region sample_platform 0 2048 1152 0x1300 0
                  (snd (mpu_config_region sample_platform 0 2048 1152
                          0x1300 1 (reset_state 8))))) 0) 2048 = false.
Proof.
  assert (H1 : 0 <= 0 < 2 ^ 8) by (vm_compute; intuition congruence).
  assert (H2 : 0 < 1152 < 2 ^ 32) by (vm_compute; intuition congruence).
  assert (H3 : fst (mpu_config_region sample_platform 0 2048 1152 0x1300 0
                      (snd (mpu_config_region sample_platform 0 2048 1152
                              0x1300 1 (reset_state 8)))) = EC_SUCCESS)
    by reflexivity.
  split; [split; [exact H1 | split; [exact H2 | exact H3]]|].
  exact (Forall_inv
           (config_region_disable_unprotects sample_platform 0 2048 1152
              0x1300 (snd (mpu_config_region sample_platform 0 2048 1152
                             0x1300 1 (reset_state 8))) H1 H2 H3) 2048).
Defined.

(** ** Requests in sequence *)

Lemma existsb_map {A B : Type} (f : B -> bool) (g : A -> B) (l : list A) :
  existsb f (map g l) = existsb (fun x => f (g x)) l.
Proof.
  induction l as [|x l IH]; [reflexivity|]. cbn. rewrite IH. reflexivity.
Qed.

Lemma existsb_ext_in {A : Type} (f g : A -> bool) (l : list A) :
  (forall x, In x l -> f x = g x) -> existsb f l = existsb g l.
Proof.
  induction l as [|x l IH]; intros H; [reflexivity|]. cbn.
  rewrite (H x (or_introl eq_refl)), IH; [reflexivity|].
  intros y Hy. apply H. right. exact Hy.
Qed.

Lemma slot_encoding_ext s1 s2 i :
  regions s1 i = regions s2 i -> slot_encoding s1 i = slot_encoding s2 i.
Proof. intros H. unfold slot_encoding. rewrite H. reflexivity. Qed.

(** The range of an accepted request, read from any later state that
    still holds what the request wrote to its slots. *)
Lemma accepted_cover_later p region addr size attr enable st st2 a :
  0 <= region < 2 ^ 8 -> 0 <= addr < 2 ^ 32 -> 0 < size < 2 ^ 32 ->
  0 <= attr < 2 ^ 16 -> enable <> 0 ->
  fst (mpu_config_region p region addr size attr enable st) = EC_SUCCESS ->
  (forall i, In i (config_slots region size) ->
     regions st2 i
     = regions (snd (mpu_config_region p region addr size attr enable st)) i) ->
  existsb (fun i => protects (slot_encoding st2 i) a)
          (config_slots region size) = true
  <-> addr <= a < addr + size.
Proof.
  intros Hregion Haddr Hsize Hattr Hen Hok Hkeep.
  rewrite <- (encode_cover p region addr size attr enable st
                Hregion Haddr Hsize Hok a).
  rewrite <- (accepted_readback p region addr size attr enable st
                Hregion Hsize Hattr Hen Hok).
  rewrite existsb_map.
  rewrite (existsb_ext_in
             (fun i => protects (slot_encoding st2 i) a)
             (fun i => protects
                         (slot_encoding
                            (snd (mpu_config_region p region addr size attr
                                    enable st)) i) a)
             (config_slots region size)); [reflexivity|].
  intros i Hi. rewrite (slot_encoding_ext st2 _ i (Hkeep i Hi)). reflexivity.
Qed.

Lemma new_events_trans st s1 s2 e1 e2 :
  trace s1 = trace st ++ e1 -> trace s2 = trace s1 ++ e2 ->
  new_events st s2 = new_events st s1 ++ new_events s1 s2.
Proof.
  intros H1 H2.
  rewrite (new_events_app st s1 e1 H1), (new_events_app s1 s2 e2 H2).
  apply new_events_app. rewrite H2, H1, app_assoc. reflexivity.
Qed.

Lemma u32_range (x : Z) : 0 <= u32 x < 2 ^ 32.
Proof. unfold u32. apply Z.mod_pos_bound. reflexivity. Qed.

Lemma u16_range (x : Z) : 0 <= u16 x < 2 ^ 16.
Proof. unfold u16. apply Z.mod_pos_bound. reflexivity. Qed.

(** Two requests of the same length that is not a power of two, one right
    after the other in the address space, are not both accepted: the
    envelope of the first region is larger than the length, and only one
    of the two bases can be a multiple of it. *)
Lemma adjacent_rounded_requests p r1 r2 addr size attr enable s1 s2 :
  0 <= r1 < 2 ^ 8 -> 0 <= r2 < 2 ^ 8 ->
  0 <= addr -> addr + size < 2 ^ 32 -> 0 < size ->
  POWER_OF_TWO size = false ->
  fst (mpu_config_region p r1 addr size attr enable s1) = EC_SUCCESS ->
  fst (mpu_config_region p r2 (addr + size) size attr enable s2)
    = EC_SUCCESS ->
  False.
Proof.
  intros Hr1 Hr2 Ha Hfit Hsize Hpow Hok1 Hok2.
  assert (Hsz : 0 < size < 2 ^ 32) by lia.
  assert (Hal : 7 <= config_size_bit size <= 30
                /\ addr mod 2 ^ (config_size_bit size + 1) = 0).
  { destruct (accepted_encodings p r1 addr size attr enable s1 Hr1
                ltac:(lia) Hsz Hok1)
      as [(Hp & _) | [(_ & Hsb & Hal & _) | (_ & Hsb & Hal & _)]];
      [congruence | split; [lia | exact Hal] | split; [lia | exact Hal]]. }
  assert (Hal2 : (addr + size) mod 2 ^ (config_size_bit size + 1) = 0).
  { destruct (accepted_encodings p r2 (addr + size) size attr enable s2 Hr2
                ltac:(lia) Hsz Hok2)
      as [(Hp & _) | [(_ & _ & Hal2 & _) | (_ & _ & Hal2 & _)]];
      [congruence | exact Hal2 | exact Hal2]. }
  destruct Hal as [Hsb Hal].
  pose proof (Z.log2_spec size Hsize) as Hl.
  rewrite <- config_size_bit_log2 in Hl.
  replace (Z.succ (config_size_bit size)) with (config_size_bit size + 1)
    in Hl by lia.
  pose proof (pow2_pos (config_size_bit size + 1) ltac:(lia)) as HP.
  set (P := 2 ^ (config_size_bit size + 1)) in *.
  pose proof (Z.div_mod addr P ltac:(lia)) as Hq1.
  pose proof (Z.div_mod (addr + size) P ltac:(lia)) as Hq2.
  rewrite Hal, Z.add_0_r in Hq1. rewrite Hal2, Z.add_0_r in Hq2.
  set (q1 := addr / P) in *. set (q2 := (addr + size) / P) in *.
  assert (Hd : size = P * (q2 - q1)) by lia.
  destruct Hl as [_ Hlt].
  assert (Hcase : q2 - q1 <= 0 \/ 1 <= q2 - q1) by lia.
  destruct Hcase; nia.
Qed.

(** X10.  The rollback lock in two halves.  When the rollback slot is not
    below the region count, the lock flag is set, the rollback range has
    at least two bytes and does not run past the end of the address
    space, and the two slots used for the halves differ, a successful
    lock means that the half length is a power of two; it programs
    exactly the slots [REGION_CHIP_RESERVED] and [REGION_STORAGE2], in
    this order, and the two together protect the bytes from the start of
    the range up to twice the half length, and no other byte. *)
Theorem lock_rollback_halves_cover
    (p : platform) (lock : Z) (st : mpu_state) :
  MPU_TYPE_REG_COUNT p (MPU_TYPE st) <= u8 (REGION_ROLLBACK p) ->
  u8 lock <> 0 ->
  2 <= rollback_region_total_size p ->
  rollback_region_start_address p + rollback_region_total_size p <= 2 ^ 32 ->
  u8 (REGION_CHIP_RESERVED p) <> u8 (REGION_STORAGE2 p) ->
  fst (mpu_lock_rollback p lock st) = EC_SUCCESS ->
  let st' := snd (mpu_lock_rollback p lock st) in
  let half := rollback_region_total_size p / 2 in
  POWER_OF_TWO half = true
  /\ selected_slots (new_events st st')
     = [u8 (REGION_CHIP_RESERVED p); u8 (REGION_STORAGE2 p)]
  /\ forall a,
       protects (slot_encoding st' (u8 (REGION_CHIP_RESERVED p))) a
       || protects (slot_encoding st' (u8 (REGION_STORAGE2 p))) a = true
       <-> rollback_region_start_address p <= a
           < rollback_region_start_address p + 2 * half.
Proof.
  intros Hcount Hen Htotal Hfit Hdiff Hok st' half.
  pose proof (u32_range (CONFIG_MAPPED_STORAGE_BASE p + CONFIG_ROLLBACK_OFF p))
    as Hstart.
  pose proof (u32_range (CONFIG_ROLLBACK_SIZE p)) as Htot.
  pose proof (u16_range (Z.lor (MPU_ATTR_XN p) (MPU_ATTR_NO_NO p))) as Hattr.
  fold (rollback_region_start_address p) in Hstart.
  fold (rollback_region_total_size p) in Htot.
  fold (rollback_mpu_attr p) in Hattr.
  set (start := rollback_region_start_address p) in *.
  set (total := rollback_region_total_size p) in *.
  set (attr := rollback_mpu_attr p) in *.
  assert (Hhalf : 0 < half < 2 ^ 32 /\ 2 * half <= total).
  { subst half. change (2 ^ 32) with 4294967296 in *.
    Z.div_mod_to_equations. lia. }
  destruct Hhalf as [Hhalf Htwice].
  assert (Hb2 : u32 (start + half) = start + half)
    by (apply u32_small; lia).
  (* the two requests *)
  set (r1 := mpu_config_region p (u8 (REGION_CHIP_RESERVED p)) start half
               attr (u8 lock) st).
  set (r2 := mpu_config_region p (u8 (REGION_STORAGE2 p)) (start + half)
               half attr (u8 lock) (snd r1)).
  assert (Hshape : mpu_lock_rollback p lock st
                   = if negb (is_success (fst r1)) then r1 else r2).
  { unfold mpu_lock_rollback.
    cbv [bind ret mpu_num_regions mpu_get_type rd].
    apply Z.ltb_ge in Hcount. rewrite Hcount.
    fold start total half attr. rewrite Hb2. fold r1.
    destruct r1 as [rv s1] eqn:E. cbn [fst snd] in *.
    destruct rv; subst r2; rewrite ?E; reflexivity. }
  assert (Hok1 : fst r1 = EC_SUCCESS).
  { rewrite Hshape in Hok. destruct (fst r1) eqn:E; try reflexivity;
      cbn [is_success negb] in Hok; rewrite E in Hok; discriminate. }
  assert (Hlock : mpu_lock_rollback p lock st = r2)
    by (rewrite Hshape, Hok1; reflexivity).
  assert (Hok2 : fst r2 = EC_SUCCESS) by (rewrite <- Hlock; exact Hok).
  subst st'. rewrite Hlock. clear Hshape Hlock Hok.
  (* the half length is a power of two *)
  assert (Hpow : POWER_OF_TWO half = true).
  { destruct (POWER_OF_TWO half) eqn:E; [reflexivity|]. exfalso.
    apply (adjacent_rounded_requests p (u8 (REGION_CHIP_RESERVED p))
             (u8 (REGION_STORAGE2 p)) start half attr (u8 lock) st (snd r1));
      try apply u8_range; try assumption; lia. }
  split; [exact Hpow|].
  assert (Hs1 : config_slots (u8 (REGION_CHIP_RESERVED p)) half
                = [u8 (REGION_CHIP_RESERVED p)])
    by (unfold config_slots; rewrite Hpow; reflexivity).
  assert (Hs2 : config_slots (u8 (REGION_STORAGE2 p)) half
                = [u8 (REGION_STORAGE2 p)])
    by (unfold config_slots; rewrite Hpow; reflexivity).
  destruct (accepted_slots p (u8 (REGION_CHIP_RESERVED p)) start half attr
              (u8 lock) st (u8_range _) Hstart Hhalf Hok1)
    as (Hsel1 & _ & _).
  destruct (accepted_slots p (u8 (REGION_STORAGE2 p)) (start + half) half
              attr (u8 lock) (snd r1) (u8_range _) ltac:(lia) Hhalf Hok2)
    as (Hsel2 & (_ & _ & Hkeep) & _).
  fold r1 in Hsel1. fold r2 in Hsel2, Hkeep. rewrite Hs1 in Hsel1.
  rewrite Hs2 in Hsel2, Hkeep.
  destruct (region_op_config p (u8 (REGION_CHIP_RESERVED p)) start half attr
              (u8 lock) st) as (_ & _ & e1 & Htr1 & _).
  destruct (region_op_config p (u8 (REGION_STORAGE2 p)) (start + half) half
              attr (u8 lock) (snd r1)) as (_ & _ & e2 & Htr2 & _).
  fold r1 in Htr1. fold r2 in Htr2.
  split.
  { rewrite (new_events_trans _ _ _ _ _ Htr1 Htr2), selected_slots_app,
      Hsel1, Hsel2.
    reflexivity. }
  intros a.
  pose proof (accepted_cover_later p (u8 (REGION_CHIP_RESERVED p)) start half
                attr (u8 lock) st (snd r2) a (u8_range _) Hstart Hhalf Hattr
                Hen Hok1) as C1.
  rewrite Hs1 in C1. cbn [existsb In] in C1. rewrite orb_false_r in C1.
  pose proof (accepted_cover_later p (u8 (REGION_STORAGE2 p)) (start + half)
                half attr (u8 lock) (snd r1) (snd r2) a (u8_range _)
                ltac:(lia) Hhalf Hattr Hen Hok2) as C2.
  rewrite Hs2 in C2. cbn [existsb In] in C2. rewrite orb_false_r in C2.
  fold r1 in C1. fold r2 in C2.
  rewrite orb_true_iff, C1, C2.
  - lia.
  - intros i _. reflexivity.
  - intros i [<- | []]. symmetry. apply Hkeep.
    intros [E | []]. apply Hdiff. symmetry. exact E.
Qed.

Lemma lock_rollback_halves_cover_witness :
  (MPU_TYPE_REG_COUNT sample_platform (MPU_TYPE (reset_state 8))
   <= u8 (REGION_ROLLBACK sample_platform)
   /\ u8 1 <> 0
   /\ 2 <= rollback_region_total_size sample_platform
   /\ rollback_region_start_address sample_platform
      + rollback_region_total_size sample_platform <= 2 ^ 32
   /\ u8 (REGION_CHIP_RESERVED sample_platform)
      <> u8 (REGION_STORAGE2 sample_platform)
   /\ fst (mpu_lock_rollback sample_platform 1 (reset_state 8)) = EC_SUCCESS)
  /\ selected_slots
       (new_events (reset_state 8)
          (snd (mpu_lock_rollback sample_platform 1 (reset_state 8))))
     = [u8 (REGION_CHIP_RESERVED sample_platform);
        u8 (REGION_STORAGE2 sample_platform)].
Proof.
  assert (H1 : MPU_TYPE_REG_COUNT sample_platform (MPU_TYPE (reset_state 8))
               <= u8 (REGION_ROLLBACK sample_platform))
    by (vm_compute; discriminate).
  assert (H2 : u8 1 <> 0) by (vm_compute; discriminate).
  assert (H3 : 2 <= rollback_region_total_size sample_platform)
    by (vm_compute; discriminate).
  assert (H4 : rollback_region_start_address sample_platform
               + rollback_region_total_size sample_platform <= 2 ^ 32)
    by (vm_compute; discriminate).
  assert (H5 : u8 (REGION_CHIP_RESERVED sample_platform)
               <> u8 (REGION_STORAGE2 sample_platform))
    by (vm_compute; discriminate).
  assert (H6 : fst (mpu_lock_rollback sample_platform 1 (reset_state 8))
               = EC_SUCCESS) by reflexivity.
  split; [split; [exact H1 | split; [exact H2 | split; [exact H3
          | split; [exact H4 | split; [exact H5 | exact H6]]]]]|].
  exact (proj1 (proj2 (lock_rollback_halves_cover sample_platform 1
                         (reset_state 8) H1 H2 H3 H4 H5 H6))).
Defined.

(** ** The rollback lock, repeated *)

Section Rollback.

Variable p : platform.

Lemma lock_rollback_unfold lock st :
  mpu_lock_rollback p lock st
  = if u8 (REGION_ROLLBACK p) <? MPU_TYPE_REG_COUNT p (MPU_TYPE st) then
      mpu_config_region p (u8 (REGION_ROLLBACK p))
        (rollback_region_start_address p) (rollback_region_total_size p)
        (rollback_mpu_attr p) (u8 lock) st
    else
      let first :=
        mpu_config_region p (u8 (REGION_CHIP_RESERVED p))
          (rollback_region_start_address p)
          (rollback_region_total_size p / 2) (rollback_mpu_attr p)
          (u8 lock) st in
      if negb (is_success (fst first)) then first
      else
        mpu_config_region p (u8 (REGION_STORAGE2 p))
          (u32 (rollback_region_start_address p
                + rollback_region_total_size p / 2))
          (rollback_region_total_size p / 2) (rollback_mpu_attr p)
          (u8 lock) (snd first).
Proof.
  unfold mpu_lock_rollback.
  cbv [bind ret mpu_num_regions mpu_get_type rd].
  destruct (_ <? _); [reflexivity|]. cbv zeta.
  destruct (mpu_config_region p (u8 (REGION_CHIP_RESERVED p)) _ _ _ _ st)
    as [rv s1].
  cbn [fst snd]. destruct rv; reflexivity.
Qed.

(** Two accepted requests in a row change their own slots only. *)
Lemma two_requests_touch rA aA rB aB size attr enable s :
  0 <= rA < 2 ^ 8 -> 0 <= rB < 2 ^ 8 ->
  0 <= aA < 2 ^ 32 -> 0 <= aB < 2 ^ 32 -> 0 < size < 2 ^ 32 ->
  fst (mpu_config_region p rA aA size attr enable s) = EC_SUCCESS ->
  fst (mpu_config_region p rB aB size attr enable
         (snd (mpu_config_region p rA aA size attr enable s))) = EC_SUCCESS ->
  agree_except (config_slots rA size ++ config_slots rB size) s
    (snd (mpu_config_region p rB aB size attr enable
            (snd (mpu_config_region p rA aA size attr enable s)))).
Proof.
  intros HrA HrB HaA HaB Hsize HokA HokB.
  destruct (accepted_slots p rA aA size attr enable s HrA HaA Hsize HokA)
    as (_ & HagA & _).
  destruct (accepted_slots p rB aB size attr enable _ HrB HaB Hsize HokB)
    as (_ & HagB & _).
  apply (agree_except_trans _ _
           (snd (mpu_config_region p rA aA size attr enable s))).
  - apply (agree_except_weaken (config_slots rA size)); [|exact HagA].
    apply incl_appl, incl_refl.
  - apply (agree_except_weaken (config_slots rB size)); [|exact HagB].
    apply incl_appr, incl_refl.
Qed.

(** With the enable flag set, they end in registers that do not depend on
    what their slots held before. *)
Lemma two_requests_absorb rA aA rB aB size attr enable s1 s2 :
  0 <= rA < 2 ^ 8 -> 0 <= rB < 2 ^ 8 -> 0 < size < 2 ^ 32 -> enable <> 0 ->
  agree_except (config_slots rA size ++ config_slots rB size) s1 s2 ->
  fst (mpu_config_region p rA aA size attr enable s1) = EC_SUCCESS ->
  fst (mpu_config_region p rB aB size attr enable
         (snd (mpu_config_region p rA aA size attr enable s1)))
    = EC_SUCCESS ->
  fst (mpu_config_region p rA aA size attr enable s2) = EC_SUCCESS
  /\ fst (mpu_config_region p rB aB size attr enable
            (snd (mpu_config_region p rA aA size attr enable s2)))
     = EC_SUCCESS
  /\ same_registers
       (snd (mpu_config_region p rB aB size attr enable
               (snd (mpu_config_region p rA aA size attr enable s1))))
       (snd (mpu_config_region p rB aB size attr enable
               (snd (mpu_config_region p rA aA size attr enable s2)))).
Proof.
  intros HrA HrB Hsize Hen Hag HokA HokB.
  destruct (config_region_absorb p (config_slots rB size) rA aA size attr
              enable s1 s2 HrA Hsize Hen Hag HokA) as (HokA2 & HagA & _).
  assert (HagA' : agree_except (config_slots rB size ++ [])
                    (snd (mpu_config_region p rA aA size attr enable s1))
                    (snd (mpu_config_region p rA aA size attr enable s2)))
    by (rewrite app_nil_r; exact HagA).
  destruct (config_region_absorb p [] rB aB size attr enable _ _ HrB Hsize
              Hen HagA' HokB) as (HokB2 & HagB & HnB).
  split; [exact HokA2|]. split; [exact HokB2|].
  apply same_registers_of_agree; assumption.
Qed.

End Rollback.

Section RollbackRoundTrip.

Variable p : platform.
Variables rA aA rB aB size attr enable enable2 : Z.
Variable st : mpu_state.
Hypothesis rA_range : 0 <= rA < 2 ^ 8.
Hypothesis rB_range : 0 <= rB < 2 ^ 8.
Hypothesis aA_range : 0 <= aA < 2 ^ 32.
Hypothesis aB_range : 0 <= aB < 2 ^ 32.
Hypothesis size_range : 0 < size < 2 ^ 32.
Hypothesis enabled_first : enable <> 0.

Let A (en : Z) (s : mpu_state) := mpu_config_region p rA aA size attr en s.
Let B (en : Z) (s : mpu_state) := mpu_config_region p rB aB size attr en s.

Hypothesis okA : fst (A enable st) = EC_SUCCESS.
Hypothesis okB : fst (B enable (snd (A enable st))) = EC_SUCCESS.

(** Two requests, the same two with another enable flag, and the first
    two again: the registers are those after the first two. *)
Lemma two_requests_reenable :
  let s1 := snd (B enable (snd (A enable st))) in
  let s2 := snd (B enable2 (snd (A enable2 s1))) in
  fst (A enable2 s1) = EC_SUCCESS
  /\ fst (B enable2 (snd (A enable2 s1))) = EC_SUCCESS
  /\ fst (A enable s2) = EC_SUCCESS
  /\ fst (B enable (snd (A enable s2))) = EC_SUCCESS
  /\ same_registers (snd (B enable (snd (A enable s2)))) s1.
Proof.
  intros s1 s2.
  destruct (region_op_config p rA aA size attr enable st) as (TA & _).
  destruct (region_op_config p rB aB size attr enable (snd (A enable st)))
    as (TB & _).
  fold (A enable st) in TA.
  fold (B enable (snd (A enable st))) in TB. fold s1 in TB.
  assert (Hty1 : MPU_TYPE s1 = MPU_TYPE st) by congruence.
  destruct (region_op_config p rA aA size attr enable2 s1) as (TA2 & _).
  fold (A enable2 s1) in TA2.
  assert (okA2 : fst (A enable2 s1) = EC_SUCCESS).
  { unfold A. rewrite <- okA. apply config_region_status. exact Hty1. }
  assert (okB2 : fst (B enable2 (snd (A enable2 s1))) = EC_SUCCESS).
  { unfold B. rewrite <- okB. apply config_region_status. congruence. }
  pose proof (two_requests_touch p rA aA rB aB size attr enable st
                rA_range rB_range aA_range aB_range size_range okA okB)
    as Hag1.
  pose proof (two_requests_touch p rA aA rB aB size attr enable2 s1
                rA_range rB_range aA_range aB_range size_range okA2 okB2)
    as Hag2.
  destruct (two_requests_absorb p rA aA rB aB size attr enable st s1
              rA_range rB_range size_range enabled_first Hag1 okA okB)
    as (okA1' & okB1' & Hsame1).
  destruct (two_requests_absorb p rA aA rB aB size attr enable s1 s2
              rA_range rB_range size_range enabled_first Hag2 okA1' okB1')
    as (okA3 & okB3 & Hsame2).
  split; [exact okA2|]. split; [exact okB2|].
  split; [exact okA3|]. split; [exact okB3|].
  apply same_registers_sym.
  exact (same_registers_trans _ _ _ Hsame1 Hsame2).
Qed.

End RollbackRoundTrip.

Lemma config_region_nothing p region addr size attr enable st :
  size = 0 ->
  mpu_config_region p region addr size attr enable st = (EC_SUCCESS, st).
Proof. intros ->. reflexivity. Qed.

Lemma config_region_keeps_type p region addr size attr enable st :
  MPU_TYPE (snd (mpu_config_region p region addr size attr enable st))
  = MPU_TYPE st.
Proof. apply (region_op_config p region addr size attr enable st). Qed.

(** X11.  The rollback round trip.  After a successful lock with the lock
    flag set, any further call for the rollback range -- an unlock, with
    the flag clear, or another lock -- succeeds, and a lock with the first
    flag after it leaves the registers exactly as the first lock left
    them. *)
Theorem lock_rollback_round_trip
    (p : platform) (lock lock2 : Z) (st : mpu_state) :
  u8 lock <> 0 ->
  fst (mpu_lock_rollback p lock st) = EC_SUCCESS ->
  let s1 := snd (mpu_lock_rollback p lock st) in
  let r2 := mpu_lock_rollback p lock2 s1 in
  let r3 := mpu_lock_rollback p lock (snd r2) in
  fst r2 = EC_SUCCESS /\ fst r3 = EC_SUCCESS /\ same_registers (snd r3) s1.
Proof.
  intros Hen Hok s1 r2 r3. subst r3 r2 s1.
  pose proof (u32_range (CONFIG_MAPPED_STORAGE_BASE p + CONFIG_ROLLBACK_OFF p))
    as Hstart.
  pose proof (u32_range (CONFIG_ROLLBACK_SIZE p)) as Htot.
  fold (rollback_region_start_address p) in Hstart.
  fold (rollback_region_total_size p) in Htot.
  set (start := rollback_region_start_address p) in *.
  set (total := rollback_region_total_size p) in *.
  set (attr := rollback_mpu_attr p) in *.
  set (R := fun l s => mpu_config_region p (u8 (REGION_ROLLBACK p)) start
                         total attr (u8 l) s).
  set (A := fun l s => mpu_config_region p (u8 (REGION_CHIP_RESERVED p))
                         start (total / 2) attr (u8 l) s).
  set (B := fun l s => mpu_config_region p (u8 (REGION_STORAGE2 p))
                         (u32 (start + total / 2)) (total / 2) attr
                         (u8 l) s).
  assert (U : forall l s,
             MPU_TYPE s = MPU_TYPE st ->
             mpu_lock_rollback p l s
             = if u8 (REGION_ROLLBACK p)
                  <? MPU_TYPE_REG_COUNT p (MPU_TYPE st)
               then R l s
               else if negb (is_success (fst (A l s))) then A l s
                    else B l (snd (A l s))).
  { intros l s Hs. rewrite lock_rollback_unfold, Hs. reflexivity. }
  assert (TR : forall l s, MPU_TYPE (snd (R l s)) = MPU_TYPE s)
    by (intros; apply config_region_keeps_type).
  assert (TA : forall l s, MPU_TYPE (snd (A l s)) = MPU_TYPE s)
    by (intros; apply config_region_keeps_type).
  assert (TB : forall l s, MPU_TYPE (snd (B l s)) = MPU_TYPE s)
    by (intros; apply config_region_keeps_type).
  destruct (u8 (REGION_ROLLBACK p) <? MPU_TYPE_REG_COUNT p (MPU_TYPE st)).
  - (* one request *)
    pose proof (U lock st eq_refl) as E1.
    pose proof (U lock2 (snd (R lock st)) (TR _ _)) as E2.
    assert (E3 : mpu_lock_rollback p lock (snd (R lock2 (snd (R lock st))))
                 = R lock (snd (R lock2 (snd (R lock st)))))
      by (apply U; rewrite !TR; reflexivity).
    rewrite E1 in Hok |- *. rewrite E2, E3.
    destruct (Z.eq_dec total 0) as [Hz | Hnz].
    + assert (NR : forall l s, R l s = (EC_SUCCESS, s))
        by (intros; apply config_region_nothing; exact Hz).
      rewrite !NR. cbn [fst snd].
      split; [reflexivity|]. split; [reflexivity|].
      apply same_registers_of_agree;
        [apply agree_except_refl | reflexivity].
    + exact (reenable_registers p (u8 (REGION_ROLLBACK p)) start total attr
               (u8 lock) attr (u8 lock2) st (u8_range _) Hstart
               ltac:(lia) Hen Hok).
  - (* two requests *)
    assert (Hhalf : 0 <= total / 2 < 2 ^ 32).
    { change (2 ^ 32) with 4294967296 in *. Z.div_mod_to_equations. lia. }
    destruct (Z.eq_dec (total / 2) 0) as [Hz | Hnz].
    + assert (NA : forall l s, A l s = (EC_SUCCESS, s))
        by (intros; apply config_region_nothing; exact Hz).
      assert (NB : forall l s, B l s = (EC_SUCCESS, s))
        by (intros; apply config_region_nothing; exact Hz).
      assert (NL : forall l s, MPU_TYPE s = MPU_TYPE st ->
                               mpu_lock_rollback p l s = (EC_SUCCESS, s)).
      { intros l s Hs. rewrite (U l s Hs), NA. cbn. apply NB. }
      rewrite (NL lock st eq_refl). cbn [snd].
      rewrite (NL lock2 st eq_refl). cbn [snd fst].
      rewrite (NL lock st eq_refl). cbn [snd fst].
      split; [reflexivity|]. split; [reflexivity|].
      apply same_registers_of_agree;
        [apply agree_except_refl | reflexivity].
    + pose proof (U lock st eq_refl) as E1.
      assert (okA : fst (A lock st) = EC_SUCCESS).
      { rewrite E1 in Hok.
        destruct (fst (A lock st)) eqn:E; try reflexivity;
          cbn [is_success negb] in Hok; rewrite E in Hok; discriminate. }
      rewrite okA in E1. cbn [is_success negb] in E1.
      rewrite E1 in Hok |- *.
      destruct (two_requests_reenable p (u8 (REGION_CHIP_RESERVED p)) start
                  (u8 (REGION_STORAGE2 p)) (u32 (start + total / 2))
                  (total / 2) attr (u8 lock) (u8 lock2) st
                  (u8_range _) (u8_range _) Hstart (u32_range _)
                  ltac:(lia) Hen okA Hok)
        as (okA2 & okB2 & okA3 & okB3 & Hsame).
      fold (A lock st) in okA2, okB2, okA3, okB3, Hsame.
      fold (B lock (snd (A lock st))) in okA2, okB2, okA3, okB3, Hsame.
      set (s1 := snd (B lock (snd (A lock st)))) in *.
      fold (A lock2 s1) in okA2, okB2, okA3, okB3, Hsame.
      fold (B lock2 (snd (A lock2 s1))) in okB2, okA3, okB3, Hsame.
      set (s2 := snd (B lock2 (snd (A lock2 s1)))) in *.
      fold (A lock s2) in okA3, okB3, Hsame.
      fold (B lock (snd (A lock s2))) in okB3, Hsame.
      assert (Hty1 : MPU_TYPE s1 = MPU_TYPE st)
        by (subst s1; rewrite TB, TA; reflexivity).
      assert (E2 : mpu_lock_rollback p lock2 s1 = B lock2 (snd (A lock2 s1))).
      { rewrite (U lock2 s1 Hty1), okA2. reflexivity. }
      rewrite E2. fold s2.
      assert (Hty2 : MPU_TYPE s2 = MPU_TYPE st)
        by (subst s2; rewrite TB, TA; exact Hty1).
      assert (E3 : mpu_lock_rollback p lock s2 = B lock (snd (A lock s2))).
      { rewrite (U lock s2 Hty2), okA3. reflexivity. }
      rewrite E3. auto.
Qed.

Lemma lock_rollback_round_trip_witness :
  (u8 1 <> 0
   /\ fst (mpu_lock_rollback sample_platform 1 (reset_state 8)) = EC_SUCCESS)
  /\ same_registers
       (snd (mpu_lock_rollback sample_platform 1
               (snd (mpu_lock_rollback sample_platform 0
                       (snd (mpu_lock_rollback sample_platform 1
                               (reset_state 8)))))))
       (snd (mpu_lock_rollback sample_platform 1 (reset_state 8))).
Proof.
  assert (H1 : u8 1 <> 0) by (vm_compute; discriminate).
  assert (H2 : fst (mpu_lock_rollback sample_platform 1 (reset_state 8))
               = EC_SUCCESS) by reflexivity.
  split; [split; [exact H1 | exact H2]|].
  exact (proj2 (proj2 (lock_rollback_round_trip sample_platform 1 0
                         (reset_state 8) H1 H2))).
Defined.

(** ** The boot sequence, the loop and what they leave *)

Section Combinators.

Variable p : platform.

Lemma two_valued_update region addr size_bit attr enable srd :
  two_valued (mpu_update_region p region addr size_bit attr enable srd).
Proof.
  intros st.
  destruct (update_region_cases p region addr size_bit attr enable srd st)
    as [[E _] | [E _]]; cbv zeta in E.
  - right. rewrite E. reflexivity.
  - left. exact E.
Qed.

Lemma two_valued_config region addr size attr enable :
  two_valued (mpu_config_region p region addr size attr enable).
Proof.
  intros st. unfold mpu_config_region.
  destruct (size =? 0); [left; reflexivity|].
  destruct (config_size_bit size <? 5); [right; reflexivity|].
  destruct (POWER_OF_TWO size); [apply two_valued_update|].
  destruct (config_size_bit size <? 7); [right; reflexivity|].
  destruct (negb _); [right; reflexivity|].
  destruct (negb _ && _); [right; reflexivity|].
  unfold bind, ret.
  pose proof (two_valued_update region addr (u8 (config_size_bit size + 1))
                attr enable (u8 (Z.lnot (config_srd1 size))) st) as H1.
  destruct (mpu_update_region p region addr _ attr enable _ st) as [rv1 s1].
  cbn [fst snd] in *.
  destruct H1 as [-> | ->]; cbn [is_success negb]; [|right; reflexivity].
  destruct (negb (config_srd2 size =? 0)); [|left; reflexivity].
  apply two_valued_update.
Qed.

Lemma two_valued_lock_rollback lock : two_valued (mpu_lock_rollback p lock).
Proof.
  intros st. rewrite lock_rollback_unfold.
  destruct (_ <? _); [apply two_valued_config|]. cbv zeta.
  destruct (two_valued_config (u8 (REGION_CHIP_RESERVED p))
              (rollback_region_start_address p)
              (rollback_region_total_size p / 2) (rollback_mpu_attr p)
              (u8 lock) st) as [E | E]; rewrite E; cbn [is_success negb].
  - apply two_valued_config.
  - right. exact E.
Qed.

Lemma two_valued_disable_all n i : two_valued (disable_all_regions p n i).
Proof.
  revert i. induction n as [|n IH]; intros i st; [left; reflexivity|].
  cbn [disable_all_regions]. unfold bind, ret.
  pose proof (two_valued_update (u8 i) (CORTEX_M_SRAM_BASE p)
                MPU_SIZE_BITS_MIN 0 0 0 st) as H1.
  destruct (mpu_update_region p (u8 i) _ _ 0 0 0 st) as [rv1 s1].
  cbn [fst snd] in *.
  destruct H1 as [-> | ->]; cbn [is_success negb]; [|right; reflexivity].
  apply IH.
Qed.

Lemma within_count_ret {A : Type} (a : A) : within_count p (ret a).
Proof. intros st. split; [reflexivity|]. intros; reflexivity. Qed.

Lemma within_count_bind {A B : Type} (c : M A) (k : A -> M B) :
  within_count p c -> (forall a, within_count p (k a)) ->
  within_count p (bind c k).
Proof.
  intros Hc Hk st. unfold bind.
  destruct (Hc st) as (T1 & R1).
  destruct (c st) as [a s1]. cbn [fst snd] in *.
  destruct (Hk a s1) as (T2 & R2).
  split; [congruence|].
  intros i Hi. rewrite R2 by (rewrite T1; exact Hi). apply R1. exact Hi.
Qed.

Lemma within_count_if {A : Type} (b : bool) (c1 c2 : M A) :
  within_count p c1 -> within_count p c2 ->
  within_count p (if b then c1 else c2).
Proof. destruct b; auto. Qed.

Lemma within_count_update region addr size_bit attr enable srd :
  within_count p (mpu_update_region p region addr size_bit attr enable srd).
Proof.
  intros st.
  destruct (update_region_frame p region addr size_bit attr enable srd st)
    as (T & _ & O & _).
  split; [exact T|]. intros i Hi.
  destruct (update_region_cases p region addr size_bit attr enable srd st)
    as [[E _] | (_ & _ & Hlt & _)]; cbv zeta in *.
  - rewrite E. reflexivity.
  - apply O. lia.
Qed.

Lemma within_count_config region addr size attr enable :
  within_count p (mpu_config_region p region addr size attr enable).
Proof.
  unfold mpu_config_region.
  repeat (apply within_count_if; [apply within_count_ret|]).
  apply within_count_if; [apply within_count_update|].
  repeat (apply within_count_if; [apply within_count_ret|]).
  apply within_count_bind; [apply within_count_update|].
  intros rv. apply within_count_if; [apply within_count_ret|].
  apply within_count_if; [apply within_count_update | apply within_count_ret].
Qed.

Lemma within_count_lock_rollback lock :
  within_count p (mpu_lock_rollback p lock).
Proof.
  unfold mpu_lock_rollback, mpu_num_regions, mpu_get_type.
  intros st. cbv [bind ret rd].
  destruct (_ <? _).
  - apply within_count_config.
  - apply (within_count_bind
             (mpu_config_region p (u8 (REGION_CHIP_RESERVED p))
                (rollback_region_start_address p)
                (rollback_region_total_size p / 2) (rollback_mpu_attr p)
                (u8 lock))); [apply within_count_config|].
    intros rv. apply within_count_if;
      [apply within_count_ret | apply within_count_config].
Qed.

Lemma within_count_disable_all n i :
  within_count p (disable_all_regions p n i).
Proof.
  revert i. induction n as [|n IH]; intros i; cbn [disable_all_regions].
  - apply within_count_ret.
  - apply within_count_bind; [apply within_count_update|intros rv].
    apply within_count_if; [apply within_count_ret | apply IH].
Qed.

Lemma pre_init_regions_region_op n : region_op (pre_init_regions p n).
Proof.
  unfold pre_init_regions.
  apply region_op_bind; [apply region_op_disable_all|intros rv].
  apply region_op_if; [apply region_op_ret|].
  apply region_op_bind;
    [apply region_op_if; [apply region_op_lock_rollback|apply region_op_ret]
    |intros rv2].
  apply region_op_if; [apply region_op_ret|].
  apply region_op_if; [|apply region_op_ret].
  destruct (CONFIG_CHIP_UNCACHED_REGION p) as [[a b]|];
    [apply region_op_config | apply region_op_ret].
Qed.

Lemma pre_init_regions_within_count n : within_count p (pre_init_regions p n).
Proof.
  unfold pre_init_regions.
  apply within_count_bind; [apply within_count_disable_all|intros rv].
  apply within_count_if; [apply within_count_ret|].
  apply within_count_bind;
    [apply within_count_if;
       [apply within_count_lock_rollback|apply within_count_ret]
    |intros rv2].
  apply within_count_if; [apply within_count_ret|].
  apply within_count_if; [|apply within_count_ret].
  destruct (CONFIG_CHIP_UNCACHED_REGION p) as [[a b]|];
    [apply within_count_config | apply within_count_ret].
Qed.

Lemma pre_init_regions_two_valued n : two_valued (pre_init_regions p n).
Proof.
  intros st. unfold pre_init_regions, bind, ret.
  pose proof (two_valued_disable_all (Z.to_nat n) 0 st) as H1.
  destruct (disable_all_regions p (Z.to_nat n) 0 st) as [rv1 s1].
  cbn [fst snd] in *.
  destruct H1 as [-> | ->]; cbn [is_success negb]; [|right; reflexivity].
  assert (H3 : forall s,
             fst ((if CONFIG_ARMV7M_CACHE p then
                     match CONFIG_CHIP_UNCACHED_REGION p with
                     | Some (region_start, region_size) =>
                         mpu_config_region p (u8 (REGION_UNCACHED_RAM p))
                           (u32 region_start) (u32 region_size)
                           (u16 (Z.lor (MPU_ATTR_XN p) (MPU_ATTR_RW_RW p)))
                           1
                     | None => fun st0 => (EC_SUCCESS, st0)
                     end
                   else fun st0 => (EC_SUCCESS, st0)) s) = EC_SUCCESS
             \/ fst ((if CONFIG_ARMV7M_CACHE p then
                        match CONFIG_CHIP_UNCACHED_REGION p with
                        | Some (region_start, region_size) =>
                            mpu_config_region p (u8 (REGION_UNCACHED_RAM p))
                              (u32 region_start) (u32 region_size)
                              (u16 (Z.lor (MPU_ATTR_XN p)
                                          (MPU_ATTR_RW_RW p))) 1
                        | None => fun st0 => (EC_SUCCESS, st0)
                        end
                      else fun st0 => (EC_SUCCESS, st0)) s)
                = neg_EC_ERROR_INVAL).
  { intros s. destruct (CONFIG_ARMV7M_CACHE p); [|left; reflexivity].
    destruct (CONFIG_CHIP_UNCACHED_REGION p) as [[a b]|];
      [apply two_valued_config | left; reflexivity]. }
  destruct (CONFIG_ROLLBACK_MPU_PROTECT p).
  - pose proof (two_valued_lock_rollback 1 s1) as H2.
    destruct (mpu_lock_rollback p 1 s1) as [rv2 s2]. cbn [fst snd] in *.
    destruct H2 as [-> | ->]; cbn [is_success negb]; [|right; reflexivity].
    apply H3.
  - cbn [is_success negb fst snd]. apply H3.
Qed.

(** [mpu_pre_init], step by step. *)
Lemma pre_init_unfold st :
  mpu_pre_init p st
  = let n := MPU_TYPE_REG_COUNT p (MPU_TYPE st) in
    if n =? 0 then (EC_ERROR_HW_INTERNAL, st)
    else if negb (Z.land (MPU_TYPE st) (MPU_TYPE_UNIFIED_MASK p) =? 0)
            || (negb (n =? 8) && negb (n =? 16))
    then (EC_ERROR_UNIMPLEMENTED, st)
    else
      let r := pre_init_regions p n (snd (mpu_disable p st)) in
      if negb (is_success (fst r)) then r
      else
        (EC_SUCCESS,
         snd ((if CONFIG_ARMV7M_CACHE p then cpu_enable_caches else ret tt)
                (snd (mpu_enable p (snd r))))).
Proof.
  unfold mpu_pre_init, has_mpu, mpu_num_regions, mpu_is_unified,
    mpu_get_type, rd, bind, ret. cbn [fst snd]. cbv zeta.
  destruct (MPU_TYPE_REG_COUNT p (MPU_TYPE st) =? 0); [reflexivity|].
  cbn [negb].
  destruct (negb _ || _); [reflexivity|].
  unfold pre_init_regions, bind, ret.
  destruct (mpu_disable p st) as [[] s0]. cbn [fst snd].
  destruct (disable_all_regions p _ 0 s0) as [rv1 s1]. cbn [fst snd].
  destruct rv1; cbn [is_success negb fst snd]; try reflexivity.
  destruct (CONFIG_ROLLBACK_MPU_PROTECT p).
  - destruct (mpu_lock_rollback p 1 s1) as [rv2 s2]. cbn [fst snd].
    destruct rv2; cbn [is_success negb fst snd]; try reflexivity.
    destruct (CONFIG_ARMV7M_CACHE p); [|reflexivity].
    destruct (CONFIG_CHIP_UNCACHED_REGION p) as [[a b]|]; [|reflexivity].
    destruct (mpu_config_region p _ _ _ _ 1 s2) as [rv3 s3].
    destruct rv3; reflexivity.
  - cbn [is_success negb fst snd].
    destruct (CONFIG_ARMV7M_CACHE p); [|reflexivity].
    destruct (CONFIG_CHIP_UNCACHED_REGION p) as [[a b]|]; [|reflexivity].
    destruct (mpu_config_region p _ _ _ _ 1 s1) as [rv3 s3].
    destruct rv3; reflexivity.
Qed.


(** What a successful request leaves alone: every slot but its own. *)
Lemma request_touch region addr size attr enable st :
  0 <= region < 2 ^ 8 -> 0 <= addr < 2 ^ 32 -> 0 <= size < 2 ^ 32 ->
  fst (mpu_config_region p region addr size attr enable st) = EC_SUCCESS ->
  agree_except (request_slots region size) st
    (snd (mpu_config_region p region addr size attr enable st)).
Proof.
  intros Hr Ha Hs Hok. unfold request_slots.
  destruct (size =? 0) eqn:Hz.
  - apply Z.eqb_eq in Hz.
    rewrite (config_region_nothing p region addr size attr enable st Hz).
    apply agree_except_refl.
  - apply Z.eqb_neq in Hz.
    apply (accepted_slots p region addr size attr enable st Hr Ha
             ltac:(lia) Hok).
Qed.

Lemma lock_rollback_touch lock st :
  fst (mpu_lock_rollback p lock st) = EC_SUCCESS ->
  agree_except (rollback_slots p st) st (snd (mpu_lock_rollback p lock st)).
Proof.
  pose proof (u32_range (CONFIG_MAPPED_STORAGE_BASE p + CONFIG_ROLLBACK_OFF p))
    as Hstart.
  pose proof (u32_range (CONFIG_ROLLBACK_SIZE p)) as Htot.
  fold (rollback_region_start_address p) in Hstart.
  fold (rollback_region_total_size p) in Htot.
  assert (Hhalf : 0 <= rollback_region_total_size p / 2 < 2 ^ 32).
  { change (2 ^ 32) with 4294967296 in *. Z.div_mod_to_equations. lia. }
  unfold rollback_slots. rewrite lock_rollback_unfold.
  destruct (_ <? _).
  - apply request_touch; auto using u8_range.
  - cbv zeta.
    set (first := mpu_config_region p (u8 (REGION_CHIP_RESERVED p))
                    (rollback_region_start_address p)
                    (rollback_region_total_size p / 2) (rollback_mpu_attr p)
                    (u8 lock) st).
    destruct (fst first) eqn:E1; cbn [is_success negb];
      try (intros H; rewrite E1 in H; discriminate).
    intros Hok2.
    apply agree_except_trans with (s2 := snd first).
    + apply agree_except_weaken
        with (S := request_slots (u8 (REGION_CHIP_RESERVED p))
                     (rollback_region_total_size p / 2));
        [apply incl_appl, incl_refl|].
      apply request_touch; auto using u8_range.
    + apply agree_except_weaken
        with (S := request_slots (u8 (REGION_STORAGE2 p))
                     (rollback_region_total_size p / 2));
        [apply incl_appr, incl_refl|].
      apply request_touch; auto using u8_range, u32_range.
Qed.

(** The loop of [mpu_pre_init] writes the slots it counts through, and no
    other. *)
Lemma disable_all_frame n i st j :
  0 <= i -> i + Z.of_nat n <= 256 -> j < i \/ i + Z.of_nat n <= j ->
  regions (snd (disable_all_regions p n i st)) j = regions st j.
Proof.
  revert i st. induction n as [|n IH]; intros i st Hi Hn Hj; [reflexivity|].
  cbn [disable_all_regions]. unfold bind, ret.
  rewrite (u8_small i) by (change (2 ^ 8) with 256; lia).
  destruct (update_region_frame p i (CORTEX_M_SRAM_BASE p) MPU_SIZE_BITS_MIN
              0 0 0 st) as (_ & _ & O & _).
  destruct (mpu_update_region p i _ _ 0 0 0 st) as [rv1 s1].
  cbn [fst snd] in *.
  destruct (negb (is_success rv1)); cbn [snd].
  - apply O. lia.
  - rewrite IH by lia. apply O. lia.
Qed.

(** When the loop succeeds, every slot it counted through is disabled. *)
Lemma disable_all_disables n i st :
  0 <= i -> i + Z.of_nat n <= 256 ->
  fst (disable_all_regions p n i st) = EC_SUCCESS ->
  forall j, i <= j < i + Z.of_nat n ->
    Z.testbit (RASR (regions (snd (disable_all_regions p n i st)) j)) 0
    = false.
Proof.
  revert i st. induction n as [|n IH]; intros i st Hi Hn Hok j Hj; [lia|].
  revert Hok. cbn [disable_all_regions]. unfold bind, ret.
  rewrite (u8_small i) by (change (2 ^ 8) with 256; lia).
  pose proof (update_region_effect p i (CORTEX_M_SRAM_BASE p)
                MPU_SIZE_BITS_MIN 0 0 0 st) as He.
  destruct (mpu_update_region p i _ _ 0 0 0 st) as [rv1 s1].
  cbn [fst snd] in *.
  destruct rv1; cbn [is_success negb fst snd]; try discriminate.
  intros Hok.
  destruct (He eq_refl) as (_ & _ & _ & _ & Hdis).
  destruct (Z.eq_dec j i) as [-> | Hne].
  - rewrite disable_all_frame by lia. apply Hdis. reflexivity.
  - apply IH; try lia. exact Hok.
Qed.

Lemma pre_init_regions_disables n st :
  0 <= n <= 256 ->
  fst (pre_init_regions p n st) = EC_SUCCESS ->
  forall i, 0 <= i < n -> ~ In i (pre_init_slots p st) ->
    Z.testbit (RASR (regions (snd (pre_init_regions p n st)) i)) 0 = false.
Proof.
  intros Hn Hok i Hi Hnot. revert Hok.
  unfold pre_init_regions, bind, ret.
  pose proof (disable_all_disables (Z.to_nat n) 0 st ltac:(lia) ltac:(lia))
    as Hloop.
  destruct (region_op_disable_all p (Z.to_nat n) 0 st) as (T1 & _).
  destruct (disable_all_regions p (Z.to_nat n) 0 st) as [rv1 s1].
  cbn [fst snd] in *.
  destruct rv1; cbn [is_success negb fst snd]; try discriminate.
  specialize (Hloop eq_refl i ltac:(lia)).
  unfold pre_init_slots in Hnot.
  rewrite in_app_iff in Hnot.
  assert (Hrb : rollback_slots p s1 = rollback_slots p st)
    by (unfold rollback_slots; rewrite T1; reflexivity).
  assert (H3 : forall s,
             Z.testbit (RASR (regions s i)) 0 = false ->
             fst ((if CONFIG_ARMV7M_CACHE p then
                     match CONFIG_CHIP_UNCACHED_REGION p with
                     | Some (region_start, region_size) =>
                         mpu_config_region p (u8 (REGION_UNCACHED_RAM p))
                           (u32 region_start) (u32 region_size)
                           (u16 (Z.lor (MPU_ATTR_XN p) (MPU_ATTR_RW_RW p)))
                           1
                     | None => fun st0 => (EC_SUCCESS, st0)
                     end
                   else fun st0 => (EC_SUCCESS, st0)) s) = EC_SUCCESS ->
             Z.testbit
               (RASR (regions
                  (snd ((if CONFIG_ARMV7M_CACHE p then
                           match CONFIG_CHIP_UNCACHED_REGION p with
                           | Some (region_start, region_size) =>
                               mpu_config_region p
                                 (u8 (REGION_UNCACHED_RAM p))
                                 (u32 region_start) (u32 region_size)
                                 (u16 (Z.lor (MPU_ATTR_XN p)
                                             (MPU_ATTR_RW_RW p))) 1
                           | None => fun st0 => (EC_SUCCESS, st0)
                           end
                         else fun st0 => (EC_SUCCESS, st0)) s)) i)) 0
             = false).
  { intros s Hs.
    destruct (CONFIG_ARMV7M_CACHE p); [|intros _; exact Hs].
    destruct (CONFIG_CHIP_UNCACHED_REGION p) as [[a b]|];
      [|intros _; exact Hs].
    intros Hok3.
    destruct (request_touch (u8 (REGION_UNCACHED_RAM p)) (u32 a) (u32 b)
                (u16 (Z.lor (MPU_ATTR_XN p) (MPU_ATTR_RW_RW p))) 1 s
                (u8_range _) (u32_range _) (u32_range _) Hok3)
      as (_ & _ & Hag).
    rewrite <- Hag; [exact Hs|]. tauto. }
  destruct (CONFIG_ROLLBACK_MPU_PROTECT p).
  - pose proof (lock_rollback_touch 1 s1) as Htouch.
    destruct (mpu_lock_rollback p 1 s1) as [rv2 s2]. cbn [fst snd] in *.
    destruct rv2; cbn [is_success negb fst snd]; try discriminate.
    destruct (Htouch eq_refl) as (_ & _ & Hag).
    apply H3. rewrite <- Hag; [exact Hloop|]. rewrite Hrb. tauto.
  - cbn [is_success negb fst snd]. apply H3. exact Hloop.
Qed.

Lemma disabled_ctrl_bits c b : Z.land (Z.land c (u32 (Z.lnot b))) b = 0.
Proof.
  unfold u32. rewrite <- Z.land_ones by lia.
  rewrite <- !Z.land_assoc.
  rewrite (Z.land_comm (Z.ones 32) b), (Z.land_assoc (Z.lnot b) b).
  rewrite (Z.land_comm (Z.lnot b) b), Z.land_lnot_diag.
  rewrite Z.land_0_l, Z.land_0_r. reflexivity.
Qed.

(** The four ways [mpu_pre_init] ends. *)
Lemma pre_init_shape st :
  let n := MPU_TYPE_REG_COUNT p (MPU_TYPE st) in
  let d := Z.land (MPU_CTRL st) (u32 (Z.lnot (ctrl_bits p))) in
  let r := mpu_pre_init p st in
  (fst r = EC_ERROR_HW_INTERNAL /\ snd r = st)
  \/ (fst r = EC_ERROR_UNIMPLEMENTED /\ snd r = st)
  \/ (fst r = neg_EC_ERROR_INVAL
      /\ (n = 8 \/ n = 16)
      /\ snd r = snd (pre_init_regions p n (snd (mpu_disable p st)))
      /\ MPU_CTRL (snd r) = d
      /\ exists evs,
           new_events st (snd r) = Ev_store 32 ADDR_MPU_CTRL d :: evs
           /\ bracketed false evs = Some false
           /\ ctrl_stores evs = [])
  \/ (fst r = EC_SUCCESS
      /\ (n = 8 \/ n = 16)
      /\ fst (pre_init_regions p n (snd (mpu_disable p st))) = EC_SUCCESS
      /\ regions (snd r)
         = regions (snd (pre_init_regions p n (snd (mpu_disable p st))))
      /\ MPU_CTRL (snd r) = Z.lor d (ctrl_bits p)
      /\ exists evs,
           new_events st (snd r)
           = Ev_store 32 ADDR_MPU_CTRL d
             :: evs ++ Ev_store 32 ADDR_MPU_CTRL (Z.lor d (ctrl_bits p))
                       :: (if CONFIG_ARMV7M_CACHE p
                           then [Ev_cpu_enable_caches] else [])
           /\ bracketed false evs = Some false
           /\ ctrl_stores evs = []).
Proof.
  cbv zeta. rewrite pre_init_unfold. cbv zeta.
  destruct (MPU_TYPE_REG_COUNT p (MPU_TYPE st) =? 0);
    [left; split; reflexivity|].
  destruct (negb _ || _) eqn:Hgate; [right; left; split; reflexivity|].
  right; right.
  apply orb_false_iff in Hgate. destruct Hgate as [_ Hn].
  assert (Hn' : MPU_TYPE_REG_COUNT p (MPU_TYPE st) = 8
                \/ MPU_TYPE_REG_COUNT p (MPU_TYPE st) = 16).
  { destruct (MPU_TYPE_REG_COUNT p (MPU_TYPE st) =? 8) eqn:E8;
      [left; apply Z.eqb_eq; exact E8|].
    destruct (MPU_TYPE_REG_COUNT p (MPU_TYPE st) =? 16) eqn:E16;
      [right; apply Z.eqb_eq; exact E16|discriminate]. }
  set (n := MPU_TYPE_REG_COUNT p (MPU_TYPE st)) in *.
  set (d := Z.land (MPU_CTRL st) (u32 (Z.lnot (ctrl_bits p)))).
  set (s0 := snd (mpu_disable p st)).
  assert (Htr0 : trace s0 = trace st ++ [Ev_store 32 ADDR_MPU_CTRL d])
    by reflexivity.
  assert (Hc0 : MPU_CTRL s0 = d) by reflexivity.
  destruct (pre_init_regions_region_op n s0)
    as (_ & HC & evs & Htr & Hbr & Hcs).
  destruct (pre_init_regions_two_valued n s0) as [E | E]; rewrite E;
    cbn [is_success negb fst snd].
  - right. split; [reflexivity|]. split; [exact Hn'|].
    split; [reflexivity|].
    split; [destruct (CONFIG_ARMV7M_CACHE p); reflexivity|].
    split.
    { destruct (CONFIG_ARMV7M_CACHE p);
        unfold mpu_enable, cpu_enable_caches, store_MPU_CTRL, rd, bind, ret,
          log;
        cbn [fst snd MPU_CTRL]; rewrite HC, Hc0; reflexivity. }
    exists evs. split; [|split; assumption].
    apply new_events_app.
    destruct (CONFIG_ARMV7M_CACHE p);
      unfold mpu_enable, cpu_enable_caches, store_MPU_CTRL, rd, bind, ret,
        log;
      cbn [fst snd MPU_CTRL trace]; rewrite Htr, Htr0, HC, Hc0;
      rewrite <- ?app_assoc; reflexivity.
  - left. split; [exact E|]. split; [exact Hn'|].
    split; [reflexivity|].
    split; [rewrite HC; exact Hc0|].
    exists evs. split; [|split; assumption].
    apply new_events_app. rewrite Htr, Htr0, <- app_assoc. reflexivity.
Qed.

End Combinators.

Section BootSequence.

Variable p : platform.

Lemma within_count_same {A : Type} (c : M A) :
  (forall st, MPU_TYPE (snd (c st)) = MPU_TYPE st
              /\ regions (snd (c st)) = regions st) ->
  within_count p c.
Proof.
  intros H st. destruct (H st) as (T & R).
  split; [exact T|]. intros i _. rewrite R. reflexivity.
Qed.

Lemma within_count_pre_init : within_count p (mpu_pre_init p).
Proof.
  unfold mpu_pre_init.
  apply within_count_bind;
    [apply within_count_same; intros st; split; reflexivity|intros mpu].
  apply within_count_if; [apply within_count_ret|].
  apply within_count_bind;
    [apply within_count_same; intros st; split; reflexivity|intros n].
  apply within_count_bind;
    [apply within_count_same; intros st; split; reflexivity|intros u].
  apply within_count_if; [apply within_count_ret|].
  apply within_count_bind;
    [apply within_count_same; intros st; split; reflexivity|intros _].
  apply within_count_bind; [apply within_count_disable_all|intros rv].
  apply within_count_if; [apply within_count_ret|].
  apply within_count_bind;
    [apply within_count_if;
       [apply within_count_lock_rollback|apply within_count_ret]
    |intros rv2].
  apply within_count_if; [apply within_count_ret|].
  apply within_count_bind; [|intros rv3].
  { apply within_count_if; [|apply within_count_ret].
    destruct (CONFIG_CHIP_UNCACHED_REGION p) as [[a b]|];
      [apply within_count_config | apply within_count_ret]. }
  apply within_count_if; [apply within_count_ret|].
  apply within_count_bind;
    [apply within_count_same; intros st; split; reflexivity|intros _].
  apply within_count_bind; [|intros _; apply within_count_ret].
  apply within_count_if;
    apply within_count_same; intros st; split; reflexivity.
Qed.

(** What the uncached region of [pre_init_regions] leaves of the rollback
    lock before it. *)
Lemma pre_init_regions_rollback n st :
  CONFIG_ROLLBACK_MPU_PROTECT p = true ->
  fst (pre_init_regions p n st) = EC_SUCCESS ->
  let s1 := snd (disable_all_regions p (Z.to_nat n) 0 st) in
  MPU_TYPE s1 = MPU_TYPE st
  /\ fst (mpu_lock_rollback p 1 s1) = EC_SUCCESS
  /\ forall i,
       ~ In i (if CONFIG_ARMV7M_CACHE p then
                 match CONFIG_CHIP_UNCACHED_REGION p with
                 | Some (_, region_size) =>
                     request_slots (u8 (REGION_UNCACHED_RAM p))
                       (u32 region_size)
                 | None => []
                 end
               else []) ->
       regions (snd (pre_init_regions p n st)) i
       = regions (snd (mpu_lock_rollback p 1 s1)) i.
Proof.
  intros Hrb. cbv zeta. unfold pre_init_regions, bind, ret. rewrite Hrb.
  destruct (region_op_disable_all p (Z.to_nat n) 0 st) as (T1 & _).
  destruct (disable_all_regions p (Z.to_nat n) 0 st) as [rv1 s1].
  cbn [fst snd] in *.
  destruct rv1; cbn [is_success negb fst snd]; try discriminate.
  destruct (mpu_lock_rollback p 1 s1) as [rv2 s2]. cbn [fst snd].
  destruct rv2; cbn [is_success negb fst snd]; try discriminate.
  destruct (CONFIG_ARMV7M_CACHE p); [|intros _; auto].
  destruct (CONFIG_CHIP_UNCACHED_REGION p) as [[a b]|]; [|intros _; auto].
  intros Hok3. split; [exact T1|]. split; [reflexivity|].
  intros i Hi.
  destruct (request_touch p (u8 (REGION_UNCACHED_RAM p)) (u32 a) (u32 b)
              (u16 (Z.lor (MPU_ATTR_XN p) (MPU_ATTR_RW_RW p))) 1 s2
              (u8_range _) (u32_range _) (u32_range _) Hok3)
    as (_ & _ & Hag).
  symmetry. apply Hag. exact Hi.
Qed.

End BootSequence.

(** X12.  Whatever the state it is called in and whatever it answers,
    [mpu_pre_init] keeps the barrier discipline: every store to a region
    register comes between an opening and a closing barrier, every store
    to the control register and the enabling of the caches outside such
    a pair, and no pair is left open. *)
Theorem pre_init_barrier_discipline (p : platform) (st : mpu_state) :
  bracketed false (new_events st (snd (mpu_pre_init p st))) = Some false.
Proof.
  assert (Hnil : new_events st st = [])
    by (unfold new_events; apply skipn_all).
  destruct (pre_init_shape p st)
    as [(_ & E) | [(_ & E) | [(_ & _ & _ & _ & evs & E & Hbr & _)
                             | (_ & _ & _ & _ & _ & evs & E & Hbr & _)]]];
    cbv zeta in E; rewrite E.
  - rewrite Hnil. reflexivity.
  - rewrite Hnil. reflexivity.
  - cbn [bracketed]. exact Hbr.
  - cbn [bracketed]. rewrite (bracketed_app _ _ _ _ Hbr).
    destruct (CONFIG_ARMV7M_CACHE p); reflexivity.
Qed.

(** X13.  A successful [mpu_pre_init] stores to the control register
    twice.  The first store, before anything else, writes the old value
    with the three bits PRIVDEFENA, HFNMIENA and ENABLE cleared; the
    second, after the last region has been programmed, writes that value
    with the three bits set, and this is what the register holds at the
    end.  The enabling of the caches, where the configuration has it, is
    the one event after it. *)
Theorem pre_init_success_enables (p : platform) (st : mpu_state) :
  fst (mpu_pre_init p st) = EC_SUCCESS ->
  let d := Z.land (MPU_CTRL st) (u32 (Z.lnot (ctrl_bits p))) in
  let st' := snd (mpu_pre_init p st) in
  MPU_CTRL st' = Z.lor d (ctrl_bits p)
  /\ exists evs,
       new_events st st'
       = Ev_store 32 ADDR_MPU_CTRL d
         :: evs ++ Ev_store 32 ADDR_MPU_CTRL (Z.lor d (ctrl_bits p))
                   :: (if CONFIG_ARMV7M_CACHE p
                       then [Ev_cpu_enable_caches] else [])
       /\ ctrl_stores evs = [].
Proof.
  intros Hok. cbv zeta.
  destruct (pre_init_shape p st)
    as [(E & _) | [(E & _) | [(E & _)
                             | (_ & _ & _ & _ & HC & evs & E & _ & Hcs)]]];
    cbv zeta in *; try congruence.
  split; [exact HC|]. exists evs. auto.
Qed.

Lemma pre_init_success_enables_witness :
  fst (mpu_pre_init sample_platform (reset_state 8)) = EC_SUCCESS
  /\ MPU_CTRL (snd (mpu_pre_init sample_platform (reset_state 8)))
     = Z.lor (Z.land (MPU_CTRL (reset_state 8))
                     (u32 (Z.lnot (ctrl_bits sample_platform))))
             (ctrl_bits sample_platform).
Proof.
  assert (H : fst (mpu_pre_init sample_platform (reset_state 8))
              = EC_SUCCESS) by reflexivity.
  split; [exact H|].
  exact (proj1 (pre_init_success_enables sample_platform (reset_state 8) H)).
Defined.

(** X14.  When [mpu_pre_init] answers [-EC_ERROR_INVAL] -- the loop, the
    rollback lock or the uncached region was refused -- it has stored to
    the control register once, the old value with the three bits
    PRIVDEFENA, HFNMIENA and ENABLE cleared, and returns with the three
    bits clear: the unit is left disabled. *)
Theorem pre_init_failure_leaves_disabled (p : platform) (st : mpu_state) :
  fst (mpu_pre_init p st) = neg_EC_ERROR_INVAL ->
  let d := Z.land (MPU_CTRL st) (u32 (Z.lnot (ctrl_bits p))) in
  let st' := snd (mpu_pre_init p st) in
  MPU_CTRL st' = d
  /\ Z.land (MPU_CTRL st') (ctrl_bits p) = 0
  /\ ctrl_stores (new_events st st') = [d].
Proof.
  intros Hbad. cbv zeta.
  destruct (pre_init_shape p st)
    as [(E & _) | [(E & _) | [(_ & _ & _ & HC & evs & E & _ & Hcs)
                             | (E & _)]]];
    cbv zeta in *; try congruence.
  split; [exact HC|]. split.
  - rewrite HC. apply disabled_ctrl_bits.
  - rewrite E. cbn [ctrl_stores]. rewrite Hcs. reflexivity.
Qed.

Lemma pre_init_failure_leaves_disabled_witness :
  fst (mpu_pre_init sample_platform (reset_state 16)) = neg_EC_ERROR_INVAL
  /\ Z.land (MPU_CTRL (snd (mpu_pre_init sample_platform (reset_state 16))))
            (ctrl_bits sample_platform) = 0.
Proof.
  assert (H : fst (mpu_pre_init sample_platform (reset_state 16))
              = neg_EC_ERROR_INVAL) by reflexivity.
  split; [exact H|].
  exact (proj1 (proj2 (pre_init_failure_leaves_disabled sample_platform
                         (reset_state 16) H))).
Defined.

(** X15.  After a successful [mpu_pre_init], every slot below the region
    count that is not among those of the rollback lock and of the
    uncached region reads back disabled and protects no byte, whatever
    it held before. *)
Theorem pre_init_disables_unused
    (p : platform) (st : mpu_state) (i : Z) :
  fst (mpu_pre_init p st) = EC_SUCCESS ->
  0 <= i < MPU_TYPE_REG_COUNT p (MPU_TYPE st) ->
  ~ In i (pre_init_slots p st) ->
  let st' := snd (mpu_pre_init p st) in
  enabled (slot_encoding st' i) = false
  /\ forall a, protects (slot_encoding st' i) a = false.
Proof.
  intros Hok Hi Hnot. cbv zeta.
  destruct (pre_init_shape p st)
    as [(E & _) | [(E & _) | [(E & _)
                             | (_ & Hn & Hok' & HR & _)]]];
    cbv zeta in *; try congruence.
  assert (Hbit : Z.testbit
                   (RASR (regions (snd (mpu_pre_init p st)) i)) 0 = false).
  { rewrite HR.
    apply pre_init_regions_disables; [lia | exact Hok' | exact Hi|].
    exact Hnot. }
  split; [exact Hbit|].
  apply disabled_slot_protects_nothing. exact Hbit.
Qed.

Lemma pre_init_disables_unused_witness :
  (fst (mpu_pre_init sample_platform (reset_state 8)) = EC_SUCCESS
   /\ 0 <= 6 < MPU_TYPE_REG_COUNT sample_platform (MPU_TYPE (reset_state 8))
   /\ ~ In 6 (pre_init_slots sample_platform (reset_state 8)))
  /\ enabled (slot_encoding
                (snd (mpu_pre_init sample_platform (reset_state 8))) 6)
     = false.
Proof.
  assert (H1 : fst (mpu_pre_init sample_platform (reset_state 8))
               = EC_SUCCESS) by reflexivity.
  assert (H2 : 0 <= 6 < MPU_TYPE_REG_COUNT sample_platform
                          (MPU_TYPE (reset_state 8)))
    by (vm_compute; intuition congruence).
  assert (H3 : ~ In 6 (pre_init_slots sample_platform (reset_state 8)))
    by (vm_compute; intuition congruence).
  split; [split; [exact H1 | split; [exact H2 | exact H3]]|].
  exact (proj1 (pre_init_disables_unused sample_platform (reset_state 8) 6
                  H1 H2 H3)).
Defined.

(** X16.  Whatever the state it is called in and whatever it answers,
    [mpu_pre_init] leaves the type register alone and every slot at or
    above the region count that the type register reports. *)
Theorem pre_init_keeps_within_count
    (p : platform) (st : mpu_state) (i : Z) :
  MPU_TYPE_REG_COUNT p (MPU_TYPE st) <= i ->
  MPU_TYPE (snd (mpu_pre_init p st)) = MPU_TYPE st
  /\ regions (snd (mpu_pre_init p st)) i = regions st i.
Proof.
  intros Hi. destruct (within_count_pre_init p st) as (T & R).
  split; [exact T | apply R; exact Hi].
Qed.

Lemma pre_init_keeps_within_count_witness :
  MPU_TYPE_REG_COUNT sample_platform (MPU_TYPE (reset_state 8)) <= 8
  /\ regions (snd (mpu_pre_init sample_platform (reset_state 8))) 8
     = regions (reset_state 8) 8.
Proof.
  assert (H : MPU_TYPE_REG_COUNT sample_platform (MPU_TYPE (reset_state 8))
              <= 8) by (vm_compute; discriminate).
  split; [exact H|].
  exact (proj2 (pre_init_keeps_within_count sample_platform (reset_state 8)
                  8 H)).
Defined.

(** X17.  The boot sequence protects the rollback range.  Where the
    rollback lock is configured, the rollback slot is below the region
    count and is not one of the slots of the uncached region, after a
    successful [mpu_pre_init] the slots of the rollback request protect
    the bytes of the rollback range, and no other byte. *)
Theorem pre_init_protects_rollback
    (p : platform) (st : mpu_state) (a : Z) :
  CONFIG_ROLLBACK_MPU_PROTECT p = true ->
  u8 (REGION_ROLLBACK p) < MPU_TYPE_REG_COUNT p (MPU_TYPE st) ->
  0 < rollback_region_total_size p ->
  (forall i,
     In i (config_slots (u8 (REGION_ROLLBACK p))
             (rollback_region_total_size p)) ->
     ~ In i (if CONFIG_ARMV7M_CACHE p then
               match CONFIG_CHIP_UNCACHED_REGION p with
               | Some (_, region_size) =>
                   request_slots (u8 (REGION_UNCACHED_RAM p))
                     (u32 region_size)
               | None => []
               end
             else [])) ->
  fst (mpu_pre_init p st) = EC_SUCCESS ->
  existsb (fun i => protects (slot_encoding (snd (mpu_pre_init p st)) i) a)
          (config_slots (u8 (REGION_ROLLBACK p))
             (rollback_region_total_size p)) = true
  <-> rollback_region_start_address p <= a
      < rollback_region_start_address p + rollback_region_total_size p.
Proof.
  intros Hrb Hslot Hsize Hdisj Hok.
  destruct (pre_init_shape p st)
    as [(E & _) | [(E & _) | [(E & _)
                             | (_ & Hn & Hok' & HR & _)]]];
    cbv zeta in *; try congruence.
  destruct (pre_init_regions_rollback p _ _ Hrb Hok') as (T1 & Hlock & Hkeep).
  cbv zeta in *.
  set (s1 := snd (disable_all_regions p
                    (Z.to_nat (MPU_TYPE_REG_COUNT p (MPU_TYPE st))) 0
                    (snd (mpu_disable p st)))) in *.
  assert (Hty : MPU_TYPE s1 = MPU_TYPE st) by (rewrite T1; reflexivity).
  assert (Hbranch : (u8 (REGION_ROLLBACK p)
                     <? MPU_TYPE_REG_COUNT p (MPU_TYPE s1)) = true)
    by (rewrite Hty; apply Z.ltb_lt; exact Hslot).
  assert (E : mpu_lock_rollback p 1 s1
              = mpu_config_region p (u8 (REGION_ROLLBACK p))
                  (rollback_region_start_address p)
                  (rollback_region_total_size p) (rollback_mpu_attr p)
                  (u8 1) s1).
  { rewrite lock_rollback_unfold, Hbranch. reflexivity. }
  rewrite E in Hlock, Hkeep.
  apply (accepted_cover_later p (u8 (REGION_ROLLBACK p))
           (rollback_region_start_address p) (rollback_region_total_size p)
           (rollback_mpu_attr p) (u8 1) s1 (snd (mpu_pre_init p st)) a).
  - apply u8_range.
  - apply u32_range.
  - pose proof (u32_range (CONFIG_ROLLBACK_SIZE p)) as H.
    fold (rollback_region_total_size p) in H. lia.
  - apply u16_range.
  - vm_compute. discriminate.
  - exact Hlock.
  - intros i Hi. rewrite HR. apply Hkeep. apply Hdisj. exact Hi.
Qed.

Lemma pre_init_protects_rollback_witness :
  (CONFIG_ROLLBACK_MPU_PROTECT cached_platform = true
   /\ u8 (REGION_ROLLBACK cached_platform)
      < MPU_TYPE_REG_COUNT cached_platform (MPU_TYPE (reset_state 16))
   /\ 0 < rollback_region_total_size cached_platform
   /\ fst (mpu_pre_init cached_platform (reset_state 16)) = EC_SUCCESS)
  /\ (existsb
        (fun i =>
           protects
             (slot_encoding
                (snd (mpu_pre_init cached_platform (reset_state 16))) i)
             0x08040000)
        (config_slots (u8 (REGION_ROLLBACK cached_platform))
           (rollback_region_total_size cached_platform)) = true
      <-> rollback_region_start_address cached_platform <= 0x08040000
          < rollback_region_start_address cached_platform
            + rollback_region_total_size cached_platform).
Proof.
  assert (H1 : CONFIG_ROLLBACK_MPU_PROTECT cached_platform = true)
    by reflexivity.
  assert (H2 : u8 (REGION_ROLLBACK cached_platform)
               < MPU_TYPE_REG_COUNT cached_platform
                   (MPU_TYPE (reset_state 16))) by reflexivity.
  assert (H3 : 0 < rollback_region_total_size cached_platform)
    by reflexivity.
  assert (H4 : forall i,
             In i (config_slots (u8 (REGION_ROLLBACK cached_platform))
                     (rollback_region_total_size cached_platform)) ->
             ~ In i (if CONFIG_ARMV7M_CACHE cached_platform then
                       match CONFIG_CHIP_UNCACHED_REGION cached_platform with
                       | Some (_, region_size) =>
                           request_slots
                             (u8 (REGION_UNCACHED_RAM cached_platform))
                             (u32 region_size)
                       | None => []
                       end
                     else []))
    by (vm_compute; intuition congruence).
  assert (H5 : fst (mpu_pre_init cached_platform (reset_state 16))
               = EC_SUCCESS) by reflexivity.
  split; [split; [exact H1 | split; [exact H2 | split;
                                     [exact H3 | exact H5]]]|].
  exact (pre_init_protects_rollback cached_platform (reset_state 16)
           0x08040000 H1 H2 H3 H4 H5).
Defined.

(** ** The memory map functions *)

Section MemoryMapFacts.

Variable p : platform.
Variable m : memory_map.

Lemma memory_map_region_op :
  region_op (mpu_protect_data_ram p m)
  /\ region_op (mpu_protect_code_ram p m)
  /\ region_op (mpu_lock_ro_flash p m)
  /\ region_op (mpu_lock_rw_flash p m).
Proof.
  unfold mpu_protect_data_ram, mpu_protect_code_ram, mpu_lock_ro_flash,
    mpu_lock_rw_flash, mpu_unlock_region.
  split; [|split; [|split]]; try apply region_op_config.
  - apply region_op_bind; [apply region_op_config|intros rv].
    apply region_op_if; [apply region_op_ret | apply region_op_config].
  - apply region_op_bind; [apply region_op_config|intros rv].
    apply region_op_if; [apply region_op_ret | apply region_op_config].
Qed.

Lemma memory_map_within_count :
  within_count p (mpu_protect_data_ram p m)
  /\ within_count p (mpu_protect_code_ram p m)
  /\ within_count p (mpu_lock_ro_flash p m)
  /\ within_count p (mpu_lock_rw_flash p m).
Proof.
  unfold mpu_protect_data_ram, mpu_protect_code_ram, mpu_lock_ro_flash,
    mpu_lock_rw_flash, mpu_unlock_region.
  split; [|split; [|split]]; try apply within_count_config.
  - apply within_count_bind; [apply within_count_config|intros rv].
    apply within_count_if; [apply within_count_ret | apply within_count_config].
  - apply within_count_bind; [apply within_count_config|intros rv].
    apply within_count_if; [apply within_count_ret | apply within_count_config].
Qed.

Lemma two_valued_then (c1 c2 : M status) (b : bool) :
  two_valued c1 -> two_valued c2 ->
  two_valued (rv <- c1 ;; if negb (is_success rv) || b then ret rv else c2).
Proof.
  intros H1 H2 st. unfold bind, ret.
  specialize (H1 st). destruct (c1 st) as [rv1 s1]. cbn [fst snd] in *.
  destruct H1 as [-> | ->]; cbn [is_success negb orb];
    [|right; reflexivity].
  destruct b; [left; reflexivity | apply H2].
Qed.

Lemma memory_map_two_valued :
  two_valued (mpu_protect_data_ram p m)
  /\ two_valued (mpu_protect_code_ram p m)
  /\ two_valued (mpu_lock_ro_flash p m)
  /\ two_valued (mpu_lock_rw_flash p m).
Proof.
  unfold mpu_protect_code_ram, mpu_lock_ro_flash.
  split; [|split; [|split]]; try apply two_valued_config.
  - intros st.
    pose proof (two_valued_then
                  (mpu_config_region p (u8 (REGION_DATA_RAM m))
                     (u32 (CONFIG_RAM_BASE m)) (u32 (CONFIG_DATA_RAM_SIZE m))
                     (u16 (Z.lor (Z.lor (MPU_ATTR_XN p) (MPU_ATTR_RW_RW p))
                                 (MPU_ATTR_INTERNAL_SRAM m))) 1)
                  (mpu_unlock_region p (u8 (REGION_DATA_RAM_TEXT p))
                     (u32 (iram_text_start m)) (u32 (iram_text_size m))
                     (u8 (MPU_ATTR_INTERNAL_SRAM m)))
                  false (two_valued_config p _ _ _ _ _)
                  (two_valued_config p _ _ _ _ _) st) as H.
    unfold mpu_protect_data_ram. revert H. unfold bind, ret.
    destruct (mpu_config_region p _ _ _ _ 1 st) as [rv1 s1].
    cbn [fst snd]. rewrite orb_false_r. auto.
  - apply two_valued_then; apply two_valued_config.
Qed.

End MemoryMapFacts.

(** X18.  Each of the four memory map functions answers with success or
    with [-EC_ERROR_INVAL]; whatever it answers, it leaves the type and
    control registers alone and every slot at or above the region count,
    it stores to region registers between barriers only, and it leaves no
    barrier pair open. *)
Theorem memory_map_functions_discipline (p : platform) (m : memory_map) :
  Forall
    (fun c : M status =>
       forall st,
         let st' := snd (c st) in
         (fst (c st) = EC_SUCCESS \/ fst (c st) = neg_EC_ERROR_INVAL)
         /\ MPU_TYPE st' = MPU_TYPE st
         /\ MPU_CTRL st' = MPU_CTRL st
         /\ bracketed false (new_events st st') = Some false
         /\ ctrl_stores (new_events st st') = []
         /\ forall i, MPU_TYPE_REG_COUNT p (MPU_TYPE st) <= i ->
                      regions st' i = regions st i)
    [mpu_protect_data_ram p m; mpu_protect_code_ram p m;
     mpu_lock_ro_flash p m; mpu_lock_rw_flash p m].
Proof.
  assert (H : forall c : M status,
             two_valued c -> region_op c -> within_count p c ->
             forall st,
               let st' := snd (c st) in
               (fst (c st) = EC_SUCCESS \/ fst (c st) = neg_EC_ERROR_INVAL)
               /\ MPU_TYPE st' = MPU_TYPE st
               /\ MPU_CTRL st' = MPU_CTRL st
               /\ bracketed false (new_events st st') = Some false
               /\ ctrl_stores (new_events st st') = []
               /\ forall i, MPU_TYPE_REG_COUNT p (MPU_TYPE st) <= i ->
                            regions st' i = regions st i).
  { intros c H2 Hop Hwc st. cbv zeta.
    destruct (Hop st) as (T & C & evs & Htr & Hbr & Hcs).
    destruct (Hwc st) as (_ & R).
    rewrite (new_events_app _ _ _ Htr).
    split; [apply H2|]. split; [exact T|]. split; [exact C|].
    split; [exact Hbr|]. split; [exact Hcs | exact R]. }
  destruct (memory_map_two_valued p m) as (V1 & V2 & V3 & V4).
  destruct (memory_map_region_op p m) as (O1 & O2 & O3 & O4).
  destruct (memory_map_within_count p m) as (W1 & W2 & W3 & W4).
  repeat (apply Forall_cons; [apply H; assumption|]). apply Forall_nil.
Qed.

(** ** The lock of the RW flash *)

Section RwFlash.

Variable p : platform.
Variable m : memory_map.

Lemma aligned_size_bit_range : 0 <= aligned_size_bit p m <= 31.
Proof.
  unfold aligned_size_bit, __fls, __builtin_clz.
  pose proof (u32_range (CONFIG_MAPPED_STORAGE_BASE p + CONFIG_RW_MEM_OFF m))
    as Hs.
  fold (rw_start_address p m) in Hs.
  pose proof (u32_range (- rw_start_address p m)) as Hn.
  pose proof (Z.log2_land (rw_start_address p m)
                (u32 (- rw_start_address p m)) ltac:(lia) ltac:(lia)) as Hl.
  pose proof (Z.log2_nonneg
                (Z.land (rw_start_address p m)
                   (u32 (- rw_start_address p m)))) as H0.
  assert (Z.log2 (rw_start_address p m) <= 31).
  { destruct (Z.eq_dec (rw_start_address p m) 0) as [-> | Hne];
      [cbn; lia|].
    apply log2_u32_bound. lia. }
  lia.
Qed.

Lemma first_region_bounds :
  0 < u32 (CONFIG_RW_SIZE m) ->
  0 < first_region_size p m <= u32 (CONFIG_RW_SIZE m)
  /\ (first_region_size p m = u32 (CONFIG_RW_SIZE m)
      \/ (first_region_size p m = 2 ^ aligned_size_bit p m
          /\ first_region_size p m < u32 (CONFIG_RW_SIZE m))).
Proof.
  intros Hrw. pose proof aligned_size_bit_range as Hb.
  unfold first_region_size, MIN.
  rewrite BIT_small by lia.
  pose proof (pow2_pos (aligned_size_bit p m) ltac:(lia)) as Hp.
  destruct (2 ^ aligned_size_bit p m <? u32 (CONFIG_RW_SIZE m)) eqn:E.
  - apply Z.ltb_lt in E. split; [lia|]. right. split; [reflexivity | lia].
  - apply Z.ltb_ge in E. split; [lia|]. left. reflexivity.
Qed.

Lemma second_region_value :
  0 < u32 (CONFIG_RW_SIZE m) ->
  second_region_size p m = u32 (CONFIG_RW_SIZE m) - first_region_size p m.
Proof.
  intros Hrw. destruct (first_region_bounds Hrw) as (Hf & _).
  pose proof (u32_range (CONFIG_RW_SIZE m)).
  unfold second_region_size. apply u32_small. lia.
Qed.

End RwFlash.

(** X19.  The lock of the RW flash.  When the RW image does not start at
    address 0, has a length other than zero and does not run past the
    end of the address space, and the slot of the first request is not
    among those of the second, a successful [mpu_lock_rw_flash] leaves
    the slots it has written protecting the bytes of the RW image, from
    [CONFIG_MAPPED_STORAGE_BASE + CONFIG_RW_MEM_OFF] on for
    [CONFIG_RW_SIZE] bytes, and no other byte. *)
Theorem lock_rw_flash_cover
    (p : platform) (m : memory_map) (st : mpu_state) (a : Z) :
  rw_start_address p m <> 0 ->
  0 < u32 (CONFIG_RW_SIZE m) ->
  rw_start_address p m + u32 (CONFIG_RW_SIZE m) <= 2 ^ 32 ->
  ~ In (u8 (REGION_STORAGE m))
       (request_slots (u8 (REGION_STORAGE2 p)) (second_region_size p m)) ->
  fst (mpu_lock_rw_flash p m st) = EC_SUCCESS ->
  existsb
    (fun i => protects (slot_encoding (snd (mpu_lock_rw_flash p m st)) i) a)
    (rw_flash_slots p m) = true
  <-> (rw_start_address p m <= a
       < rw_start_address p m + u32 (CONFIG_RW_SIZE m)).
Proof.
  intros Hstart Hrw Hfit Hslot.
  pose proof (u32_range (CONFIG_MAPPED_STORAGE_BASE p + CONFIG_RW_MEM_OFF m))
    as Hs.
  fold (rw_start_address p m) in Hs.
  pose proof (u32_range (CONFIG_RW_SIZE m)) as Hrw'.
  destruct (first_region_bounds p m Hrw) as (Hf & Hcase).
  pose proof (second_region_value p m Hrw) as Hsec.
  pose proof (aligned_size_bit_range p m) as Hb.
  assert (Hattr : 0 <= rw_flash_attr p m < 2 ^ 16) by apply u16_range.
  assert (C1 : fst (mpu_config_region p (u8 (REGION_STORAGE m))
                      (rw_start_address p m) (first_region_size p m)
                      (rw_flash_attr p m) 1 st) = EC_SUCCESS ->
               forall st2,
                 (forall i,
                    In i (config_slots (u8 (REGION_STORAGE m))
                            (first_region_size p m)) ->
                    regions st2 i
                    = regions
                        (snd (mpu_config_region p (u8 (REGION_STORAGE m))
                                (rw_start_address p m)
                                (first_region_size p m)
                                (rw_flash_attr p m) 1 st)) i) ->
                 existsb (fun i => protects (slot_encoding st2 i) a)
                   (config_slots (u8 (REGION_STORAGE m))
                      (first_region_size p m)) = true
                 <-> (rw_start_address p m <= a
                      < rw_start_address p m + first_region_size p m)).
  { intros Hok st2 Hkeep.
    apply (accepted_cover_later p (u8 (REGION_STORAGE m))
             (rw_start_address p m) (first_region_size p m)
             (rw_flash_attr p m) 1 st st2 a);
      try assumption; try apply u8_range; lia. }
  unfold mpu_lock_rw_flash, rw_flash_slots, bind, ret.
  destruct (mpu_config_region p (u8 (REGION_STORAGE m))
              (rw_start_address p m) (first_region_size p m)
              (rw_flash_attr p m) 1 st) as [rv1 s1].
  cbn [fst snd] in C1.
  destruct (second_region_size p m =? 0) eqn:Hz.
  - (* one request *)
    rewrite orb_true_r. cbn [fst snd]. intros Hok.
    apply Z.eqb_eq in Hz. unfold request_slots. rewrite Hz. cbn [Z.eqb].
    rewrite app_nil_r.
    replace (u32 (CONFIG_RW_SIZE m)) with (first_region_size p m) by lia.
    apply (C1 Hok). intros; reflexivity.
  - (* two requests *)
    rewrite orb_false_r.
    destruct rv1; cbn [is_success negb fst snd];
      try (intros H; discriminate H).
    intros Hok2.
    apply Z.eqb_neq in Hz.
    destruct Hcase as [Heq | (Hpow & Hlt)]; [lia|].
    assert (Hone : config_slots (u8 (REGION_STORAGE m))
                     (first_region_size p m) = [u8 (REGION_STORAGE m)]).
    { unfold config_slots. rewrite Hpow, POWER_OF_TWO_pow2 by lia.
      reflexivity. }
    assert (Haddr2 : second_region_address p m
                     = rw_start_address p m + first_region_size p m).
    { unfold second_region_address. apply u32_small. lia. }
    rewrite Haddr2 in *.
    assert (Hsz2 : 0 < second_region_size p m < 2 ^ 32) by lia.
    destruct (request_touch p (u8 (REGION_STORAGE2 p))
                (rw_start_address p m + first_region_size p m)
                (second_region_size p m) (rw_flash_attr p m) 1 s1
                (u8_range _) ltac:(lia) ltac:(lia) Hok2)
      as (_ & _ & Hag).
    pose proof (accepted_cover_later p (u8 (REGION_STORAGE2 p))
                  (rw_start_address p m + first_region_size p m)
                  (second_region_size p m) (rw_flash_attr p m) 1 s1
                  _ a (u8_range _) ltac:(lia) Hsz2 Hattr ltac:(lia)
                  Hok2 ltac:(intros; reflexivity)) as C2.
    specialize (C1 eq_refl _
                  ltac:(rewrite Hone; intros i [<- | []]; symmetry;
                        apply Hag; exact Hslot)).
    unfold request_slots. apply Z.eqb_neq in Hz. rewrite Hz.
    rewrite existsb_app, orb_true_iff, C1, C2. lia.
Qed.

Lemma lock_rw_flash_cover_witness :
  (rw_start_address sample_platform sample_memory_map <> 0
   /\ 0 < u32 (CONFIG_RW_SIZE sample_memory_map)
   /\ rw_start_address sample_platform sample_memory_map
      + u32 (CONFIG_RW_SIZE sample_memory_map) <= 2 ^ 32
   /\ ~ In (u8 (REGION_STORAGE sample_memory_map))
           (request_slots (u8 (REGION_STORAGE2 sample_platform))
              (second_region_size sample_platform sample_memory_map))
   /\ fst (mpu_lock_rw_flash sample_platform sample_memory_map
             (reset_state 8)) = EC_SUCCESS)
  /\ (existsb
        (fun i =>
           protects
             (slot_encoding
                (snd (mpu_lock_rw_flash sample_platform sample_memory_map
                        (reset_state 8))) i) 0x080A0000)
        (rw_flash_slots sample_platform sample_memory_map) = true
      <-> (rw_start_address sample_platform sample_memory_map <= 0x080A0000
           < rw_start_address sample_platform sample_memory_map
             + u32 (CONFIG_RW_SIZE sample_memory_map))).
Proof.
  assert (H1 : rw_start_address sample_platform sample_memory_map <> 0)
    by (vm_compute; discriminate).
  assert (H2 : 0 < u32 (CONFIG_RW_SIZE sample_memory_map)) by reflexivity.
  assert (H3 : rw_start_address sample_platform sample_memory_map
               + u32 (CONFIG_RW_SIZE sample_memory_map) <= 2 ^ 32)
    by (vm_compute; discriminate).
  assert (H4 : ~ In (u8 (REGION_STORAGE sample_memory_map))
                    (request_slots (u8 (REGION_STORAGE2 sample_platform))
                       (second_region_size sample_platform
                          sample_memory_map)))
    by (vm_compute; intuition congruence).
  assert (H5 : fst (mpu_lock_rw_flash sample_platform sample_memory_map
                      (reset_state 8)) = EC_SUCCESS) by reflexivity.
  split; [split; [exact H1 | split; [exact H2 | split;
            [exact H3 | split; [exact H4 | exact H5]]]]|].
  exact (lock_rw_flash_cover sample_platform sample_memory_map
           (reset_state 8) 0x080A0000 H1 H2 H3 H4 H5).
Defined.

(** ** The least significant set bit *)

(** Every positive number is an odd multiple of a power of two. *)
Lemma odd_multiple (x : positive) :
  exists k q, 0 <= k /\ 0 <= q /\ Z.pos x = 2 ^ k * (2 * q + 1).
Proof.
  induction x as [x IH | x IH |].
  - exists 0, (Z.pos x). split; [lia|]. split; [lia|].
    rewrite Z.pow_0_r. lia.
  - destruct IH as (k & q & Hk & Hq & E).
    exists (k + 1), q. split; [lia|]. split; [exact Hq|].
    rewrite Z.pow_add_r by lia. change (2 ^ 1) with 2.
    rewrite Pos2Z.inj_xO, E. ring.
  - exists 0, 0. repeat split; try lia.
Qed.

(** An odd number and its negation have bit 0 in common, and no other. *)
Lemma land_odd_opp (q : Z) : Z.land (2 * q + 1) (- (2 * q + 1)) = 1.
Proof.
  replace (- (2 * q + 1)) with (Z.lnot (2 * q)) by (unfold Z.lnot; lia).
  apply Z.bits_inj'. intros n Hn.
  rewrite Z.land_spec, Z.lnot_spec by exact Hn.
  destruct (Z.eq_dec n 0) as [-> | Hne].
  - rewrite Z.testbit_odd_0, Z.testbit_even_0. reflexivity.
  - replace n with (Z.succ (n - 1)) by lia.
    rewrite Z.testbit_odd_succ, Z.testbit_even_succ by lia.
    rewrite andb_negb_r.
    change 1 with (2 * 0 + 1). rewrite Z.testbit_odd_succ by lia.
    rewrite Z.testbit_0_l. reflexivity.
Qed.

(** [x & -x], in 32 bits, is the largest power of two that divides [x]. *)
Lemma lowest_set_bit (x : Z) :
  0 < x < 2 ^ 32 ->
  exists k,
    0 <= k <= 31
    /\ Z.land x (u32 (- x)) = 2 ^ k
    /\ x mod 2 ^ k = 0.
Proof.
  intros Hx. destruct x as [|x|x]; try lia.
  destruct (odd_multiple x) as (k & q & Hk & Hq & E).
  assert (Hp : 0 < 2 ^ k) by (apply pow2_pos; exact Hk).
  assert (Hk31 : k <= 31).
  { destruct (Z_le_gt_dec k 31) as [H | H]; [exact H|]. exfalso.
    assert (2 ^ 32 <= 2 ^ k) by (apply Z.pow_le_mono_r; lia). nia. }
  exists k. split; [lia|]. split.
  - unfold u32. rewrite <- Z.land_ones by lia.
    rewrite (Z.land_comm (- Z.pos x)), Z.land_assoc.
    rewrite (Z.land_ones (Z.pos x)) by lia.
    rewrite (Z.mod_small (Z.pos x)) by lia.
    rewrite E.
    replace (- (2 ^ k * (2 * q + 1))) with (- (2 * q + 1) * 2 ^ k) by ring.
    rewrite (Z.mul_comm (2 ^ k)).
    rewrite <- !Z.shiftl_mul_pow2 by exact Hk.
    rewrite <- Z.shiftl_land, land_odd_opp.
    rewrite Z.shiftl_mul_pow2 by exact Hk. lia.
  - rewrite E, Z.mul_comm. apply Z.mod_mul. lia.
Qed.

(** X20.  The first request of [mpu_lock_rw_flash] is aligned by
    construction.  When the RW image does not start at address 0 and is
    at least as long as the largest power of two that divides its start
    address, that power of two, [BIT(aligned_size_bit)], is the length
    of the first request and divides its base; when it is at least 32
    and the slot [REGION_STORAGE] is below the region count the first
    request is accepted, and the answer of [mpu_lock_rw_flash] is that of
    its second request, or success when nothing is left for a second. *)
Theorem lock_rw_flash_first_request
    (p : platform) (m : memory_map) (st : mpu_state) :
  rw_start_address p m <> 0 ->
  BIT (aligned_size_bit p m) <= u32 (CONFIG_RW_SIZE m) ->
  5 <= aligned_size_bit p m ->
  u8 (REGION_STORAGE m) < MPU_TYPE_REG_COUNT p (MPU_TYPE st) ->
  first_region_size p m = 2 ^ aligned_size_bit p m
  /\ rw_start_address p m mod first_region_size p m = 0
  /\ fst (mpu_config_region p (u8 (REGION_STORAGE m)) (rw_start_address p m)
            (first_region_size p m) (rw_flash_attr p m) 1 st) = EC_SUCCESS
  /\ fst (mpu_lock_rw_flash p m st)
     = if second_region_size p m =? 0 then EC_SUCCESS
       else fst (mpu_config_region p (u8 (REGION_STORAGE2 p))
                   (second_region_address p m) (second_region_size p m)
                   (rw_flash_attr p m) 1 st).
Proof.
  intros Hstart Hlen H5 Hslot.
  pose proof (u32_range (CONFIG_MAPPED_STORAGE_BASE p + CONFIG_RW_MEM_OFF m))
    as Hs.
  fold (rw_start_address p m) in Hs.
  destruct (lowest_set_bit (rw_start_address p m) ltac:(lia))
    as (k & Hk & Hland & Hmod).
  assert (Hasb : aligned_size_bit p m = k).
  { unfold aligned_size_bit, __fls, __builtin_clz. rewrite Hland.
    rewrite Z.log2_pow2 by lia. lia. }
  rewrite Hasb in *.
  rewrite BIT_small in Hlen by lia.
  assert (Hp : 0 < 2 ^ k) by (apply pow2_pos; lia).
  assert (Hf : first_region_size p m = 2 ^ k).
  { unfold first_region_size, MIN. rewrite Hasb, BIT_small by lia.
    destruct (2 ^ k <? u32 (CONFIG_RW_SIZE m)) eqn:E; [reflexivity|].
    apply Z.ltb_ge in E. lia. }
  assert (Hk32 : 2 ^ k < 2 ^ 32) by (apply Z.pow_lt_mono_r; lia).
  assert (Hfirst : forall s,
             MPU_TYPE s = MPU_TYPE st ->
             fst (mpu_config_region p (u8 (REGION_STORAGE m))
                    (rw_start_address p m) (2 ^ k) (rw_flash_attr p m) 1 s)
             = EC_SUCCESS).
  { intros s Hty. unfold mpu_config_region.
    destruct (2 ^ k =? 0) eqn:E0; [apply Z.eqb_eq in E0; lia|].
    rewrite config_size_bit_log2, Z.log2_pow2 by lia.
    destruct (k <? 5) eqn:E5; [apply Z.ltb_lt in E5; lia|].
    rewrite POWER_OF_TWO_pow2 by lia.
    rewrite (u8_small k) by (change (2 ^ 8) with 256; lia).
    apply update_region_accepts.
    - rewrite BIT_small, is_aligned_pow2 by lia.
      apply Z.eqb_eq. exact Hmod.
    - rewrite Hty. exact Hslot.
    - unfold MPU_SIZE_BITS_MIN. lia. }
  rewrite Hf.
  split; [reflexivity|]. split; [exact Hmod|].
  split; [apply Hfirst; reflexivity|].
  unfold mpu_lock_rw_flash, bind, ret. rewrite Hf.
  pose proof (Hfirst st eq_refl) as Hok.
  pose proof (config_region_keeps_type p (u8 (REGION_STORAGE m))
                (rw_start_address p m) (2 ^ k) (rw_flash_attr p m) 1 st)
    as Hty.
  destruct (mpu_config_region p (u8 (REGION_STORAGE m))
              (rw_start_address p m) (2 ^ k) (rw_flash_attr p m) 1 st)
    as [rv1 s1].
  cbn [fst snd] in *. subst rv1. cbn [is_success negb orb].
  destruct (second_region_size p m =? 0); [reflexivity|].
  apply config_region_status. exact Hty.
Qed.

Lemma lock_rw_flash_first_request_witness :
  (rw_start_address sample_platform sample_memory_map <> 0
   /\ BIT (aligned_size_bit sample_platform sample_memory_map)
      <= u32 (CONFIG_RW_SIZE sample_memory_map)
   /\ 5 <= aligned_size_bit sample_platform sample_memory_map
   /\ u8 (REGION_STORAGE sample_memory_map)
      < MPU_TYPE_REG_COUNT sample_platform (MPU_TYPE (reset_state 8)))
  /\ first_region_size sample_platform sample_memory_map
     = 2 ^ aligned_size_bit sample_platform sample_memory_map.
Proof.
  assert (H1 : rw_start_address sample_platform sample_memory_map <> 0)
    by (vm_compute; discriminate).
  assert (H2 : BIT (aligned_size_bit sample_platform sample_memory_map)
               <= u32 (CONFIG_RW_SIZE sample_memory_map))
    by (vm_compute; discriminate).
  assert (H3 : 5 <= aligned_size_bit sample_platform sample_memory_map)
    by (vm_compute; discriminate).
  assert (H4 : u8 (REGION_STORAGE sample_memory_map)
               < MPU_TYPE_REG_COUNT sample_platform
                   (MPU_TYPE (reset_state 8))) by reflexivity.
  split; [split; [exact H1 | split; [exact H2 | split;
                                     [exact H3 | exact H4]]]|].
  exact (proj1 (lock_rw_flash_first_request sample_platform
                  sample_memory_map (reset_state 8) H1 H2 H3 H4)).
Defined.

(** ** The data RAM *)

(** An accepted request for the slot [REGION_DATA_RAM_TEXT] writes that
    slot and no other. *)
Lemma text_slot_alone p addr size attr enable st :
  0 <= REGION_DATA_RAM_TEXT p < 2 ^ 8 ->
  0 <= addr < 2 ^ 32 -> 0 < size < 2 ^ 32 ->
  fst (mpu_config_region p (REGION_DATA_RAM_TEXT p) addr size attr enable st)
    = EC_SUCCESS ->
  config_slots (REGION_DATA_RAM_TEXT p) size = [REGION_DATA_RAM_TEXT p]
  /\ exists x srd,
       encode (REGION_DATA_RAM_TEXT p) addr size attr
       = [{| slot_index := REGION_DATA_RAM_TEXT p; base_address := addr;
             size_exponent := x; subregion_disable_mask := srd;
             attributes := attr; enabled := true |}].
Proof.
  intros Hr Ha Hs Hok.
  destruct (accepted_encodings p _ addr size attr enable st Hr Ha Hs Hok)
    as [(_ & _ & _ & _ & Hsl & He)
       | [(_ & _ & _ & _ & _ & Hsl & He)
         | (_ & _ & _ & _ & _ & _ & Hne & _)]].
  - split; [exact Hsl|]. eauto.
  - split; [exact Hsl|]. eauto.
  - contradiction Hne. reflexivity.
Qed.

(** X21.  The data RAM and its exemption.  When the slot number
    [REGION_DATA_RAM_TEXT] fits a byte and is not among the slots of the
    data RAM request, and neither length is zero, a successful
    [mpu_protect_data_ram] has written the exemption into the one slot
    [REGION_DATA_RAM_TEXT]: the slot is enabled with the attributes
    [MPU_ATTR_RW_RW | MPU_ATTR_INTERNAL_SRAM] and covers the bytes of
    the [__iram_text] section and no other; the slots of the data RAM
    request cover the bytes of the data RAM and no other. *)
Theorem protect_data_ram_cover
    (p : platform) (m : memory_map) (st : mpu_state) (a : Z) :
  0 <= REGION_DATA_RAM_TEXT p < 2 ^ 8 ->
  0 < u32 (CONFIG_DATA_RAM_SIZE m) ->
  0 < u32 (iram_text_size m) ->
  ~ In (REGION_DATA_RAM_TEXT p)
       (config_slots (u8 (REGION_DATA_RAM m))
          (u32 (CONFIG_DATA_RAM_SIZE m))) ->
  fst (mpu_protect_data_ram p m st) = EC_SUCCESS ->
  let st' := snd (mpu_protect_data_ram p m st) in
  let text := slot_encoding st' (REGION_DATA_RAM_TEXT p) in
  config_slots (REGION_DATA_RAM_TEXT p) (u32 (iram_text_size m))
  = [REGION_DATA_RAM_TEXT p]
  /\ enabled text = true
  /\ attributes text
     = u16 (Z.lor (MPU_ATTR_RW_RW p) (u8 (MPU_ATTR_INTERNAL_SRAM m)))
  /\ (protects text a = true
      <-> (u32 (iram_text_start m) <= a
           < u32 (iram_text_start m) + u32 (iram_text_size m)))
  /\ (existsb (fun i => protects (slot_encoding st' i) a)
        (config_slots (u8 (REGION_DATA_RAM m))
           (u32 (CONFIG_DATA_RAM_SIZE m))) = true
      <-> (u32 (CONFIG_RAM_BASE m) <= a
           < u32 (CONFIG_RAM_BASE m) + u32 (CONFIG_DATA_RAM_SIZE m))).
Proof.
  intros Htext Hram Hlen Hslot. cbv zeta.
  pose proof (u32_range (CONFIG_DATA_RAM_SIZE m)) as Hram'.
  pose proof (u32_range (iram_text_size m)) as Hlen'.
  set (attr1 := u16 (Z.lor (Z.lor (MPU_ATTR_XN p) (MPU_ATTR_RW_RW p))
                           (MPU_ATTR_INTERNAL_SRAM m))).
  set (attr2 := u16 (Z.lor (MPU_ATTR_RW_RW p)
                           (u8 (MPU_ATTR_INTERNAL_SRAM m)))).
  assert (C1 : fst (mpu_config_region p (u8 (REGION_DATA_RAM m))
                      (u32 (CONFIG_RAM_BASE m))
                      (u32 (CONFIG_DATA_RAM_SIZE m)) attr1 1 st)
               = EC_SUCCESS ->
               forall st2,
                 (forall i,
                    In i (config_slots (u8 (REGION_DATA_RAM m))
                            (u32 (CONFIG_DATA_RAM_SIZE m))) ->
                    regions st2 i
                    = regions
                        (snd (mpu_config_region p (u8 (REGION_DATA_RAM m))
                                (u32 (CONFIG_RAM_BASE m))
                                (u32 (CONFIG_DATA_RAM_SIZE m)) attr1 1 st))
                        i) ->
                 existsb (fun i => protects (slot_encoding st2 i) a)
                   (config_slots (u8 (REGION_DATA_RAM m))
                      (u32 (CONFIG_DATA_RAM_SIZE m))) = true
                 <-> (u32 (CONFIG_RAM_BASE m) <= a
                      < u32 (CONFIG_RAM_BASE m)
                        + u32 (CONFIG_DATA_RAM_SIZE m))).
  { intros Hok st2 Hkeep.
    apply (accepted_cover_later p (u8 (REGION_DATA_RAM m))
             (u32 (CONFIG_RAM_BASE m)) (u32 (CONFIG_DATA_RAM_SIZE m))
             attr1 1 st st2 a);
      try assumption; try apply u8_range; try apply u32_range;
      try apply u16_range; lia. }
  unfold mpu_protect_data_ram, mpu_unlock_region, bind, ret.
  fold attr1. fold attr2.
  rewrite (u8_small (REGION_DATA_RAM_TEXT p)) by exact Htext.
  destruct (mpu_config_region p (u8 (REGION_DATA_RAM m))
              (u32 (CONFIG_RAM_BASE m)) (u32 (CONFIG_DATA_RAM_SIZE m))
              attr1 1 st) as [rv1 s1].
  cbn [fst snd] in C1.
  destruct rv1; cbn [is_success negb fst snd];
    try (intros H; discriminate H).
  intros Hok2.
  destruct (text_slot_alone p (u32 (iram_text_start m))
              (u32 (iram_text_size m)) attr2 1 s1 Htext (u32_range _)
              ltac:(lia) Hok2) as (Hone & x & srd & Henc).
  pose proof (accepted_readback p (REGION_DATA_RAM_TEXT p)
                (u32 (iram_text_start m)) (u32 (iram_text_size m)) attr2 1
                s1 Htext ltac:(lia) (u16_range _) ltac:(lia) Hok2) as Hrb.
  rewrite Hone, Henc in Hrb. cbn [map] in Hrb.
  apply (f_equal (hd (slot_encoding s1 0))) in Hrb. cbn [hd] in Hrb.
  pose proof (accepted_cover_later p (REGION_DATA_RAM_TEXT p)
                (u32 (iram_text_start m)) (u32 (iram_text_size m)) attr2 1
                s1 _ a Htext (u32_range _) ltac:(lia) (u16_range _)
                ltac:(lia) Hok2 ltac:(intros; reflexivity)) as C2.
  rewrite Hone in C2. cbn [existsb] in C2. rewrite orb_false_r in C2.
  destruct (request_touch p (REGION_DATA_RAM_TEXT p)
              (u32 (iram_text_start m)) (u32 (iram_text_size m)) attr2 1 s1
              Htext (u32_range _) ltac:(lia) Hok2) as (_ & _ & Hag).
  unfold request_slots in Hag.
  destruct (u32 (iram_text_size m) =? 0) eqn:Hz;
    [apply Z.eqb_eq in Hz; lia|].
  rewrite Hone in Hag.
  split; [exact Hone|].
  split; [rewrite Hrb; reflexivity|].
  split; [rewrite Hrb; reflexivity|].
  split; [exact C2|].
  apply (C1 eq_refl). intros i Hi. symmetry. apply Hag.
  intros [<- | []]. apply Hslot. exact Hi.
Qed.

Lemma protect_data_ram_cover_witness :
  (0 <= REGION_DATA_RAM_TEXT sample_platform < 2 ^ 8
   /\ 0 < u32 (CONFIG_DATA_RAM_SIZE sample_memory_map)
   /\ 0 < u32 (iram_text_size sample_memory_map)
   /\ fst (mpu_protect_data_ram sample_platform sample_memory_map
             (reset_state 8)) = EC_SUCCESS)
  /\ config_slots (REGION_DATA_RAM_TEXT sample_platform)
       (u32 (iram_text_size sample_memory_map))
     = [REGION_DATA_RAM_TEXT sample_platform].
Proof.
  assert (H1 : 0 <= REGION_DATA_RAM_TEXT sample_platform < 2 ^ 8)
    by (vm_compute; intuition congruence).
  assert (H2 : 0 < u32 (CONFIG_DATA_RAM_SIZE sample_memory_map))
    by reflexivity.
  assert (H3 : 0 < u32 (iram_text_size sample_memory_map)) by reflexivity.
  assert (H4 : ~ In (REGION_DATA_RAM_TEXT sample_platform)
                    (config_slots (u8 (REGION_DATA_RAM sample_memory_map))
                       (u32 (CONFIG_DATA_RAM_SIZE sample_memory_map))))
    by (vm_compute; intuition congruence).
  assert (H5 : fst (mpu_protect_data_ram sample_platform sample_memory_map
                      (reset_state 8)) = EC_SUCCESS) by reflexivity.
  split; [split; [exact H1 | split; [exact H2 | split;
                                     [exact H3 | exact H5]]]|].
  exact (proj1 (protect_data_ram_cover sample_platform sample_memory_map
                  (reset_state 8) 0 H1 H2 H3 H4 H5)).
Defined.

(** ** The control register *)

Lemma u32_land_ones (x : Z) : u32 x = Z.land x (Z.ones 32).
Proof. unfold u32. rewrite Z.land_ones by lia. reflexivity. Qed.

Lemma u32_bits (c n : Z) :
  0 <= c < 2 ^ 32 ->
  Z.testbit c n = Z.testbit c n && Z.testbit (Z.ones 32) n.
Proof.
  intros Hc. rewrite <- Z.land_spec, <- u32_land_ones, u32_small by exact Hc.
  reflexivity.
Qed.

(** X22.  [mpu_enable] and [mpu_disable] change the three bits
    PRIVDEFENA, HFNMIENA and ENABLE of the control register and no other
    bit: after [mpu_enable] the three are set, after [mpu_disable] they
    are clear, and the rest of a 32 bit register value is as before.
    Neither touches a region register or the type register; enabling
    after disabling gives what enabling alone gives, and disabling after
    enabling what disabling alone gives. *)
Theorem enable_disable_bits (p : platform) (st : mpu_state) :
  0 <= MPU_CTRL st < 2 ^ 32 ->
  let e := snd (mpu_enable p st) in
  let d := snd (mpu_disable p st) in
  (Z.land (MPU_CTRL e) (ctrl_bits p) = ctrl_bits p
   /\ Z.land (MPU_CTRL e) (Z.lnot (ctrl_bits p))
      = Z.land (MPU_CTRL st) (Z.lnot (ctrl_bits p)))
  /\ (Z.land (MPU_CTRL d) (ctrl_bits p) = 0
      /\ Z.land (MPU_CTRL d) (Z.lnot (ctrl_bits p))
         = Z.land (MPU_CTRL st) (Z.lnot (ctrl_bits p)))
  /\ MPU_CTRL (snd (mpu_enable p d)) = MPU_CTRL e
  /\ MPU_CTRL (snd (mpu_disable p e)) = MPU_CTRL d
  /\ (regions e = regions st /\ MPU_TYPE e = MPU_TYPE st)
  /\ (regions d = regions st /\ MPU_TYPE d = MPU_TYPE st).
Proof.
  intros Hc. cbv zeta.
  change (MPU_CTRL (snd (mpu_enable p st)))
    with (Z.lor (MPU_CTRL st) (ctrl_bits p)).
  change (MPU_CTRL (snd (mpu_disable p st)))
    with (Z.land (MPU_CTRL st) (u32 (Z.lnot (ctrl_bits p)))).
  change (MPU_CTRL (snd (mpu_enable p (snd (mpu_disable p st)))))
    with (Z.lor (Z.land (MPU_CTRL st) (u32 (Z.lnot (ctrl_bits p))))
                (ctrl_bits p)).
  change (MPU_CTRL (snd (mpu_disable p (snd (mpu_enable p st)))))
    with (Z.land (Z.lor (MPU_CTRL st) (ctrl_bits p))
                 (u32 (Z.lnot (ctrl_bits p)))).
  rewrite !u32_land_ones.
  pose proof (fun n => u32_bits (MPU_CTRL st) n Hc) as Hbit.
  set (c := MPU_CTRL st) in *. set (b := ctrl_bits p).
  repeat match goal with |- _ /\ _ => split end;
    try reflexivity;
    apply Z.bits_inj'; intros n Hn;
    repeat (rewrite ?Z.land_spec, ?Z.lor_spec, ?Z.bits_0;
            rewrite ?Z.lnot_spec by exact Hn);
    rewrite (Hbit n);
    destruct (Z.testbit c n), (Z.testbit b n), (Z.testbit (Z.ones 32) n);
    reflexivity.
Qed.

Lemma enable_disable_bits_witness :
  0 <= MPU_CTRL (reset_state 8) < 2 ^ 32
  /\ Z.land (MPU_CTRL (snd (mpu_disable sample_platform (reset_state 8))))
            (ctrl_bits sample_platform) = 0.
Proof.
  assert (H : 0 <= MPU_CTRL (reset_state 8) < 2 ^ 32)
    by (vm_compute; intuition congruence).
  split; [exact H|].
  exact (proj1 (proj1 (proj2 (enable_disable_bits sample_platform
                                (reset_state 8) H)))).
Defined.
